(** * torch.package.PackageExporter: a shallow embedding and its properties

    The development follows [src/torch/package/package_exporter.py].
    The exporter object is a record threaded through a small state and
    exception monad; Python dicts used "for uniquing and deterministic
    ordering" are insertion-ordered key lists; the collaborators that
    the file imports from elsewhere (importer, import scanner, stdlib
    oracle, pickler, opcode enumerator) are the fields of an
    environment record.  Output on stdout ([verbose]) is not modelled. *)

From Stdlib Require Import String Ascii List Bool Arith ZArith Lia DecimalString.
From Stdlib Require Import DecimalPos DecimalZ Relations Sorted Permutation.
Import ListNotations.
Open Scope string_scope.
Open Scope list_scope.

(** ** Python string operations used by the exporter *)

Module Str.

Definition nl : string := String "010"%char "".

(** [s.partition(c)[0]]: the text before the first [c]. *)
Fixpoint partition_head (c : ascii) (s : string) : string :=
  match s with
  | EmptyString => EmptyString
  | String a r => if Ascii.eqb a c then EmptyString
                  else String a (partition_head c r)
  end.

(** [s.split(c)]: never the empty list. *)
Fixpoint split (c : ascii) (s : string) : list string :=
  match s with
  | EmptyString => [EmptyString]
  | String a r =>
      if Ascii.eqb a c then EmptyString :: split c r
      else match split c r with
           | [] => [String a EmptyString]
           | h :: t => String a h :: t
           end
  end.

(** [s.rsplit(c, maxsplit=1)[0]]. *)
Definition rsplit1_head (c : ascii) (s : string) : string :=
  match split c s with
  | [] | [_] => s
  | parts => String.concat (String c EmptyString) (removelast parts)
  end.

(** [s.replace(a, b)] for single characters. *)
Fixpoint replace (a b : ascii) (s : string) : string :=
  match s with
  | EmptyString => EmptyString
  | String x r => String (if Ascii.eqb x a then b else x) (replace a b r)
  end.

Definition endswith (s suffix : string) : bool :=
  let n := String.length s in
  let m := String.length suffix in
  Nat.leb m n && String.eqb (substring (n - m) m s) suffix.

(** [str(i)] for an integer. *)
Definition of_int (z : Z) : string := NilZero.string_of_int (Z.to_int z).

Definition mem (x : string) (l : list string) : bool :=
  existsb (String.eqb x) l.

(** [sorted(keys)] on strings: by code point, as [String.leb]. *)
Fixpoint insert_sorted (x : string) (l : list string) : list string :=
  match l with
  | [] => [x]
  | y :: r => if String.leb x y then x :: l else y :: insert_sorted x r
  end.

Definition sorted (l : list string) : list string :=
  fold_right insert_sorted [] l.

End Str.

(** A dict whose values are meaningless, "only a dict for uniquing and
    deterministic ordering": its keys in insertion order. *)
Definition dict_set (k : string) (d : list string) : list string :=
  if Str.mem k d then d else d ++ [k].

(** ** Glob engine *)

(** Modelled from the spec: the compilation of glob patterns lives in
    [glob_group], which is not part of the sources at hand.  Section
    4.1: a pattern is split at the dots, [*] stands for exactly one
    segment, [**] for any number of segments, any other segment for
    itself, and the whole name must be consumed. *)
Module Glob.

Inductive component := Star | StarStar | Literal (s : string).

Definition parse_component (s : string) : component :=
  if String.eqb s "**" then StarStar
  else if String.eqb s "*" then Star
  else Literal s.

Definition compile (pattern : string) : list component :=
  map parse_component (Str.split "." pattern).

Fixpoint fullmatch (ps : list component) : list string -> bool :=
  match ps with
  | [] => fun cs => match cs with [] => true | _ :: _ => false end
  | Literal l :: ps' =>
      fun cs => match cs with
                | c :: cs' => String.eqb l c && fullmatch ps' cs'
                | [] => false
                end
  | Star :: ps' =>
      fun cs => match cs with
                | _ :: cs' => fullmatch ps' cs'
                | [] => false
                end
  | StarStar :: ps' =>
      fix skip (cs : list string) : bool :=
        fullmatch ps' cs
        || match cs with _ :: cs' => skip cs' | [] => false end
  end.

Definition glob_matches (pattern candidate : string) : bool :=
  fullmatch (compile pattern) (Str.split "." candidate).

End Glob.

(** Modelled from the spec: [glob_group.GlobGroup] is not part of the
    sources at hand.  Section 4.1: include and exclude globs over dotted
    names, [*] matches exactly one dot-free segment, [**] zero or more
    segments, literal segments match byte for byte, the whole name must
    be consumed; equality of matchers is by the include/exclude pair. *)
Record GlobGroup := mkGlobGroup {
  include : list string;
  exclude : list string
}.

Definition matches (g : GlobGroup) (candidate : string) : bool :=
  existsb (fun p => Glob.glob_matches p candidate) (include g)
  && forallb (fun p => negb (Glob.glob_matches p candidate)) (exclude g).

Definition GlobGroup_eqb (a b : GlobGroup) : bool :=
  (if list_eq_dec string_dec (include a) (include b) then true else false)
  && (if list_eq_dec string_dec (exclude a) (exclude b) then true else false).

(** ** Dependency graph *)

(** Keyword attributes of a node; [None] is an absent key. *)
Record node_attrs := mkAttrs {
  src : option string;
  is_package : option bool;
  is_pickle : option bool
}.

Definition no_attrs : node_attrs := mkAttrs None None None.

Definition or_else {A} (new old : option A) : option A :=
  match new with Some _ => new | None => old end.

Definition update_attrs (old new : node_attrs) : node_attrs :=
  mkAttrs (or_else (src new) (src old))
          (or_else (is_package new) (is_package old))
          (or_else (is_pickle new) (is_pickle old)).

(** Modelled from the spec: [_digraph.DiGraph] is not part of the sources
    at hand.  Section 4.2: [add_node] creates or updates (last writer
    wins), [add_edge] creates its endpoints, traversal is in insertion
    order, nothing is ever removed. *)
Record DiGraph := mkDiGraph {
  nodes : list (string * node_attrs);
  edges : list (string * string)
}.

Definition node_names (g : DiGraph) : list string := map fst (nodes g).

Definition contains (g : DiGraph) (n : string) : bool :=
  Str.mem n (node_names g).

Fixpoint update_node (n : string) (kw : node_attrs)
         (l : list (string * node_attrs)) : list (string * node_attrs) :=
  match l with
  | [] => [(n, kw)]
  | (m, a) :: r =>
      if String.eqb n m then (m, update_attrs a kw) :: r
      else (m, a) :: update_node n kw r
  end.

Definition add_node (n : string) (kw : node_attrs) (g : DiGraph) : DiGraph :=
  mkDiGraph (update_node n kw (nodes g)) (edges g).

Definition edge_eqb (e f : string * string) : bool :=
  String.eqb (fst e) (fst f) && String.eqb (snd e) (snd f).

Definition add_edge (u v : string) (g : DiGraph) : DiGraph :=
  let g1 := add_node v no_attrs (add_node u no_attrs g) in
  mkDiGraph (nodes g1)
            (if existsb (edge_eqb (u, v)) (edges g1) then edges g1
             else edges g1 ++ [(u, v)]).

Fixpoint node_lookup (n : string) (l : list (string * node_attrs))
  : option node_attrs :=
  match l with
  | [] => None
  | (m, a) :: r => if String.eqb n m then Some a else node_lookup n r
  end.

(** ** Collaborators *)

(** What the exporter reads of a module object. *)
Record ModuleType := mkModule {
  __name__ : string;
  __file__ : option string;
  has_path : bool;            (* hasattr(module, "__path__") *)
  getlines : list string      (* linecache.getlines(filename, module.__dict__) *)
}.

(** What the exporter reads of a storage object, apart from [_cdata]. *)
Record Storage := mkStorage {
  storage_type : string;      (* normalize_storage_type(type(obj)) *)
  location_tag : string;
  size : nat;
  element_size : nat;
  device_type : string;
  data_ptr : string           (* the bytes readable once on the cpu *)
}.

Definition cpu (s : Storage) : Storage :=
  mkStorage (storage_type s) (location_tag s) (size s) (element_size s)
            "cpu" (data_ptr s).

(** The tuple [("storage", storage_type, obj_key, location, obj.size())]. *)
Definition PersistentId : Type := string * string * string * string * nat.

(** One item of [pickletools.genops]: opcode name, argument, position. *)
Definition opcode : Type := string * option string * nat.

(** The environment of an exporter: everything the class gets from
    other modules.  [PyObject] is the type of the objects handed to
    [save_pickle]; the pickler shows the exporter the storages it meets
    (through the persistent-id hook) and turns the object and the hook's
    answers into bytes.  [_cdata] is the address of a storage's C
    object in the running process.  Objects with [__reduce_package__]
    are opaque: their payload is part of [pickle_dump].
    [set_iteration_order l] is the order in which the running process
    iterates over, and prints, a [set] to which the strings of [l] were
    added one after the other: it follows the hashes of the strings,
    which change from one process to the next. *)
Record Env (PyObject : Type) := mkEnv {
  is_stdlib_module : string -> bool;
  is_mangled : string -> bool;
  import_module : string -> option ModuleType;   (* None: ModuleNotFoundError *)
  find_files_source_depends_on : string -> string -> list (string * option string);
  _normalize_path : string -> option string;     (* None: ValueError *)
  pickled_storages : PyObject -> list Storage;
  pickle_dump : PyObject -> list PersistentId -> string;
  genops : string -> list opcode;
  _cdata : Storage -> Z;
  mock_file : string;                            (* _read_file(mock_file) *)
  set_iteration_order : list string -> list string
}.

Arguments is_stdlib_module {PyObject}.
Arguments is_mangled {PyObject}.
Arguments import_module {PyObject}.
Arguments find_files_source_depends_on {PyObject}.
Arguments _normalize_path {PyObject}.
Arguments pickled_storages {PyObject}.
Arguments pickle_dump {PyObject}.
Arguments genops {PyObject}.
Arguments _cdata {PyObject}.
Arguments mock_file {PyObject}.
Arguments set_iteration_order {PyObject}.

(** ** The exporter object *)

(** The action of a pattern rule: one of the exporter's four methods. *)
Inductive action :=
| act_save_intern_module
| act_save_mock_module
| act_save_extern_module
| act_reject_denied_module.

Definition rule : Type := GlobGroup * action * bool.

(** A record of the archive: name, bytes, length. *)
Definition zip_record : Type := string * string * nat.

(** [zip_file] tells whether the attribute [self.zip_file] still exists
    ([del self.zip_file] clears it); [archive] holds the records written
    through it, in order.  [visited] is a ghost field: the names
    [_save_module] was entered with.  The importer is a field of the
    environment; [verbose] and [buffer] only concern printing and
    flushing and are left out. *)
Record PackageExporter := mkExporter {
  zip_file : bool;
  archive : list zip_record;
  serialized_storages : list (string * Storage);
  intern_modules : list string;
  extern_modules : list string;
  mock_modules : list string;
  dependency_graph : DiGraph;
  patterns : list rule;
  matched_patterns : list GlobGroup;
  _unique_id : nat;
  visited : list string
}.

Definition __init__ : PackageExporter :=
  mkExporter true [] [] [] [] [] (mkDiGraph [] []) [] [] 0 [].

Definition set_zip_file (x : bool) (e : PackageExporter) : PackageExporter :=
  mkExporter x (archive e) (serialized_storages e) (intern_modules e)
    (extern_modules e) (mock_modules e) (dependency_graph e) (patterns e)
    (matched_patterns e) (_unique_id e) (visited e).
Definition set_archive (x : list zip_record) (e : PackageExporter) : PackageExporter :=
  mkExporter (zip_file e) x (serialized_storages e) (intern_modules e)
    (extern_modules e) (mock_modules e) (dependency_graph e) (patterns e)
    (matched_patterns e) (_unique_id e) (visited e).
Definition set_serialized_storages (x : list (string * Storage)) (e : PackageExporter) : PackageExporter :=
  mkExporter (zip_file e) (archive e) x (intern_modules e)
    (extern_modules e) (mock_modules e) (dependency_graph e) (patterns e)
    (matched_patterns e) (_unique_id e) (visited e).
Definition set_intern_modules (x : list string) (e : PackageExporter) : PackageExporter :=
  mkExporter (zip_file e) (archive e) (serialized_storages e) x
    (extern_modules e) (mock_modules e) (dependency_graph e) (patterns e)
    (matched_patterns e) (_unique_id e) (visited e).
Definition set_extern_modules (x : list string) (e : PackageExporter) : PackageExporter :=
  mkExporter (zip_file e) (archive e) (serialized_storages e)
    (intern_modules e) x (mock_modules e) (dependency_graph e) (patterns e)
    (matched_patterns e) (_unique_id e) (visited e).
Definition set_mock_modules (x : list string) (e : PackageExporter) : PackageExporter :=
  mkExporter (zip_file e) (archive e) (serialized_storages e)
    (intern_modules e) (extern_modules e) x (dependency_graph e)
    (patterns e) (matched_patterns e) (_unique_id e) (visited e).
Definition set_dependency_graph (x : DiGraph) (e : PackageExporter) : PackageExporter :=
  mkExporter (zip_file e) (archive e) (serialized_storages e)
    (intern_modules e) (extern_modules e) (mock_modules e) x (patterns e)
    (matched_patterns e) (_unique_id e) (visited e).
Definition set_patterns (x : list rule) (e : PackageExporter) : PackageExporter :=
  mkExporter (zip_file e) (archive e) (serialized_storages e)
    (intern_modules e) (extern_modules e) (mock_modules e)
    (dependency_graph e) x (matched_patterns e) (_unique_id e) (visited e).
Definition set_matched_patterns (x : list GlobGroup) (e : PackageExporter) : PackageExporter :=
  mkExporter (zip_file e) (archive e) (serialized_storages e)
    (intern_modules e) (extern_modules e) (mock_modules e)
    (dependency_graph e) (patterns e) x (_unique_id e) (visited e).
Definition set_unique_id (x : nat) (e : PackageExporter) : PackageExporter :=
  mkExporter (zip_file e) (archive e) (serialized_storages e)
    (intern_modules e) (extern_modules e) (mock_modules e)
    (dependency_graph e) (patterns e) (matched_patterns e) x (visited e).
Definition set_visited (x : list string) (e : PackageExporter) : PackageExporter :=
  mkExporter (zip_file e) (archive e) (serialized_storages e)
    (intern_modules e) (extern_modules e) (mock_modules e)
    (dependency_graph e) (patterns e) (matched_patterns e) (_unique_id e) x.

(** ** Exceptions and the exporter monad *)

Inductive exn :=
| EmptyMatchError (pattern : GlobGroup)
| DeniedModuleError (module_name : string)
| ModuleNotFoundError (module_name : string)
| ValueError_no_source (module_name : string)   (* _get_source_of_module *)
| ValueError_unpack (arg : string)              (* module, field = arg.split(" ") *)
| ValueError_path (resource : string)           (* _normalize_path *)
| RuntimeError_unmatched (unmatched : list string) (* the set, as printed *)
| RuntimeError_mangled (filename : string)
| AssertionError
| KeyError (key : string)
| AttributeError (attribute : string).

(** A call returns, raises, or (for the recursive closure, when the
    recursion depth allowed to the model is used up) does neither. *)
Inductive outcome (A : Type) :=
| Return (a : A) (st : PackageExporter)
| Raise (e : exn) (st : PackageExporter)
| Diverge.

Arguments Return {A}.
Arguments Raise {A}.
Arguments Diverge {A}.

Definition M (A : Type) : Type := PackageExporter -> outcome A.

Definition ret {A} (a : A) : M A := fun st => Return a st.

Definition bind {A B} (c : M A) (k : A -> M B) : M B :=
  fun st => match c st with
            | Return a st' => k a st'
            | Raise e st' => Raise e st'
            | Diverge => Diverge
            end.

Definition raise {A} (e : exn) : M A := fun st => Raise e st.
Definition get : M PackageExporter := fun st => Return st st.
Definition modify (f : PackageExporter -> PackageExporter) : M unit :=
  fun st => Return tt (f st).
Definition diverge {A} : M A := fun _ => Diverge.

Declare Scope exporter_scope.
Delimit Scope exporter_scope with exporter.
Notation "x <- c ;; k" := (bind c (fun x => k))
  (at level 61, c at next level, right associativity) : exporter_scope.
Notation "c ;; k" := (bind c (fun _ => k))
  (at level 61, right associativity) : exporter_scope.
Open Scope exporter_scope.

(** [for x in l: body x]. *)
Fixpoint for_each {A} (l : list A) (body : A -> M unit) : M unit :=
  match l with
  | [] => ret tt
  | x :: r => body x ;; for_each r body
  end.

(** [[f x for x in l]] when [f] has effects. *)
Fixpoint map_M {A B} (f : A -> M B) (l : list A) : M (list B) :=
  match l with
  | [] => ret []
  | x :: r => y <- f x ;; ys <- map_M f r ;; ret (y :: ys)
  end.

(** ** Module-level constants *)

(** "even though these are in the standard library, we do not allow them
    to be automatically externed since they offer a lot of system level
    access" *)
Definition _DISALLOWED_MODULES : list string := ["sys"; "io"].

Definition _MOCK_IMPL : string :=
"from _mock import MockedObject
def __getattr__(attr: str):
    return MockedObject(__name__ + '.' + attr, _suppress_err=True)
".

(** The loop of [save_pickle] over [pickletools.genops(data_value)]. *)
Fixpoint global_modules (ops : list opcode) (all_dependencies : list string)
  : exn + list string :=
  match ops with
  | [] => inr all_dependencies
  | (name, arg, _) :: rest =>
      if String.eqb name "GLOBAL" then
        match arg with
        | None => inl AssertionError
        | Some arg =>
            match Str.split " " arg with
            | [module; _] =>
                global_modules rest
                  (if Str.mem module all_dependencies then all_dependencies
                   else all_dependencies ++ [module])
            | _ => inl (ValueError_unpack arg)
            end
        end
      else global_modules rest all_dependencies
  end.

Definition set_add (g : GlobGroup) (s : list GlobGroup) : list GlobGroup :=
  if existsb (GlobGroup_eqb g) s then s else s ++ [g].

Fixpoint storages_set (k : string) (v : Storage) (d : list (string * Storage))
  : list (string * Storage) :=
  match d with
  | [] => [(k, v)]
  | (k', v') :: r =>
      if String.eqb k k' then (k', v) :: r else (k', v') :: storages_set k v r
  end.

Fixpoint storages_get (k : string) (d : list (string * Storage))
  : option Storage :=
  match d with
  | [] => None
  | (k', v) :: r => if String.eqb k k' then Some v else storages_get k r
  end.

Section Exporter.

Context {PyObject : Type} (E : Env PyObject).

Definition get_unique_id : M string :=
  st <- get ;;
  modify (set_unique_id (S (_unique_id st))) ;;
  ret (Str.of_int (Z.of_nat (_unique_id st))).

Definition _import_module (module_name : string) : M ModuleType :=
  match import_module E module_name with
  | Some m => ret m
  | None => raise (ModuleNotFoundError module_name)
  end.

Definition _module_exists (module_name : string) : bool :=
  match import_module E module_name with
  | Some _ => true
  | None => false
  end.

Definition _get_dependencies (src : string) (module_name : string)
           (is_package : bool) : list string :=
  let package_name :=
    if is_package then module_name else Str.rsplit1_head "." module_name in
  let dep_pairs := find_files_source_depends_on E src package_name in
  fold_left
    (fun dependencies (pair : string * option string) =>
       let (dep_module_name, dep_module_obj) := pair in
       let parent :=
         if _module_exists dep_module_name
         then dict_set dep_module_name dependencies
         else dependencies in
       match dep_module_obj with
       | Some obj =>
           let possible_submodule := (dep_module_name ++ "." ++ obj)%string in
           if _module_exists possible_submodule
           then dict_set possible_submodule dependencies
           else parent
       | None => parent
       end)
    dep_pairs [].

Definition _get_source_of_module (module : ModuleType) : M string :=
  let filename := __file__ module in
  let result :=
    match filename with
    | None => None
    | Some f => if negb (Str.endswith f ".py") then None
                else Some (getlines module)
    end in
  match result with
  | None => raise (ValueError_no_source (__name__ module))
  | Some result => ret (String.concat "" result)
  end.

Definition _can_implicitly_extern (module_name : string) : bool :=
  let top_level_package_name := Str.partition_head "." module_name in
  String.eqb top_level_package_name "torch"
  || (negb (Str.mem top_level_package_name _DISALLOWED_MODULES)
      && is_stdlib_module E top_level_package_name).

Definition _write (filename : string) (str_or_bytes : string) : M unit :=
  if is_mangled E filename then raise (RuntimeError_mangled filename)
  else
    st <- get ;;
    if negb (zip_file st) then raise (AttributeError "zip_file")
    else modify (set_archive
                   (archive st ++ [(filename, str_or_bytes,
                                    String.length str_or_bytes)])).

Definition _write_source_string (module_name : string) (src : string)
           (is_package : bool) : M unit :=
  let extension := if is_package then "/__init__.py" else ".py" in
  let filename := (Str.replace "." "/" module_name ++ extension)%string in
  _write filename src.

Definition _filename (package resource : string) : M string :=
  let package_path := Str.replace "." "/" package in
  match _normalize_path E resource with
  | None => raise (ValueError_path resource)
  | Some resource => ret (package_path ++ "/" ++ resource)%string
  end.

(** *** Pattern rules *)

Definition _implicit_intern (module_name : string) : M unit :=
  modify (fun st =>
    set_patterns ((mkGlobGroup [module_name] [], act_save_intern_module, false)
                    :: patterns st) st).

Definition append_rule (r : rule) : M unit :=
  modify (fun st => set_patterns (patterns st ++ [r]) st).

Definition intern (include exclude : list string) (allow_empty : bool) : M unit :=
  append_rule (mkGlobGroup include exclude, act_save_intern_module, allow_empty).

Definition mock (include exclude : list string) (allow_empty : bool) : M unit :=
  append_rule (mkGlobGroup include exclude, act_save_mock_module, allow_empty).

Definition extern (include exclude : list string) (allow_empty : bool) : M unit :=
  append_rule (mkGlobGroup include exclude, act_save_extern_module, allow_empty).

Definition deny (include exclude : list string) : M unit :=
  append_rule (mkGlobGroup include exclude, act_reject_denied_module, true).

Definition save_intern_module (module_name : string) : M unit :=
  modify (fun st => set_intern_modules (dict_set module_name (intern_modules st)) st).

Definition save_extern_module (module_name : string) : M unit :=
  modify (fun st => set_extern_modules (dict_set module_name (extern_modules st)) st).

Definition save_mock_module (module_name : string) : M unit :=
  modify (fun st => set_mock_modules (dict_set module_name (mock_modules st)) st).

Definition _reject_denied_module (module_name : string) : M unit :=
  raise (DeniedModuleError module_name).

Definition call_action (a : action) : string -> M unit :=
  match a with
  | act_save_intern_module => save_intern_module
  | act_save_mock_module => save_mock_module
  | act_save_extern_module => save_extern_module
  | act_reject_denied_module => _reject_denied_module
  end.

(** The [for pattern, action, _ in self.patterns] loop of [do_match],
    left by [return] at the first match. *)
Fixpoint match_first (rules : list rule) (module_name : string) : M unit :=
  match rules with
  | [] => ret tt
  | (pattern, action, _) :: rest =>
      if matches pattern module_name then
        call_action action module_name ;;
        modify (fun st => set_matched_patterns
                            (set_add pattern (matched_patterns st)) st)
      else match_first rest module_name
  end.

Definition do_match (module_name : string) : M unit :=
  let base_name := Str.partition_head "." module_name in
  if _can_implicitly_extern base_name then
    save_extern_module module_name
  else
    st <- get ;;
    match_first (patterns st) module_name.

Definition _match_patterns : M unit :=
  st <- get ;;
  for_each (node_names (dependency_graph st)) do_match.

(** *** Sealing *)

Definition classified (st : PackageExporter) (module_name : string) : bool :=
  Str.mem module_name (intern_modules st)
  || Str.mem module_name (extern_modules st)
  || Str.mem module_name (mock_modules st).

(** [for pattern, _, allow_empty in self.patterns: ...] *)
Fixpoint check_unmatched_patterns (rules : list rule) : M unit :=
  match rules with
  | [] => ret tt
  | (pattern, _, allow_empty) :: rest =>
      st <- get ;;
      if negb allow_empty
         && negb (existsb (GlobGroup_eqb pattern) (matched_patterns st))
      then raise (EmptyMatchError pattern)
      else check_unmatched_patterns rest
  end.

Definition write_mock (module_name : string) : M unit :=
  module_obj <- _import_module module_name ;;
  let is_package := has_path module_obj in
  _write_source_string module_name _MOCK_IMPL is_package.

Definition write_intern (module_name : string) : M unit :=
  st <- get ;;
  match node_lookup module_name (nodes (dependency_graph st)) with
  | None => raise (KeyError module_name)
  | Some node_attrs =>
      match is_pickle node_attrs with
      | Some true => ret tt
      | _ =>
          match src node_attrs with
          | Some source =>
              match is_package node_attrs with
              | Some is_package =>
                  _write_source_string module_name source is_package
              | None => raise (KeyError "is_package")
              end
          | None =>
              module_obj <- _import_module module_name ;;
              let is_package := has_path module_obj in
              source <- _get_source_of_module module_obj ;;
              _write_source_string module_name source is_package
          end
      end
  end.

(** [unmatched] is a [set]: the names are added to it in graph order,
    only its length is looked at, and the error prints it, in the order
    in which the running process iterates over it. *)
Definition _compute_patterns : M unit :=
  _match_patterns ;;
  st <- get ;;
  let unmatched :=
    filter (fun module_name => negb (classified st module_name))
           (node_names (dependency_graph st)) in
  if negb (Nat.eqb (length unmatched) 0) then
    raise (RuntimeError_unmatched (set_iteration_order E unmatched))
  else
    check_unmatched_patterns (patterns st) ;;
    (if negb (Nat.eqb (length (mock_modules st)) 0)
     then _write_source_string "_mock" (mock_file E) false
     else ret tt) ;;
    for_each (mock_modules st) write_mock ;;
    for_each (intern_modules st) write_intern ;;
    let extern_file_contents :=
      (String.concat Str.nl (extern_modules st) ++ Str.nl)%string in
    _write ".data/extern_modules" extern_file_contents.

Definition _finalize_zip : M unit :=
  st <- get ;;
  if negb (zip_file st) then raise (AttributeError "zip_file")
  else modify (set_zip_file false).

Definition write_storage (key : string) : M unit :=
  let name := (".data/" ++ key ++ ".storage")%string in
  st <- get ;;
  match storages_get key (serialized_storages st) with
  | None => raise (KeyError key)
  | Some storage =>
      let storage :=
        if negb (String.eqb (device_type storage) "cpu")
        then cpu storage else storage in
      let num_bytes := size storage * element_size storage in
      if negb (zip_file st) then raise (AttributeError "zip_file")
      else modify (set_archive
                     (archive st ++ [(name, data_ptr storage, num_bytes)]))
  end.

Definition close : M unit :=
  _compute_patterns ;;
  st <- get ;;
  for_each (Str.sorted (map fst (serialized_storages st))) write_storage ;;
  _finalize_zip.

(** *** Dependency closure *)

Definition graph_add_node (n : string) (kw : node_attrs) : M unit :=
  modify (fun st => set_dependency_graph (add_node n kw (dependency_graph st)) st).

Definition graph_add_edge (u v : string) : M unit :=
  modify (fun st => set_dependency_graph (add_edge u v (dependency_graph st)) st).

(** [require_module] and [require_module_if_not_provided], over the
    [_save_module] they reach ([require_module] may be overridden). *)
Definition require_module_with (_save_module : string -> bool -> M unit)
           (module_name : string) (dependencies : bool) : M unit :=
  _save_module module_name dependencies.

Definition require_module_if_not_provided_with
           (_save_module : string -> bool -> M unit)
           (module_name : string) (dependencies : bool) : M unit :=
  st <- get ;;
  if contains (dependency_graph st) module_name
     || _can_implicitly_extern module_name
  then ret tt
  else require_module_with _save_module module_name dependencies.

(** The recursion of the source is bounded by [depth], the number of
    nested [_save_module] calls the model follows. *)
Fixpoint _save_module (depth : nat) (module_name : string)
         (dependencies : bool) {struct depth} : M unit :=
  match depth with
  | O => diverge
  | S depth =>
      modify (fun st => set_visited (visited st ++ [module_name]) st) ;;
      module_obj <- _import_module module_name ;;
      source <- _get_source_of_module module_obj ;;
      graph_add_node module_name no_attrs ;;
      if dependencies then
        let is_package := has_path module_obj in
        let deps := _get_dependencies source module_name is_package in
        for_each deps (fun dep =>
          require_module_if_not_provided_with (_save_module depth) dep true ;;
          graph_add_edge module_name dep)
      else ret tt
  end.

Definition require_module (depth : nat) :=
  require_module_with (_save_module depth).

Definition require_module_if_not_provided (depth : nat) :=
  require_module_if_not_provided_with (_save_module depth).

(** *** Saving *)

Definition save_source_string (depth : nat) (module_name src : string)
           (is_package dependencies : bool) : M unit :=
  _implicit_intern module_name ;;
  graph_add_node module_name (mkAttrs (Some src) (Some is_package) None) ;;
  if dependencies then
    let deps := _get_dependencies src module_name is_package in
    for_each deps (fun dep =>
      require_module_if_not_provided depth dep true ;;
      graph_add_edge module_name dep)
  else ret tt.

Definition save_module (depth : nat) (module_name : string)
           (dependencies : bool) : M unit :=
  _implicit_intern module_name ;;
  _save_module depth module_name dependencies.

Definition _persistent_id (obj : Storage) : M PersistentId :=
  let storage_type := storage_type obj in
  let obj_key := Str.of_int (_cdata E obj) in
  let location := location_tag obj in
  modify (fun st => set_serialized_storages
                      (storages_set obj_key obj (serialized_storages st)) st) ;;
  ret ("storage", storage_type, obj_key, location, size obj).

Definition save_pickle (depth : nat) (package resource : string)
           (obj : PyObject) (dependencies : bool) : M unit :=
  filename <- _filename package resource ;;
  pids <- map_M _persistent_id (pickled_storages E obj) ;;
  let data_value := pickle_dump E obj pids in
  let name_in_dependency_graph := ("<" ++ package ++ "." ++ resource ++ ">")%string in
  intern [name_in_dependency_graph] [] true ;;
  graph_add_node name_in_dependency_graph (mkAttrs None None (Some true)) ;;
  (if dependencies then
     match global_modules (genops E data_value) [] with
     | inl e => raise e
     | inr all_dependencies =>
         for_each all_dependencies (fun module_name =>
           require_module_if_not_provided depth module_name true ;;
           graph_add_edge name_in_dependency_graph module_name)
     end
   else ret tt) ;;
  _write filename data_value.

Definition save_binary (package resource : string) (binary : string) : M unit :=
  filename <- _filename package resource ;;
  _write filename binary.

Definition save_text (package resource : string) (text : string) : M unit :=
  save_binary package resource text.

(** [__exit__]: close, or after an exception only finalize the zip
    and let the exception go on. *)
Definition with_exporter (body : M unit) : M unit :=
  fun st =>
    match body st with
    | Return _ st' => close st'
    | Raise e st' =>
        match _finalize_zip st' with
        | Return _ st'' => Raise e st''
        | other => other
        end
    | Diverge => Diverge
    end.

End Exporter.

(** ** Scripts: sequences of calls on one exporter *)

Inductive call (PyObject : Type) :=
| call_save_source_string (module_name src : string) (is_package dependencies : bool)
| call_save_module (module_name : string) (dependencies : bool)
| call_save_pickle (package resource : string) (obj : PyObject) (dependencies : bool)
| call_save_text (package resource text : string)
| call_save_binary (package resource binary : string)
| call_intern (include exclude : list string) (allow_empty : bool)
| call_mock (include exclude : list string) (allow_empty : bool)
| call_extern (include exclude : list string) (allow_empty : bool)
| call_deny (include exclude : list string)
| call_save_intern_module (module_name : string)
| call_save_extern_module (module_name : string)
| call_save_mock_module (module_name : string).

Arguments call_save_source_string {PyObject}.
Arguments call_save_module {PyObject}.
Arguments call_save_pickle {PyObject}.
Arguments call_save_text {PyObject}.
Arguments call_save_binary {PyObject}.
Arguments call_intern {PyObject}.
Arguments call_mock {PyObject}.
Arguments call_extern {PyObject}.
Arguments call_deny {PyObject}.
Arguments call_save_intern_module {PyObject}.
Arguments call_save_extern_module {PyObject}.
Arguments call_save_mock_module {PyObject}.

Definition perform {PyObject} (E : Env PyObject) (depth : nat)
           (c : call PyObject) : M unit :=
  match c with
  | call_save_source_string n s p d => save_source_string E depth n s p d
  | call_save_module n d => save_module E depth n d
  | call_save_pickle p r o d => save_pickle E depth p r o d
  | call_save_text p r t => save_text E p r t
  | call_save_binary p r b => save_binary E p r b
  | call_intern i x a => intern i x a
  | call_mock i x a => mock i x a
  | call_extern i x a => extern i x a
  | call_deny i x => deny i x
  | call_save_intern_module n => save_intern_module n
  | call_save_extern_module n => save_extern_module n
  | call_save_mock_module n => save_mock_module n
  end.

(** [with PackageExporter(f) as e: <calls>] *)
Definition export {PyObject} (E : Env PyObject) (depth : nat)
           (calls : list (call PyObject)) : outcome unit :=
  with_exporter E (for_each calls (perform E depth)) __init__.

(** ** Notions used to state the properties *)

(** The disposition a name gets from [do_match] under a rule table:
    the action that fires, if any. *)
Fixpoint first_match (rules : list rule) (module_name : string) : option rule :=
  match rules with
  | [] => None
  | r :: rest =>
      if matches (fst (fst r)) module_name then Some r
      else first_match rest module_name
  end.

Definition decided_action {PyObject} (E : Env PyObject) (rules : list rule)
           (module_name : string) : option action :=
  if _can_implicitly_extern E (Str.partition_head "." module_name)
  then Some act_save_extern_module
  else option_map (fun r : rule => snd (fst r)) (first_match rules module_name).

(** A list without its repetitions, every element at the place of its
    first occurrence. *)
Fixpoint first_occurrences (l : list string) : list string :=
  match l with
  | [] => []
  | x :: r => x :: filter (fun y => negb (String.eqb x y)) (first_occurrences r)
  end.

(** The arguments of the GLOBAL opcodes of a stream, in order. *)
Fixpoint global_args (ops : list opcode) : list (option string) :=
  match ops with
  | [] => []
  | (name, arg, _) :: rest =>
      if String.eqb name "GLOBAL" then arg :: global_args rest
      else global_args rest
  end.

Definition no_space (s : string) : Prop :=
  Str.partition_head " " s = s.

(** What one scanned pair contributes to [_get_dependencies]. *)
Definition pair_dependency {PyObject} (E : Env PyObject)
           (pair : string * option string) : option string :=
  let (pkg, trailing) := pair in
  match trailing with
  | Some sub =>
      if _module_exists E (pkg ++ "." ++ sub)%string
      then Some (pkg ++ "." ++ sub)%string
      else if _module_exists E pkg then Some pkg else None
  | None => if _module_exists E pkg then Some pkg else None
  end.

(** Names of a finite universe that are not yet nodes of the graph. *)
Definition missing (universe : list string) (st : PackageExporter) : nat :=
  length (filter (fun n => negb (contains (dependency_graph st) n))
                 (nodup string_dec universe)).

(** Two environments whose collaborators answer alike.  Where the
    storages live and the order of the sets are left open. *)
Record same_answers {PyObject} (E1 E2 : Env PyObject) : Prop := {
  same_stdlib : forall n, is_stdlib_module E1 n = is_stdlib_module E2 n;
  same_mangled : forall n, is_mangled E1 n = is_mangled E2 n;
  same_import : forall n, import_module E1 n = import_module E2 n;
  same_scan : forall s p,
      find_files_source_depends_on E1 s p = find_files_source_depends_on E2 s p;
  same_normalize : forall r, _normalize_path E1 r = _normalize_path E2 r;
  same_storages : forall o, pickled_storages E1 o = pickled_storages E2 o;
  same_dump : forall o p, pickle_dump E1 o p = pickle_dump E2 o p;
  same_genops : forall d, genops E1 d = genops E2 d;
  same_mock_file : mock_file E1 = mock_file E2
}.

(** The storages a call pickles have the same key in both
    environments. *)
Definition same_keys {PyObject} (E1 E2 : Env PyObject) (c : call PyObject)
  : Prop :=
  match c with
  | call_save_pickle _ _ obj _ =>
      forall storage, In storage (pickled_storages E1 obj) ->
                      _cdata E1 storage = _cdata E2 storage
  | _ => True
  end.

(** Two outcomes that are the same, but for the order in which the
    unclassified-module error prints its set. *)
Definition alike {PyObject} (E1 E2 : Env PyObject) (o1 o2 : outcome unit)
  : Prop :=
  match o1, o2 with
  | Return _ s1, Return _ s2 => s1 = s2
  | Raise e1 s1, Raise e2 s2 =>
      s1 = s2
      /\ (e1 = e2
          \/ exists unmatched,
               e1 = RuntimeError_unmatched (set_iteration_order E1 unmatched)
               /\ e2 = RuntimeError_unmatched (set_iteration_order E2 unmatched))
  | Diverge, Diverge => True
  | _, _ => False
  end.

(** What a run leaves in the archive. *)
Definition archive_of {A} (o : outcome A) : option (list zip_record) :=
  match o with
  | Return _ st => Some (archive st)
  | Raise _ st => Some (archive st)
  | Diverge => None
  end.

(** ** A small concrete world *)

Module Demo.

(** A toy object: the storages the pickler meets and the arguments of
    the GLOBAL opcodes its pickle holds. *)
Definition toy_object : Type := list Storage * list string.

Fixpoint assoc {A} (k : string) (l : list (string * A)) : option A :=
  match l with
  | [] => None
  | (k', v) :: r => if String.eqb k k' then Some v else assoc k r
  end.

Definition py (name : string) (pkg : bool) (source : string)
  : string * ModuleType :=
  (name, mkModule name (Some (name ++ ".py")%string) pkg [source]).

Definition has_space (s : string) : bool :=
  negb (Nat.eqb (length (Str.split " " s)) 1).

Definition toy_env (modules : list (string * ModuleType))
           (scans : list (string * list (string * option string)))
           (address : Storage -> Z)
           (order : list string -> list string) : Env toy_object :=
  mkEnv toy_object
    (fun n => Str.mem n ["sys"; "io"; "os"; "math"])
    (fun n => false)
    (fun n => assoc n modules)
    (fun src _ => match assoc src scans with Some l => l | None => [] end)
    (fun r => Some r)
    fst
    (fun obj pids =>
       String.concat Str.nl
         (map (fun p : PersistentId => snd (fst (fst p))) pids ++ snd obj))
    (fun data =>
       map (fun l => if has_space l then ("GLOBAL", Some l, 0)
                     else ("BINPERSID", None, 0))
           (Str.split "010" data))
    address
    "class MockedObject: pass"
    order.

(** Two modules that import each other, and the stdlib module [os]. *)
Definition modules : list (string * ModuleType) :=
  [py "a" false "import b"; py "b" false "import a";
   py "os" false "import sys"].

Definition scans : list (string * list (string * option string)) :=
  [("import b", [("b", None)]); ("import a", [("a", None)]);
   ("from pkg import sub", [("pkg", Some "sub")])].

Definition world : Env toy_object :=
  toy_env modules scans (fun _ => 4096%Z) (fun l => l).

(** The same world in another process: storages live elsewhere. *)
Definition world_again : Env toy_object :=
  toy_env modules scans (fun _ => 8192%Z) (fun l => l).

Definition tensor : Storage := mkStorage "FloatStorage" "cpu" 2 4 "cpu" "abcdefgh".

(** The first world in a process with another hash seed, where sets
    come in another order, and where the storages other than [tensor]
    live elsewhere. *)
Definition world_reseeded : Env toy_object :=
  toy_env modules scans
    (fun s => if String.eqb (data_ptr s) (data_ptr tensor) then 4096%Z
              else 12288%Z)
    (fun l => rev l).

Definition model : toy_object := ([tensor], ["a Net"]).

(** The exporter after a script, before it is closed. *)
Definition state_of (o : outcome unit) : PackageExporter :=
  match o with
  | Return _ st | Raise _ st => st
  | Diverge => __init__
  end.

Definition script (E : Env toy_object) (depth : nat)
           (calls : list (call toy_object)) : PackageExporter :=
  state_of (for_each calls (perform E depth) __init__).

End Demo.

(** A computation keeps a relation between the state it starts in and
    the state it returns or raises in. *)
Definition preserves {A} (R : PackageExporter -> PackageExporter -> Prop)
           (c : M A) : Prop :=
  forall st, match c st with
             | Return _ st' => R st st'
             | Raise _ st' => R st st'
             | Diverge => True
             end.

(** A field of the exporter that stays as it is. *)
Definition keeps {B} (field : PackageExporter -> B)
           (st st' : PackageExporter) : Prop :=
  field st' = field st.

(** What classification leaves alone. *)
Definition unclassified_part (st : PackageExporter) :=
  (zip_file st, archive st, serialized_storages st, dependency_graph st,
   patterns st).

(** What emission leaves alone. *)
Definition policy_part (st : PackageExporter) :=
  (intern_modules st, extern_modules st, mock_modules st,
   dependency_graph st, patterns st, matched_patterns st).

(** The graph only grows. *)
Definition graph_grows (st st' : PackageExporter) : Prop :=
  forall n, In n (node_names (dependency_graph st)) ->
            In n (node_names (dependency_graph st')).

(** The table an action writes to; a deny has none. *)
Definition table (a : action) (st : PackageExporter) : list string :=
  match a with
  | act_save_intern_module => intern_modules st
  | act_save_mock_module => mock_modules st
  | act_save_extern_module => extern_modules st
  | act_reject_denied_module => []
  end.

(** Every deny rule of the table allows an empty match. *)
Definition deny_rules_allow_empty (st : PackageExporter) : Prop :=
  forall g allow_empty,
    In (g, act_reject_denied_module, allow_empty) (patterns st) ->
    allow_empty = true.

Definition keeps_deny_rules (st st' : PackageExporter) : Prop :=
  deny_rules_allow_empty st -> deny_rules_allow_empty st'.

(** Two computations that do the same in every state. *)
Definition agree {A} (c1 c2 : M A) : Prop := forall st, c1 st = c2 st.

(** The names [_save_module] was entered with between two states: each
    one new to the graph of the first state, none twice; after a return
    ([landed]) each one a node of the graph. *)
Definition visits_fresh (landed : bool) (st st' : PackageExporter) : Prop :=
  exists new,
    visited st' = visited st ++ new
    /\ NoDup new
    /\ (forall x, In x new ->
          ~ In x (node_names (dependency_graph st))
          /\ (landed = true -> In x (node_names (dependency_graph st'))))
    /\ graph_grows st st'.

Definition closes_fresh {A} (c : M A) : Prop :=
  forall st, match c st with
             | Return _ st' => visits_fresh true st st'
             | Raise _ st' => visits_fresh false st st'
             | Diverge => True
             end.

(** A computation that returns or raises in every state. *)
Definition terminates {A} (c : M A) : Prop := forall st, c st <> Diverge.

(** ** The primitive changes of an exporter *)

Definition implicit_rule (module_name : string) : rule :=
  (mkGlobGroup [module_name] [], act_save_intern_module, false).

Definition storage_record (key : string) (storage : Storage) : zip_record :=
  ((".data/" ++ key ++ ".storage")%string, data_ptr storage,
   size storage * element_size storage).

(** Everything a method of the exporter does to the object is one of
    these changes. *)
Inductive step {PyObject} (E : Env PyObject)
  : PackageExporter -> PackageExporter -> Prop :=
| step_implicit_intern st module_name :
    step E st (set_patterns (implicit_rule module_name :: patterns st) st)
| step_append_rule st g a allow_empty :
    (a = act_reject_denied_module -> allow_empty = true) ->
    step E st (set_patterns (patterns st ++ [(g, a, allow_empty)]) st)
| step_add_node st n kw :
    step E st (set_dependency_graph (add_node n kw (dependency_graph st)) st)
| step_add_edge st u v :
    step E st (set_dependency_graph (add_edge u v (dependency_graph st)) st)
| step_visit st n :
    step E st (set_visited (visited st ++ [n]) st)
| step_storage st obj :
    step E st (set_serialized_storages
                 (storages_set (Str.of_int (_cdata E obj)) obj
                               (serialized_storages st)) st)
| step_write st filename data :
    is_mangled E filename = false -> zip_file st = true ->
    step E st (set_archive
                 (archive st ++ [(filename, data, String.length data)]) st)
| step_write_storage st key storage :
    storages_get key (serialized_storages st) = Some storage ->
    zip_file st = true ->
    step E st (set_archive (archive st ++ [storage_record key storage]) st)
| step_finalize st :
    zip_file st = true -> step E st (set_zip_file false st)
| step_intern st n :
    step E st (set_intern_modules (dict_set n (intern_modules st)) st)
| step_extern st n :
    step E st (set_extern_modules (dict_set n (extern_modules st)) st)
| step_mock st n :
    step E st (set_mock_modules (dict_set n (mock_modules st)) st)
| step_matched st g a allow_empty :
    In (g, a, allow_empty) (patterns st) ->
    step E st (set_matched_patterns (set_add g (matched_patterns st)) st)
| step_unique_id st :
    step E st (set_unique_id (S (_unique_id st)) st).

Definition steps {PyObject} (E : Env PyObject)
  : PackageExporter -> PackageExporter -> Prop :=
  clos_refl_trans PackageExporter (step E).

(** ** Notions used to state the further properties *)

(** What holds of the state a call returns or raises in. *)
Definition ends_in {A} (o : outcome A) (P : PackageExporter -> Prop) : Prop :=
  match o with
  | Return _ st | Raise _ st => P st
  | Diverge => True
  end.

(** The name of a record is not mangled, or the record is a storage. *)
Definition admissible_record {PyObject} (E : Env PyObject) (r : zip_record)
  : Prop :=
  is_mangled E (fst (fst r)) = false
  \/ exists key, fst (fst r) = (".data/" ++ key ++ ".storage")%string.

(** A table that came from another by rules put in front of it, all of
    them implicit intern rules, and rules put behind it. *)
Definition table_extends (old new : list rule) : Prop :=
  exists front back,
    new = front ++ old ++ back
    /\ Forall (fun r => exists n, r = implicit_rule n) front.

(** ** Notions used to state the closure properties *)

(** The edges of the graph stay. *)
Definition edges_grow (st st' : PackageExporter) : Prop :=
  forall e, In e (edges (dependency_graph st)) ->
            In e (edges (dependency_graph st')).

(** Every name of [deps] is a node of the graph and a successor of [m]. *)
Definition successors_cover (st : PackageExporter) (m : string)
           (deps : list string) : Prop :=
  forall d, In d deps ->
    In (m, d) (edges (dependency_graph st))
    /\ In d (node_names (dependency_graph st)).

(** The importer resolves [m], its source can be read, and what
    [_get_dependencies] finds in that source is in the graph, with an
    edge from [m]. *)
Definition recorded {PyObject} (E : Env PyObject) (st : PackageExporter)
           (m : string) : Prop :=
  exists module_obj source,
    import_module E m = Some module_obj
    /\ (forall s, _get_source_of_module module_obj s = Return source s)
    /\ successors_cover st m
         (_get_dependencies E source m (has_path module_obj)).

(** The modules [_save_module] was entered with between two states are
    all recorded in the second. *)
Definition closure_recorded {PyObject} (E : Env PyObject)
           (st st' : PackageExporter) : Prop :=
  exists new,
    visited st' = visited st ++ new
    /\ forall m, In m new -> recorded E st' m.

(** ** Notions used to state the layout of a sealed archive *)

(** The record [_compute_patterns] writes last: the extern table, one
    name per line. *)
Definition manifest_record (extern_modules : list string) : zip_record :=
  let contents := (String.concat Str.nl extern_modules ++ Str.nl)%string in
  (".data/extern_modules", contents, String.length contents).

(** The records [close] writes for a storage table: one per key, the
    keys sorted. *)
Definition storage_records (table : list (string * Storage))
  : list zip_record :=
  flat_map (fun key => match storages_get key table with
                       | Some storage => [storage_record key storage]
                       | None => []
                       end)
           (Str.sorted (map fst table)).

(** The record [_write_source_string] writes for a module. *)
Definition source_record (module_name src : string) (is_package : bool)
  : zip_record :=
  let extension := if is_package then "/__init__.py" else ".py" in
  let filename := (Str.replace "." "/" module_name ++ extension)%string in
  (filename, src, String.length src).

(** The record of the module [_mock], written when a module is mocked. *)
Definition mock_stub {PyObject} (E : Env PyObject) (mock_modules : list string)
  : list zip_record :=
  if negb (Nat.eqb (length mock_modules) 0)
  then [source_record "_mock" (mock_file E) false]
  else [].

(** The record of a mocked module: [_MOCK_IMPL], as a package when the
    module the importer finds is one. *)
Definition mock_source {PyObject} (E : Env PyObject) (module_name : string)
           (r : zip_record) : Prop :=
  exists module_obj,
    import_module E module_name = Some module_obj
    /\ r = source_record module_name _MOCK_IMPL (has_path module_obj).

(** The records of an interned module: none for the node of a pickle,
    the source given to [save_source_string] with its [is_package], or
    else the source of the module the importer finds. *)
Definition intern_source {PyObject} (E : Env PyObject) (g : DiGraph)
           (module_name : string) (records : list zip_record) : Prop :=
  exists attrs,
    node_lookup module_name (nodes g) = Some attrs
    /\ match is_pickle attrs with
       | Some true => records = []
       | _ =>
           match src attrs with
           | Some source =>
               exists p, is_package attrs = Some p
                         /\ records = [source_record module_name source p]
           | None =>
               exists module_obj source,
                 import_module E module_name = Some module_obj
                 /\ (forall s, _get_source_of_module module_obj s
                               = Return source s)
                 /\ records = [source_record module_name source
                                             (has_path module_obj)]
           end
       end.

(** The second state is the first with records behind its archive, none
    of them under a mangled name. *)
Definition writes {PyObject} (E : Env PyObject) (st st' : PackageExporter)
  : Prop :=
  exists added,
    st' = set_archive (archive st ++ added) st
    /\ Forall (fun r : zip_record => is_mangled E (fst (fst r)) = false) added.


(** * Properties *)

(** ** Strings, key lists and matchers *)

Lemma mem_In (x : string) (l : list string) : Str.mem x l = true <-> In x l.
Proof.
  unfold Str.mem. rewrite existsb_exists. split.
  - intros [y [Hy He]]. apply String.eqb_eq in He. now subst.
  - intros H. exists x. split; [assumption | apply String.eqb_refl].
Qed.

Lemma mem_false (x : string) (l : list string) : Str.mem x l = false <-> ~ In x l.
Proof.
  rewrite <- mem_In. destruct (Str.mem x l); split; congruence.
Qed.

Lemma dict_set_In (k x : string) (d : list string) :
  In x (dict_set k d) <-> x = k \/ In x d.
Proof.
  unfold dict_set. destruct (Str.mem k d) eqn:Hk.
  - apply mem_In in Hk. split; [now right | intros [-> | H]; assumption].
  - rewrite in_app_iff. simpl. intuition.
Qed.

Lemma partition_head_idem (c : ascii) (s : string) :
  Str.partition_head c (Str.partition_head c s) = Str.partition_head c s.
Proof.
  induction s as [| a r IH]; simpl; [reflexivity |].
  destruct (Ascii.eqb a c) eqn:Hac; simpl; [reflexivity |].
  now rewrite Hac, IH.
Qed.

Lemma split_head (c : ascii) (s : string) :
  exists t, Str.split c s = Str.partition_head c s :: t.
Proof.
  induction s as [| a r [t IH]]; simpl.
  - now exists [].
  - destruct (Ascii.eqb a c).
    + now exists (Str.split c r).
    + rewrite IH. now exists t.
Qed.

Lemma GlobGroup_eqb_eq (a b : GlobGroup) : GlobGroup_eqb a b = true <-> a = b.
Proof.
  unfold GlobGroup_eqb. destruct a as [ia ea], b as [ib eb]. simpl.
  destruct (list_eq_dec string_dec ia ib), (list_eq_dec string_dec ea eb);
    simpl; split; intros H; try discriminate; try congruence.
Qed.

Lemma set_add_In (g x : GlobGroup) (s : list GlobGroup) :
  In x (set_add g s) <-> x = g \/ In x s.
Proof.
  unfold set_add. destruct (existsb (GlobGroup_eqb g) s) eqn:Hg.
  - apply existsb_exists in Hg. destruct Hg as [y [Hy He]].
    apply GlobGroup_eqb_eq in He. subst y.
    split; [now right | intros [-> | H]; assumption].
  - rewrite in_app_iff. simpl. intuition.
Qed.

Lemma matched_In (g : GlobGroup) (s : list GlobGroup) :
  existsb (GlobGroup_eqb g) s = true <-> In g s.
Proof.
  rewrite existsb_exists. split.
  - intros [y [Hy He]]. apply GlobGroup_eqb_eq in He. now subst.
  - intros H. exists g. split; [assumption | now apply GlobGroup_eqb_eq].
Qed.

(** ** Implicit externing (C2) *)

Lemma _can_implicitly_extern_spec {PyObject} (E : Env PyObject) (name : string) :
  let root := Str.partition_head "." name in
  _can_implicitly_extern E name = true <->
  root = "torch" \/ (is_stdlib_module E root = true /\ ~ In root _DISALLOWED_MODULES).
Proof.
  intros root. unfold _can_implicitly_extern. fold root.
  rewrite orb_true_iff, andb_true_iff, negb_true_iff, String.eqb_eq, mem_false.
  tauto.
Qed.

Lemma _can_implicitly_extern_root {PyObject} (E : Env PyObject) (name : string) :
  _can_implicitly_extern E (Str.partition_head "." name)
  = _can_implicitly_extern E name.
Proof.
  unfold _can_implicitly_extern. now rewrite partition_head_idem.
Qed.

(** C2. [do_match] externs a name without looking at the pattern table
    exactly when the root of the name is "torch", or the stdlib oracle
    accepts the root and the root is neither "sys" nor "io"; every other
    name, in particular one whose root is "sys" or "io", is classified
    by the first-match loop over the pattern table. *)
Theorem implicit_extern_short_circuit {PyObject} (E : Env PyObject)
        (module_name : string) (st : PackageExporter) :
  let root := Str.partition_head "." module_name in
  let implicit :=
    root = "torch" \/ (is_stdlib_module E root = true /\ ~ In root ["sys"; "io"]) in
  (_can_implicitly_extern E root = true <-> implicit)
  /\ (implicit ->
      do_match E module_name st
      = Return tt (set_extern_modules (dict_set module_name (extern_modules st)) st))
  /\ (~ implicit ->
      do_match E module_name st = match_first (patterns st) module_name st)
  /\ (In root ["sys"; "io"] ->
      do_match E module_name st = match_first (patterns st) module_name st).
Proof.
  intros root implicit.
  assert (Hiff : _can_implicitly_extern E root = true <-> implicit).
  { unfold root. rewrite _can_implicitly_extern_root.
    apply _can_implicitly_extern_spec. }
  assert (Hno : ~ implicit ->
                do_match E module_name st
                = match_first (patterns st) module_name st).
  { intros Hn. unfold do_match. fold root.
    destruct (_can_implicitly_extern E root) eqn:Hc.
    - exfalso. apply Hn, Hiff. reflexivity.
    - reflexivity. }
  repeat split.
  - apply Hiff.
  - apply Hiff.
  - intros Hi. unfold do_match. fold root.
    apply Hiff in Hi. now rewrite Hi.
  - exact Hno.
  - intros Hin. apply Hno. intros [Ht | [_ Hd]].
    + rewrite Ht in Hin. simpl in Hin.
      destruct Hin as [H | [H | []]]; discriminate.
    + exact (Hd Hin).
Qed.

(** ** First match wins (C3) *)

(** What the firing of a rule does to the exporter. *)
Lemma fire_rule (pattern : GlobGroup) (a : action) (module_name : string)
      (st : PackageExporter) :
  (call_action a module_name ;;
   modify (fun st => set_matched_patterns (set_add pattern (matched_patterns st)) st)) st
  = match a with
    | act_save_intern_module =>
        Return tt (set_matched_patterns (set_add pattern (matched_patterns st))
                     (set_intern_modules (dict_set module_name (intern_modules st)) st))
    | act_save_mock_module =>
        Return tt (set_matched_patterns (set_add pattern (matched_patterns st))
                     (set_mock_modules (dict_set module_name (mock_modules st)) st))
    | act_save_extern_module =>
        Return tt (set_matched_patterns (set_add pattern (matched_patterns st))
                     (set_extern_modules (dict_set module_name (extern_modules st)) st))
    | act_reject_denied_module => Raise (DeniedModuleError module_name) st
    end.
Proof. destruct a; reflexivity. Qed.

Lemma match_first_skip (pre rest : list rule) (module_name : string) :
  (forall r, In r pre -> matches (fst (fst r)) module_name = false) ->
  match_first (pre ++ rest) module_name = match_first rest module_name.
Proof.
  induction pre as [| [[p a] ae] pre IH]; intros Hpre; simpl; [reflexivity |].
  pose proof (Hpre (p, a, ae) (or_introl eq_refl)) as Hp. simpl in Hp.
  rewrite Hp. apply IH. intros r Hr. apply Hpre. now right.
Qed.

(** Taking away a rule that does not accept the name changes nothing. *)
Lemma match_first_remove (p1 p2 : list rule) (q : rule) (module_name : string) :
  matches (fst (fst q)) module_name = false ->
  match_first (p1 ++ q :: p2) module_name = match_first (p1 ++ p2) module_name.
Proof.
  intros Hq. induction p1 as [| [[p a] ae] p1 IH]; simpl.
  - destruct q as [[p a] ae]. simpl in Hq. now rewrite Hq.
  - destruct (matches p module_name); [reflexivity | exact IH].
Qed.

(** C3. For a name that is not implicitly externed, let a rule of the
    table accept it while no rule before it does.  Then [do_match] fires
    the action of exactly that rule and records its matcher (a deny rule
    raises instead); the rules after it play no part; and taking away a
    rule before it changes the classification if and only if some earlier
    rule accepts the name, which is never the case. *)
Theorem first_match_wins {PyObject} (E : Env PyObject) (module_name : string)
        (st : PackageExporter) (pre post : list rule)
        (pattern : GlobGroup) (a : action) (allow_empty : bool) :
  _can_implicitly_extern E (Str.partition_head "." module_name) = false ->
  patterns st = pre ++ (pattern, a, allow_empty) :: post ->
  (forall r, In r pre -> matches (fst (fst r)) module_name = false) ->
  matches pattern module_name = true ->
  do_match E module_name st
  = match a with
    | act_save_intern_module =>
        Return tt (set_matched_patterns (set_add pattern (matched_patterns st))
                     (set_intern_modules (dict_set module_name (intern_modules st)) st))
    | act_save_mock_module =>
        Return tt (set_matched_patterns (set_add pattern (matched_patterns st))
                     (set_mock_modules (dict_set module_name (mock_modules st)) st))
    | act_save_extern_module =>
        Return tt (set_matched_patterns (set_add pattern (matched_patterns st))
                     (set_extern_modules (dict_set module_name (extern_modules st)) st))
    | act_reject_denied_module => Raise (DeniedModuleError module_name) st
    end
  /\ (forall post',
         match_first (pre ++ (pattern, a, allow_empty) :: post') module_name st
         = do_match E module_name st)
  /\ (forall p1 q p2, pre = p1 ++ q :: p2 ->
         (match_first (p1 ++ p2 ++ (pattern, a, allow_empty) :: post) module_name st
          <> do_match E module_name st
          <-> exists r, In r pre /\ matches (fst (fst r)) module_name = true)).
Proof.
  intros Himp Hpat Hpre Hm.
  assert (Hfire : forall post',
             match_first (pre ++ (pattern, a, allow_empty) :: post') module_name st
             = (call_action a module_name ;;
                modify (fun st => set_matched_patterns
                                    (set_add pattern (matched_patterns st)) st)) st).
  { intros post'. rewrite (match_first_skip pre _ module_name Hpre).
    simpl. now rewrite Hm. }
  assert (Hdo : do_match E module_name st
                = match_first (pre ++ (pattern, a, allow_empty) :: post) module_name st).
  { unfold do_match. rewrite Himp. unfold bind, get. now rewrite Hpat. }
  split; [| split].
  - rewrite Hdo, Hfire. apply fire_rule.
  - intros post'. now rewrite Hdo, !Hfire.
  - intros p1 q p2 Hsplit. split.
    + intros Hne. exfalso. apply Hne. rewrite Hdo. subst pre.
      rewrite <- app_assoc. simpl.
      rewrite (match_first_remove p1 _ q module_name); [reflexivity |].
      apply Hpre. apply in_elt.
    + intros [r [Hr Hacc]]. rewrite (Hpre r Hr) in Hacc. discriminate.
Qed.

Lemma first_match_wins_witness :
  let st := set_patterns
              [(mkGlobGroup ["x.*"] [], act_save_mock_module, true);
               (mkGlobGroup ["a.*"] [], act_save_intern_module, true);
               (mkGlobGroup ["**"] [], act_save_extern_module, true)] __init__ in
  do_match Demo.world "a.b" st
  = Return tt (set_matched_patterns [mkGlobGroup ["a.*"] []]
                 (set_intern_modules ["a.b"] st)).
Proof.
  intros st.
  refine (proj1 (first_match_wins Demo.world "a.b" st
                   [(mkGlobGroup ["x.*"] [], act_save_mock_module, true)]
                   [(mkGlobGroup ["**"] [], act_save_extern_module, true)]
                   (mkGlobGroup ["a.*"] []) act_save_intern_module true _ _ _ _)).
  - reflexivity.
  - reflexivity.
  - intros r [<- | []]. reflexivity.
  - reflexivity.
Defined.

(** ** Reasoning about the exporter monad *)

Section Preservation.

Context (R : PackageExporter -> PackageExporter -> Prop).
Hypothesis R_refl : forall st, R st st.
Hypothesis R_trans : forall a b c, R a b -> R b c -> R a c.

Lemma preserves_ret {A} (a : A) : preserves R (ret a).
Proof. intros st. apply R_refl. Qed.

Lemma preserves_raise {A} (e : exn) : preserves R (@raise A e).
Proof. intros st. apply R_refl. Qed.

Lemma preserves_get : preserves R get.
Proof. intros st. apply R_refl. Qed.

Lemma preserves_diverge {A} : preserves R (@diverge A).
Proof. intros st. exact I. Qed.

Lemma preserves_bind {A B} (c : M A) (k : A -> M B) :
  preserves R c -> (forall a, preserves R (k a)) -> preserves R (bind c k).
Proof.
  intros Hc Hk st. unfold bind. specialize (Hc st).
  destruct (c st) as [a st1 | e st1 |]; [| assumption | exact I].
  specialize (Hk a st1).
  destruct (k a st1); try exact I; eapply R_trans; eassumption.
Qed.

Lemma preserves_for_each {A} (l : list A) (body : A -> M unit) :
  (forall x, preserves R (body x)) -> preserves R (for_each l body).
Proof.
  intros Hb. induction l as [| x l IH]; simpl.
  - apply preserves_ret.
  - apply preserves_bind; [apply Hb | intros _; exact IH].
Qed.

Lemma preserves_map_M {A B} (f : A -> M B) (l : list A) :
  (forall x, preserves R (f x)) -> preserves R (map_M f l).
Proof.
  intros Hf. induction l as [| x l IH]; simpl.
  - apply preserves_ret.
  - apply preserves_bind; [apply Hf | intros y].
    apply preserves_bind; [exact IH | intros ys; apply preserves_ret].
Qed.

End Preservation.

Lemma keeps_refl {B} (f : PackageExporter -> B) st : keeps f st st.
Proof. reflexivity. Qed.

Lemma keeps_trans {B} (f : PackageExporter -> B) a b c :
  keeps f a b -> keeps f b c -> keeps f a c.
Proof. unfold keeps. congruence. Qed.

Lemma graph_grows_refl st : graph_grows st st.
Proof. intros n H. exact H. Qed.

Lemma graph_grows_trans a b c :
  graph_grows a b -> graph_grows b c -> graph_grows a c.
Proof. intros H1 H2 n H. apply H2, H1, H. Qed.

(** ** Classification of the graph nodes *)

Lemma match_first_first_match (rules : list rule) (module_name : string)
      (st : PackageExporter) :
  match_first rules module_name st
  = match first_match rules module_name with
    | None => Return tt st
    | Some (pattern, a, _) =>
        (call_action a module_name ;;
         modify (fun st => set_matched_patterns
                             (set_add pattern (matched_patterns st)) st)) st
    end.
Proof.
  induction rules as [| [[p a] ae] rules IH]; simpl; [reflexivity |].
  destruct (matches p module_name); [reflexivity | exact IH].
Qed.

Lemma first_match_accepts (rules : list rule) (module_name : string) (r : rule) :
  first_match rules module_name = Some r ->
  In r rules /\ matches (fst (fst r)) module_name = true.
Proof.
  induction rules as [| q rules IH]; simpl; [discriminate |].
  destruct (matches (fst (fst q)) module_name) eqn:Hq.
  - intros [= <-]. split; [now left | assumption].
  - intros H. destruct (IH H). split; [now right | assumption].
Qed.

Lemma do_match_unfold {PyObject} (E : Env PyObject) (module_name : string)
      (st : PackageExporter) :
  do_match E module_name st
  = if _can_implicitly_extern E (Str.partition_head "." module_name)
    then Return tt (set_extern_modules (dict_set module_name (extern_modules st)) st)
    else match first_match (patterns st) module_name with
         | None => Return tt st
         | Some (pattern, a, _) =>
             (call_action a module_name ;;
              modify (fun st => set_matched_patterns
                                  (set_add pattern (matched_patterns st)) st)) st
         end.
Proof.
  unfold do_match.
  destruct (_can_implicitly_extern E (Str.partition_head "." module_name));
    [reflexivity |].
  unfold bind, get. apply match_first_first_match.
Qed.

(** One node: the table of the decided action gets the name, the
    matcher of the firing rule is recorded, a deny raises. *)
Lemma do_match_step {PyObject} (E : Env PyObject) (n : string)
      (st : PackageExporter) :
  match do_match E n st with
  | Return _ st' =>
      keeps unclassified_part st st'
      /\ (forall a x, a <> act_reject_denied_module ->
            (In x (table a st') <->
             In x (table a st)
             \/ (x = n /\ decided_action E (patterns st) n = Some a)))
      /\ (forall g, In g (matched_patterns st') <->
            In g (matched_patterns st)
            \/ (_can_implicitly_extern E (Str.partition_head "." n) = false
                /\ exists r, first_match (patterns st) n = Some r
                             /\ fst (fst r) = g))
      /\ decided_action E (patterns st) n <> Some act_reject_denied_module
  | Raise e st' =>
      keeps unclassified_part st st'
      /\ e = DeniedModuleError n
      /\ decided_action E (patterns st) n = Some act_reject_denied_module
  | Diverge => False
  end.
Proof.
  rewrite do_match_unfold. unfold decided_action.
  destruct (_can_implicitly_extern E (Str.partition_head "." n)) eqn:Himp.
  - split; [reflexivity |]. split; [| split].
    + intros a x Ha. destruct a; simpl; try rewrite dict_set_In;
        intuition congruence.
    + intros g. simpl. intuition congruence.
    + discriminate.
  - destruct (first_match (patterns st) n) as [[[p a0] ae] |] eqn:Hfm; simpl.
    2:{ split; [reflexivity |]. split; [| split].
        - intros a x Ha. intuition congruence.
        - intros g. split; [now left |].
          intros [H | [_ [r [Hr _]]]]; [exact H | discriminate].
        - discriminate. }
    rewrite fire_rule.
    destruct a0.
    4:{ now repeat split. }
    all: split; [reflexivity |]; split; [| split]; try discriminate.
    all: try (intros a x Ha; destruct a; simpl; try rewrite dict_set_In;
              intuition congruence).
    all: intros g; simpl; rewrite set_add_In; split;
      [ intros [-> | H];
        [ right; split; [reflexivity |]; eexists; split; reflexivity | now left ]
      | intros [H | [_ [r [Hr Hg]]]];
        [ now right | left; injection Hr as <-; now subst g ] ].
Qed.

Lemma unclassified_part_patterns (st st' : PackageExporter) :
  keeps unclassified_part st st' -> patterns st' = patterns st.
Proof. unfold keeps, unclassified_part. intros H. now inversion H. Qed.

(** The classification loop, node by node. *)
Lemma classification_loop {PyObject} (E : Env PyObject) (names : list string) :
  forall st,
    match for_each names (do_match E) st with
    | Return _ st' =>
        keeps unclassified_part st st'
        /\ (forall a x, a <> act_reject_denied_module ->
              (In x (table a st') <->
               In x (table a st)
               \/ (In x names /\ decided_action E (patterns st) x = Some a)))
        /\ (forall g, In g (matched_patterns st') <->
              In g (matched_patterns st)
              \/ exists n r,
                  In n names
                  /\ _can_implicitly_extern E (Str.partition_head "." n) = false
                  /\ first_match (patterns st) n = Some r
                  /\ fst (fst r) = g)
        /\ (forall n, In n names ->
              decided_action E (patterns st) n <> Some act_reject_denied_module)
    | Raise e st' =>
        keeps unclassified_part st st'
        /\ exists n, In n names /\ e = DeniedModuleError n
                     /\ decided_action E (patterns st) n
                        = Some act_reject_denied_module
    | Diverge => False
    end.
Proof.
  induction names as [| n names IH]; intros st; simpl.
  - unfold ret. split; [reflexivity |]. split; [| split].
    + intros a x _. tauto.
    + intros g. split; [now left |].
      intros [H | [m [r [[] _]]]]. exact H.
    + intros m [].
  - unfold bind. pose proof (do_match_step E n st) as Hs.
    destruct (do_match E n st) as [u st1 | e st1 |]; [| | exact Hs].
    + destruct Hs as [Hk [Ht [Hg Hd]]].
      pose proof (unclassified_part_patterns _ _ Hk) as Hp.
      specialize (IH st1). rewrite Hp in IH.
      destruct (for_each names (do_match E) st1) as [u' st' | e st' |];
        [| | exact IH].
      * destruct IH as [Hk' [Ht' [Hg' Hd']]].
        split; [eapply keeps_trans; eassumption |]. split; [| split].
        -- intros a x Ha. rewrite (Ht' a x Ha), (Ht a x Ha).
           split.
           ++ intros [[H | [-> H]] | [H1 H2]]; auto.
           ++ intros [H | [[<- | H1] H2]]; auto.
        -- intros g. rewrite (Hg' g), (Hg g). split.
           ++ intros [[H | [H1 [r [H2 H3]]]] | [m [r [H1 H2]]]].
              ** now left.
              ** right. exists n, r. auto.
              ** right. exists m, r. split; [now right | exact H2].
           ++ intros [H | [m [r [[<- | H1] [H2 [H3 H4]]]]]].
              ** left. now left.
              ** left. right. split; [exact H2 |]. exists r. auto.
              ** right. exists m, r. auto.
        -- intros m [<- | Hm]; [exact Hd | now apply Hd'].
      * destruct IH as [Hk' [m [H1 [H2 H3]]]].
        split; [eapply keeps_trans; eassumption |].
        exists m. split; [now right | now split].
    + destruct Hs as [Hk [He Hd]]. split; [exact Hk |].
      exists n. split; [now left | now split].
Qed.

(** ** The phases of sealing *)

Lemma filter_empty {A} (f : A -> bool) (l : list A) :
  Nat.eqb (length (filter f l)) 0 = true <-> forall x, In x l -> f x = false.
Proof.
  induction l as [| y l IH]; simpl.
  - split; [intros _ x [] | reflexivity].
  - destruct (f y) eqn:Hy; simpl.
    + split; [discriminate |]. intros H.
      rewrite (H y (or_introl eq_refl)) in Hy. discriminate.
    + rewrite IH. split.
      * intros H x [<- | Hx]; [exact Hy | now apply H].
      * intros H x Hx. apply H. now right.
Qed.

(** The empty-match check reads the exporter and leaves it as it is. *)
Lemma check_unmatched_patterns_spec (rules : list rule) (st : PackageExporter) :
  (check_unmatched_patterns rules st = Return tt st
   /\ forall p a, In (p, a, false) rules -> In p (matched_patterns st))
  \/ (exists pre p a post,
         rules = pre ++ (p, a, false) :: post
         /\ check_unmatched_patterns rules st = Raise (EmptyMatchError p) st
         /\ ~ In p (matched_patterns st)
         /\ forall q b, In (q, b, false) pre -> In q (matched_patterns st)).
Proof.
  induction rules as [| [[p a] ae] rules IH]; simpl.
  - left. split; [reflexivity | intros p a []].
  - unfold bind, get.
    destruct ae; simpl.
    + destruct IH as [[Hr Hall] | [pre [q [b [post [Hs [Hr [Hn Hpre]]]]]]]].
      * left. split; [exact Hr |].
        intros q b [H | H]; [discriminate | eauto].
      * right. exists ((p, a, true) :: pre), q, b, post.
        split; [now rewrite Hs |]. split; [exact Hr |].
        split; [exact Hn |].
        intros q' b' [H | H]; [discriminate | eauto].
    + destruct (existsb (GlobGroup_eqb p) (matched_patterns st)) eqn:Hm; simpl.
      * apply matched_In in Hm.
        destruct IH as [[Hr Hall] | [pre [q [b [post [Hs [Hr [Hn Hpre]]]]]]]].
        -- left. split; [exact Hr |].
           intros q b [[= <- <-] | H]; eauto.
        -- right. exists ((p, a, false) :: pre), q, b, post.
           split; [now rewrite Hs |]. split; [exact Hr |].
           split; [exact Hn |].
           intros q' b' [[= <- <-] | H]; eauto.
      * right. exists [], p, a, rules.
        split; [reflexivity |]. split; [reflexivity |]. split.
        -- intros H. apply matched_In in H. congruence.
        -- intros q b [].
Qed.

Lemma _write_keeps {PyObject} (E : Env PyObject) (filename data : string) :
  preserves (keeps policy_part) (_write E filename data).
Proof.
  intros st. unfold _write, bind, get, raise, modify.
  destruct (is_mangled E filename); [reflexivity |].
  destruct (zip_file st); reflexivity.
Qed.

Lemma _write_source_string_keeps {PyObject} (E : Env PyObject)
      (module_name src : string) (is_package : bool) :
  preserves (keeps policy_part) (_write_source_string E module_name src is_package).
Proof. apply _write_keeps. Qed.

Lemma _import_module_keeps {PyObject} (E : Env PyObject) {B}
      (f : PackageExporter -> B) (module_name : string) :
  preserves (keeps f) (_import_module E module_name).
Proof.
  intros st. unfold _import_module.
  destruct (import_module E module_name); reflexivity.
Qed.

Lemma _get_source_of_module_keeps {PyObject} (E : Env PyObject) {B}
      (f : PackageExporter -> B) (m : ModuleType) :
  preserves (keeps f) (_get_source_of_module m).
Proof.
  intros st. unfold _get_source_of_module.
  destruct (__file__ m) as [fn |]; [| reflexivity].
  destruct (negb (Str.endswith fn ".py")); reflexivity.
Qed.

Lemma write_mock_keeps {PyObject} (E : Env PyObject) (module_name : string) :
  preserves (keeps policy_part) (write_mock E module_name).
Proof.
  unfold write_mock.
  apply preserves_bind; [apply keeps_trans | apply _import_module_keeps |].
  intros m. apply _write_source_string_keeps.
Qed.

Lemma write_intern_keeps {PyObject} (E : Env PyObject) (module_name : string) :
  preserves (keeps policy_part) (write_intern E module_name).
Proof.
  unfold write_intern.
  apply preserves_bind; [apply keeps_trans | apply preserves_get, keeps_refl |].
  intros st0.
  destruct (node_lookup module_name (nodes (dependency_graph st0))) as [attrs |];
    [| apply preserves_raise, keeps_refl].
  destruct (is_pickle attrs) as [[|] |].
  - apply preserves_ret, keeps_refl.
  - destruct (src attrs).
    + destruct (is_package attrs);
        [apply _write_source_string_keeps | apply preserves_raise, keeps_refl].
    + apply preserves_bind; [apply keeps_trans | apply _import_module_keeps |].
      intros m.
      apply preserves_bind;
        [apply keeps_trans | apply (_get_source_of_module_keeps E) |].
      intros s. apply _write_source_string_keeps.
  - destruct (src attrs).
    + destruct (is_package attrs);
        [apply _write_source_string_keeps | apply preserves_raise, keeps_refl].
    + apply preserves_bind; [apply keeps_trans | apply _import_module_keeps |].
      intros m.
      apply preserves_bind;
        [apply keeps_trans | apply (_get_source_of_module_keeps E) |].
      intros s. apply _write_source_string_keeps.
Qed.

Lemma write_storage_keeps (key : string) :
  preserves (keeps policy_part) (write_storage key).
Proof.
  intros st. unfold write_storage, bind, get, raise, modify.
  destruct (storages_get key (serialized_storages st)); [| reflexivity].
  destruct (zip_file st); reflexivity.
Qed.

Lemma _finalize_zip_keeps : preserves (keeps policy_part) _finalize_zip.
Proof.
  intros st. unfold _finalize_zip, bind, get, raise, modify.
  destruct (zip_file st); reflexivity.
Qed.

(** [_compute_patterns] by phases: classification, the check for
    unclassified nodes, the empty-match check, emission. *)
Lemma _compute_patterns_phases {PyObject} (E : Env PyObject) :
  exists emit : PackageExporter -> M unit,
    (forall s, preserves (keeps policy_part) (emit s))
    /\ forall st,
        _compute_patterns E st
        = match _match_patterns E st with
          | Return _ st1 =>
              let unmatched :=
                filter (fun n => negb (classified st1 n))
                       (node_names (dependency_graph st1)) in
              if negb (Nat.eqb (length unmatched) 0)
              then Raise (RuntimeError_unmatched
                            (set_iteration_order E unmatched)) st1
              else match check_unmatched_patterns (patterns st1) st1 with
                   | Return _ st2 => emit st1 st2
                   | Raise e st2 => Raise e st2
                   | Diverge => Diverge
                   end
          | Raise e st1 => Raise e st1
          | Diverge => Diverge
          end.
Proof.
  exists (fun st =>
            (if negb (Nat.eqb (length (mock_modules st)) 0)
             then _write_source_string E "_mock" (mock_file E) false
             else ret tt) ;;
            for_each (mock_modules st) (write_mock E) ;;
            for_each (intern_modules st) (write_intern E) ;;
            _write E ".data/extern_modules"
              (String.concat Str.nl (extern_modules st) ++ Str.nl)%string).
  split.
  - intros s.
    apply preserves_bind; [apply keeps_trans | |].
    { destruct (negb _);
        [apply _write_source_string_keeps | apply preserves_ret, keeps_refl]. }
    intros _. apply preserves_bind; [apply keeps_trans | |].
    { apply preserves_for_each;
        [apply keeps_refl | apply keeps_trans | apply write_mock_keeps]. }
    intros _. apply preserves_bind; [apply keeps_trans | |].
    { apply preserves_for_each;
        [apply keeps_refl | apply keeps_trans | apply write_intern_keeps]. }
    intros _. apply _write_keeps.
  - intros st. unfold _compute_patterns. unfold bind at 1.
    destruct (_match_patterns E st) as [u st1 | e st1 |]; try reflexivity.
    unfold bind at 1. unfold get at 1. cbv zeta.
    destruct (negb (Nat.eqb (length _) 0)); [reflexivity |].
    unfold bind at 1. reflexivity.
Qed.

Lemma _match_patterns_loop {PyObject} (E : Env PyObject) (st : PackageExporter) :
  _match_patterns E st
  = for_each (node_names (dependency_graph st)) (do_match E) st.
Proof. reflexivity. Qed.

(** Sealing that returns went through all phases. *)
Lemma close_returns {PyObject} (E : Env PyObject) (st st' : PackageExporter) :
  close E st = Return tt st' ->
  exists st1,
    _match_patterns E st = Return tt st1
    /\ (forall n, In n (node_names (dependency_graph st1)) -> classified st1 n = true)
    /\ (forall p a, In (p, a, false) (patterns st1) -> In p (matched_patterns st1))
    /\ keeps policy_part st1 st'.
Proof.
  destruct (_compute_patterns_phases E) as [emit [Hemit Hcp]].
  unfold close. unfold bind at 1. rewrite Hcp.
  destruct (_match_patterns E st) as [[] st1 | e st1 |]; try discriminate.
  cbv zeta.
  destruct (negb (Nat.eqb (length _) 0)) eqn:Hu; [discriminate |].
  apply negb_false_iff in Hu. rewrite filter_empty in Hu.
  destruct (check_unmatched_patterns_spec (patterns st1) st1)
    as [[Hr Hall] | [pre [p [a [post [_ [Hr _]]]]]]];
    rewrite Hr; [| discriminate].
  pose proof (Hemit st1 st1) as He.
  destruct (emit st1 st1) as [u st2 | e st2 |]; try discriminate.
  intros Htail. exists st1. split; [reflexivity |]. split; [| split].
  - intros n Hn. specialize (Hu n Hn). now apply negb_false_iff in Hu.
  - exact Hall.
  - assert (Hp : preserves (keeps policy_part)
                   (st0 <- get ;;
                    for_each (Str.sorted (map fst (serialized_storages st0)))
                             write_storage ;;
                    _finalize_zip)).
    { apply preserves_bind; [apply keeps_trans | apply preserves_get, keeps_refl |].
      intros st0. apply preserves_bind; [apply keeps_trans | |].
      - apply preserves_for_each;
          [apply keeps_refl | apply keeps_trans | apply write_storage_keeps].
      - intros _. apply _finalize_zip_keeps. }
    specialize (Hp st2). rewrite Htail in Hp.
    eapply keeps_trans; eassumption.
Qed.

(** Sealing stops at an unclassified node, and at an unmatched rule that
    does not allow it, with the archive as classification found it. *)
Lemma sealing_faults {PyObject} (E : Env PyObject) (st st1 : PackageExporter) :
  _match_patterns E st = Return tt st1 ->
  archive st1 = archive st
  /\ ((exists n, In n (node_names (dependency_graph st1))
                 /\ classified st1 n = false) ->
      exists unmatched,
        _compute_patterns E st = Raise (RuntimeError_unmatched unmatched) st1
        /\ close E st = Raise (RuntimeError_unmatched unmatched) st1)
  /\ ((forall n, In n (node_names (dependency_graph st1)) -> classified st1 n = true) ->
      (exists p a, In (p, a, false) (patterns st1)
                   /\ ~ In p (matched_patterns st1)) ->
      exists p a, In (p, a, false) (patterns st1)
                  /\ ~ In p (matched_patterns st1)
                  /\ _compute_patterns E st = Raise (EmptyMatchError p) st1
                  /\ close E st = Raise (EmptyMatchError p) st1).
Proof.
  intros Hm.
  destruct (_compute_patterns_phases E) as [emit [Hemit Hcp]].
  split; [| split].
  - rewrite _match_patterns_loop in Hm.
    pose proof (classification_loop E (node_names (dependency_graph st)) st) as Hl.
    rewrite Hm in Hl. destruct Hl as [Hk _].
    unfold keeps, unclassified_part in Hk. now inversion Hk.
  - intros [n [Hn Hc]].
    assert (Hcp' := Hcp st). rewrite Hm in Hcp'. cbv zeta in Hcp'.
    destruct (negb (Nat.eqb (length _) 0)) eqn:Hu.
    + eexists. split; [exact Hcp' |].
      unfold close. unfold bind at 1. now rewrite Hcp'.
    + apply negb_false_iff in Hu.
      pose proof (proj1 (filter_empty _ _) Hu n Hn) as Hf.
      cbv beta in Hf. rewrite Hc in Hf. discriminate.
  - intros Hall [p [a [Hin Hnot]]].
    assert (Hcp' := Hcp st). rewrite Hm in Hcp'. cbv zeta in Hcp'.
    assert (Hu : negb (Nat.eqb (length
                (filter (fun n => negb (classified st1 n))
                        (node_names (dependency_graph st1)))) 0) = false).
    { apply negb_false_iff. rewrite filter_empty. intros x Hx.
      now rewrite (Hall x Hx). }
    rewrite Hu in Hcp'.
    destruct (check_unmatched_patterns_spec (patterns st1) st1)
      as [[Hr Hok] | [pre [q [b [post [Hs [Hr [Hn Hpre]]]]]]]].
    + exfalso. apply Hnot. eapply Hok. eassumption.
    + rewrite Hr in Hcp'. exists q, b.
      split; [rewrite Hs; apply in_elt |]. split; [exact Hn |].
      split; [exact Hcp' |].
      unfold close. unfold bind at 1. now rewrite Hcp'.
Qed.

(** ** What dependency closure leaves alone *)

Lemma preserves_weaken {A} (R1 R2 : PackageExporter -> PackageExporter -> Prop)
      (c : M A) :
  (forall st st', R1 st st' -> R2 st st') -> preserves R1 c -> preserves R2 c.
Proof.
  intros Hw Hc st. specialize (Hc st).
  destruct (c st); auto.
Qed.

Lemma bind_modify {A} (f : PackageExporter -> PackageExporter) (k : M A)
      (st : PackageExporter) :
  (modify f ;; k) st = k (f st).
Proof. reflexivity. Qed.

Section Closure_frame.

Context {PyObject : Type} (E : Env PyObject).
Context {B : Type} (field : PackageExporter -> B).
Hypothesis field_graph : forall g st, field (set_dependency_graph g st) = field st.
Hypothesis field_visited : forall v st, field (set_visited v st) = field st.

Lemma graph_add_node_keeps (n : string) (kw : node_attrs) :
  preserves (keeps field) (graph_add_node n kw).
Proof. intros st. apply field_graph. Qed.

Lemma graph_add_edge_keeps (u v : string) :
  preserves (keeps field) (graph_add_edge u v).
Proof. intros st. apply field_graph. Qed.

Lemma require_module_if_not_provided_with_keeps
      (save : string -> bool -> M unit) (module_name : string) (d : bool) :
  (forall n b, preserves (keeps field) (save n b)) ->
  preserves (keeps field) (require_module_if_not_provided_with E save module_name d).
Proof.
  intros Hs. unfold require_module_if_not_provided_with, require_module_with.
  apply preserves_bind; [apply keeps_trans | apply preserves_get, keeps_refl |].
  intros st0. destruct (_ || _); [apply preserves_ret, keeps_refl | apply Hs].
Qed.

Lemma dependencies_loop_keeps (save : string -> bool -> M unit)
      (module_name : string) (deps : list string) :
  (forall n b, preserves (keeps field) (save n b)) ->
  preserves (keeps field)
    (for_each deps (fun dep =>
       require_module_if_not_provided_with E save dep true ;;
       graph_add_edge module_name dep)).
Proof.
  intros Hs. apply preserves_for_each; [apply keeps_refl | apply keeps_trans |].
  intros dep. apply preserves_bind; [apply keeps_trans | |].
  - now apply require_module_if_not_provided_with_keeps.
  - intros _. apply graph_add_edge_keeps.
Qed.

Lemma _save_module_keeps (depth : nat) :
  forall module_name dependencies,
    preserves (keeps field) (_save_module E depth module_name dependencies).
Proof.
  induction depth as [| depth IH]; intros module_name dependencies; simpl.
  - apply preserves_diverge.
  - apply preserves_bind; [apply keeps_trans | |].
    { intros st. apply field_visited. }
    intros _. apply preserves_bind;
      [apply keeps_trans | apply _import_module_keeps |].
    intros m. apply preserves_bind;
      [apply keeps_trans | apply (_get_source_of_module_keeps E) |].
    intros source. apply preserves_bind;
      [apply keeps_trans | apply graph_add_node_keeps |].
    intros _. destruct dependencies; [| apply preserves_ret, keeps_refl].
    apply dependencies_loop_keeps. exact IH.
Qed.

End Closure_frame.

(** ** Rules added by [deny] *)

Lemma keeps_patterns_deny_rules (st st' : PackageExporter) :
  keeps patterns st st' -> keeps_deny_rules st st'.
Proof. unfold keeps, keeps_deny_rules, deny_rules_allow_empty. intros ->. auto. Qed.

Lemma append_rule_deny_rules (g : GlobGroup) (a : action) (allow_empty : bool) :
  (a = act_reject_denied_module -> allow_empty = true) ->
  preserves keeps_deny_rules (append_rule (g, a, allow_empty)).
Proof.
  intros Ha st Hinv g' ae Hin. simpl in Hin. apply in_app_iff in Hin.
  destruct Hin as [Hin | [[= <- Hd <-] | []]]; [eauto | now apply Ha].
Qed.

Lemma keeps_deny_rules_refl st : keeps_deny_rules st st.
Proof. intros H. exact H. Qed.

Lemma keeps_deny_rules_trans a b c :
  keeps_deny_rules a b -> keeps_deny_rules b c -> keeps_deny_rules a c.
Proof. intros H1 H2 H. apply H2, H1, H. Qed.

Lemma _filename_keeps {PyObject} (E : Env PyObject) {B}
      (f : PackageExporter -> B) (package resource : string) :
  preserves (keeps f) (_filename E package resource).
Proof.
  intros st. unfold _filename.
  destruct (_normalize_path E resource); reflexivity.
Qed.

Lemma _write_keeps_patterns {PyObject} (E : Env PyObject) (filename data : string) :
  preserves (keeps patterns) (_write E filename data).
Proof.
  intros st. unfold _write, bind, get, raise, modify.
  destruct (is_mangled E filename); [reflexivity |].
  destruct (zip_file st); reflexivity.
Qed.

Lemma _persistent_id_keeps_patterns {PyObject} (E : Env PyObject) (obj : Storage) :
  preserves (keeps patterns) (_persistent_id E obj).
Proof. intros st. reflexivity. Qed.

Lemma dependencies_keep_patterns {PyObject} (E : Env PyObject) (depth : nat)
      (module_name : string) (deps : list string) :
  preserves (keeps patterns)
    (for_each deps (fun dep =>
       require_module_if_not_provided E depth dep true ;;
       graph_add_edge module_name dep)).
Proof.
  apply (dependencies_loop_keeps E patterns); [reflexivity |].
  apply _save_module_keeps; reflexivity.
Qed.

(** After [save_source_string] and after [save_module] the table is the
    old one with the intern rule for the name in front. *)
Lemma save_source_string_patterns {PyObject} (E : Env PyObject) (depth : nat)
      (module_name src : string) (is_package dependencies : bool)
      (st : PackageExporter) :
  match save_source_string E depth module_name src is_package dependencies st with
  | Return _ st' | Raise _ st' =>
      patterns st' = (mkGlobGroup [module_name] [], act_save_intern_module, false)
                       :: patterns st
  | Diverge => True
  end.
Proof.
  unfold save_source_string, _implicit_intern. rewrite bind_modify.
  match goal with
  | |- match ?c ?s with _ => _ end =>
      assert (Hp : preserves (keeps patterns) c);
      [| specialize (Hp s); destruct (c s); try exact Hp; exact I]
  end.
  apply preserves_bind; [apply keeps_trans | |].
  - intros s. reflexivity.
  - intros _. destruct dependencies;
      [apply dependencies_keep_patterns | apply preserves_ret, keeps_refl].
Qed.

Lemma save_module_patterns {PyObject} (E : Env PyObject) (depth : nat)
      (module_name : string) (dependencies : bool) (st : PackageExporter) :
  match save_module E depth module_name dependencies st with
  | Return _ st' | Raise _ st' =>
      patterns st' = (mkGlobGroup [module_name] [], act_save_intern_module, false)
                       :: patterns st
  | Diverge => True
  end.
Proof.
  unfold save_module, _implicit_intern. rewrite bind_modify.
  match goal with
  | |- match ?c ?s with _ => _ end =>
      assert (Hp : preserves (keeps patterns) c);
      [| specialize (Hp s); destruct (c s); try exact Hp; exact I]
  end.
  apply _save_module_keeps; reflexivity.
Qed.

Lemma perform_deny_rules {PyObject} (E : Env PyObject) (depth : nat)
      (c : call PyObject) :
  preserves keeps_deny_rules (perform E depth c).
Proof.
  destruct c; simpl.
  - intros st.
    pose proof (save_source_string_patterns E depth module_name src0
                  is_package0 dependencies st) as Hp.
    destruct (save_source_string _ _ _ _ _ _ st) as [u st' | e st' |];
      try exact I;
      intros Hinv g ae Hin; rewrite Hp in Hin;
      (destruct Hin as [Hin | Hin]; [discriminate | eauto]).
  - intros st.
    pose proof (save_module_patterns E depth module_name dependencies st) as Hp.
    destruct (save_module _ _ _ _ st) as [u st' | e st' |];
      try exact I;
      intros Hinv g ae Hin; rewrite Hp in Hin;
      (destruct Hin as [Hin | Hin]; [discriminate | eauto]).
  - unfold save_pickle.
    apply preserves_bind; [apply keeps_deny_rules_trans | |].
    { eapply preserves_weaken;
        [apply keeps_patterns_deny_rules | apply _filename_keeps]. }
    intros filename. apply preserves_bind; [apply keeps_deny_rules_trans | |].
    { eapply preserves_weaken; [apply keeps_patterns_deny_rules |].
      apply preserves_map_M; [apply keeps_refl | apply keeps_trans |].
      apply _persistent_id_keeps_patterns. }
    intros pids. apply preserves_bind; [apply keeps_deny_rules_trans | |].
    { apply append_rule_deny_rules. discriminate. }
    intros _. apply preserves_bind; [apply keeps_deny_rules_trans | |].
    { eapply preserves_weaken; [apply keeps_patterns_deny_rules |].
      intros s. reflexivity. }
    intros _. apply preserves_bind; [apply keeps_deny_rules_trans | |].
    { eapply preserves_weaken; [apply keeps_patterns_deny_rules |].
      destruct dependencies; [| apply preserves_ret, keeps_refl].
      destruct (global_modules _ _);
        [apply preserves_raise, keeps_refl | apply dependencies_keep_patterns]. }
    intros _. eapply preserves_weaken;
      [apply keeps_patterns_deny_rules | apply _write_keeps_patterns].
  - eapply preserves_weaken; [apply keeps_patterns_deny_rules |].
    unfold save_text, save_binary.
    apply preserves_bind; [apply keeps_trans | apply _filename_keeps |].
    intros f. apply _write_keeps_patterns.
  - eapply preserves_weaken; [apply keeps_patterns_deny_rules |].
    unfold save_binary.
    apply preserves_bind; [apply keeps_trans | apply _filename_keeps |].
    intros f. apply _write_keeps_patterns.
  - apply append_rule_deny_rules. discriminate.
  - apply append_rule_deny_rules. discriminate.
  - apply append_rule_deny_rules. discriminate.
  - apply append_rule_deny_rules. reflexivity.
  - eapply preserves_weaken; [apply keeps_patterns_deny_rules |].
    intros s. reflexivity.
  - eapply preserves_weaken; [apply keeps_patterns_deny_rules |].
    intros s. reflexivity.
  - eapply preserves_weaken; [apply keeps_patterns_deny_rules |].
    intros s. reflexivity.
Qed.

Lemma script_deny_rules {PyObject} (E : Env PyObject) (depth : nat)
      (calls : list (call PyObject)) :
  match for_each calls (perform E depth) __init__ with
  | Return _ st | Raise _ st => deny_rules_allow_empty st
  | Diverge => True
  end.
Proof.
  assert (Hp : preserves keeps_deny_rules (for_each calls (perform E depth))).
  { apply preserves_for_each;
      [apply keeps_deny_rules_refl | apply keeps_deny_rules_trans |].
    intros c. apply perform_deny_rules. }
  specialize (Hp __init__).
  destruct (for_each calls (perform E depth) __init__); try exact I;
    apply Hp; intros g ae [].
Qed.

Lemma check_skips_deny_rule (pre post : list rule) (g : GlobGroup)
      (st : PackageExporter) :
  check_unmatched_patterns (pre ++ (g, act_reject_denied_module, true) :: post) st
  = check_unmatched_patterns (pre ++ post) st.
Proof.
  induction pre as [| [[p a] ae] pre IH]; simpl; [reflexivity |].
  unfold bind, get. destruct (negb ae && _); [reflexivity | exact IH].
Qed.

(** ** Empty-match enforcement (C4) *)

(** C4. When classification of all graph nodes has returned and left no
    node unclassified, a rule with [allow_empty = false] whose matcher is
    not in the matched set makes sealing raise EmptyMatchError, with
    nothing written.  A rule added by [deny] has [allow_empty = true],
    so has every deny rule of a table built by calls on a new exporter,
    and the check passes over such a rule as if it were not there. *)
Theorem empty_match_raises {PyObject} (E : Env PyObject)
        (st st1 : PackageExporter) :
  _match_patterns E st = Return tt st1 ->
  (forall n, In n (node_names (dependency_graph st1)) -> classified st1 n = true) ->
  (exists p a, In (p, a, false) (patterns st1) /\ ~ In p (matched_patterns st1)) ->
  (exists p a, In (p, a, false) (patterns st1)
               /\ ~ In p (matched_patterns st1)
               /\ close E st = Raise (EmptyMatchError p) st1
               /\ archive st1 = archive st)
  /\ (forall include exclude s,
         deny include exclude s
         = Return tt (set_patterns
                        (patterns s ++ [(mkGlobGroup include exclude,
                                         act_reject_denied_module, true)]) s))
  /\ (forall depth calls,
         match for_each calls (perform E depth) __init__ with
         | Return _ s | Raise _ s => deny_rules_allow_empty s
         | Diverge => True
         end)
  /\ (forall pre g post s,
         check_unmatched_patterns
           (pre ++ (g, act_reject_denied_module, true) :: post) s
         = check_unmatched_patterns (pre ++ post) s).
Proof.
  intros Hm Hall Hex.
  destruct (sealing_faults E st st1 Hm) as [Ha [_ He]].
  destruct (He Hall Hex) as [p [a [Hin [Hn [_ Hc]]]]].
  split; [| split; [| split]].
  - exists p, a. auto.
  - reflexivity.
  - intros depth calls. apply script_deny_rules.
  - intros pre g post s. apply check_skips_deny_rule.
Qed.

Lemma empty_match_raises_witness :
  let st := Demo.script Demo.world 3
              [call_extern ["never.*"] [] false;
               call_save_source_string "a" "x = 1" false false] in
  exists p a st1,
    In (p, a, false) (patterns st1)
    /\ close Demo.world st = Raise (EmptyMatchError p) st1.
Proof.
  intros st.
  destruct (empty_match_raises Demo.world st
              (Demo.state_of (_match_patterns Demo.world st)))
    as [[p [a [Hin [_ [Hc _]]]]] _].
  - vm_compute. reflexivity.
  - vm_compute. intros n [<- | []]. reflexivity.
  - exists (mkGlobGroup ["never.*"] []), act_save_extern_module.
    vm_compute. split; [auto |]. intros [H | []]. discriminate.
  - exists p, a, (Demo.state_of (_match_patterns Demo.world st)). split; assumption.
Defined.

(** ** Partition of the graph nodes (C1) *)

(** C1, as the code has it.  When sealing completes, every graph node is
    in one of the interned, mocked and externed tables; when the three
    tables are empty as sealing starts (nothing was put in them by a
    direct [save_intern_module], [save_mock_module] or
    [save_extern_module]), they are pairwise disjoint as well; and when
    classification leaves a node in none of them, sealing raises the
    unclassified-module error with the archive as it was. *)
Theorem sealing_partitions {PyObject} (E : Env PyObject) (st : PackageExporter) :
  (forall st', close E st = Return tt st' ->
     forall n, In n (node_names (dependency_graph st')) -> classified st' n = true)
  /\ (intern_modules st = [] -> extern_modules st = [] -> mock_modules st = [] ->
      forall st', close E st = Return tt st' ->
        forall x,
          ~ (In x (intern_modules st') /\ In x (mock_modules st'))
          /\ ~ (In x (intern_modules st') /\ In x (extern_modules st'))
          /\ ~ (In x (mock_modules st') /\ In x (extern_modules st')))
  /\ (forall st1, _match_patterns E st = Return tt st1 ->
        (exists n, In n (node_names (dependency_graph st1))
                   /\ classified st1 n = false) ->
        exists unmatched,
          close E st = Raise (RuntimeError_unmatched unmatched) st1
          /\ archive st1 = archive st).
Proof.
  split; [| split].
  - intros st' Hc n Hn.
    destruct (close_returns E st st' Hc) as [st1 [Hm [Hall [_ Hk]]]].
    unfold keeps, policy_part in Hk. inversion Hk as [[Hi He Hmo Hg Hp Hma]].
    rewrite Hg in Hn. specialize (Hall n Hn).
    unfold classified in *. now rewrite Hi, He, Hmo.
  - intros Hi0 He0 Hm0 st' Hc x.
    destruct (close_returns E st st' Hc) as [st1 [Hm [_ [_ Hk]]]].
    unfold keeps, policy_part in Hk. inversion Hk as [[Hi He Hmo Hg Hp Hma]].
    rewrite Hi, He, Hmo.
    rewrite _match_patterns_loop in Hm.
    pose proof (classification_loop E (node_names (dependency_graph st)) st) as Hl.
    rewrite Hm in Hl. destruct Hl as [_ [Ht _]].
    assert (Hd : forall a, a <> act_reject_denied_module ->
                   In x (table a st1) ->
                   decided_action E (patterns st) x = Some a).
    { intros a Ha Hin. apply (Ht a x Ha) in Hin.
      destruct Hin as [Hin | [_ Hin]]; [| exact Hin].
      destruct a; simpl in Hin;
        rewrite ?Hi0, ?He0, ?Hm0 in Hin; destruct Hin. }
    pose proof (Hd act_save_intern_module) as Dint.
    pose proof (Hd act_save_mock_module) as Dmock.
    pose proof (Hd act_save_extern_module) as Dext.
    simpl in Dint, Dmock, Dext.
    repeat split; intros [H1 H2].
    + specialize (Dint ltac:(discriminate) H1).
      specialize (Dmock ltac:(discriminate) H2). congruence.
    + specialize (Dint ltac:(discriminate) H1).
      specialize (Dext ltac:(discriminate) H2). congruence.
    + specialize (Dmock ltac:(discriminate) H1).
      specialize (Dext ltac:(discriminate) H2). congruence.
  - intros st1 Hm Hex.
    destruct (sealing_faults E st st1 Hm) as [Ha [Hu _]].
    destruct (Hu Hex) as [unmatched [_ Hc]].
    exists unmatched. auto.
Qed.

Lemma sealing_partitions_witness :
  let st := Demo.script Demo.world 3
              [call_mock ["b"] [] true;
               call_save_source_string "a" "import b" false true] in
  exists st', close Demo.world st = Return tt st'
              /\ classified st' "a" = true /\ classified st' "b" = true
              /\ ~ (In "b" (intern_modules st') /\ In "b" (mock_modules st')).
Proof.
  intros st. exists (Demo.state_of (close Demo.world st)).
  assert (Hc : close Demo.world st
               = Return tt (Demo.state_of (close Demo.world st)))
    by (vm_compute; reflexivity).
  split; [exact Hc |].
  split; [reflexivity |]. split; [reflexivity |].
  refine (proj1 (proj1 (proj2 (sealing_partitions Demo.world st)) _ _ _ _ Hc "b")).
  - reflexivity.
  - reflexivity.
  - reflexivity.
Defined.

(** A name put in the externed table directly and then saved as source
    is both externed and interned when sealing completes. *)
Lemma direct_save_extern_module_overlaps :
  exists st',
    export Demo.world 3
      [call_save_extern_module "a";
       call_save_source_string "a" "x = 1" false false] = Return tt st'
    /\ node_names (dependency_graph st') = ["a"]
    /\ In "a" (intern_modules st')
    /\ In "a" (extern_modules st')
    /\ archive st' = [("a.py", "x = 1", 5);
                      (".data/extern_modules", ("a" ++ Str.nl)%string, 2)].
Proof.
  eexists. split; [vm_compute; reflexivity |].
  simpl. auto.
Qed.

(** ** The intern rule of a saved name that is implicitly externed (C10) *)

Lemma literal_root_match (pattern n : string) :
  Str.partition_head "." pattern <> "*" ->
  Str.partition_head "." pattern <> "**" ->
  Glob.glob_matches pattern n = true ->
  Str.partition_head "." n = Str.partition_head "." pattern.
Proof.
  intros H1 H2. unfold Glob.glob_matches, Glob.compile.
  destruct (split_head "." pattern) as [t Ht]. rewrite Ht.
  destruct (split_head "." n) as [t' Ht']. rewrite Ht'.
  simpl map. unfold Glob.parse_component at 1.
  destruct (String.eqb_spec (Str.partition_head "." pattern) "**") as [e | _];
    [contradiction |].
  destruct (String.eqb_spec (Str.partition_head "." pattern) "*") as [e | _];
    [contradiction |].
  simpl. intros H. apply andb_true_iff in H. destruct H as [H _].
  apply String.eqb_eq in H. now symmetry.
Qed.

Lemma exact_matcher_root (module_name n : string) :
  Str.partition_head "." module_name <> "*" ->
  Str.partition_head "." module_name <> "**" ->
  matches (mkGlobGroup [module_name] []) n = true ->
  Str.partition_head "." n = Str.partition_head "." module_name.
Proof.
  intros H1 H2 Hm. unfold matches in Hm. simpl in Hm.
  rewrite orb_false_r, andb_true_r in Hm.
  now apply literal_root_match.
Qed.

(** C10. [save_source_string] and [save_module] put the rule
    (GlobGroup(name), intern, allow_empty = False) in front of the
    table.  When the name is implicitly externed, classification never
    records that rule's matcher, so sealing cannot complete: once all
    nodes are classified it raises EmptyMatchError. *)
Theorem implicit_intern_never_matched {PyObject} (E : Env PyObject)
        (depth : nat) (module_name : string) :
  let implicit_rule :=
    (mkGlobGroup [module_name] [], act_save_intern_module, false) in
  (forall src is_package dependencies st,
      match save_source_string E depth module_name src is_package dependencies st with
      | Return _ st' | Raise _ st' => patterns st' = implicit_rule :: patterns st
      | Diverge => True
      end)
  /\ (forall dependencies st,
         match save_module E depth module_name dependencies st with
         | Return _ st' | Raise _ st' => patterns st' = implicit_rule :: patterns st
         | Diverge => True
         end)
  /\ (forall st,
         In implicit_rule (patterns st) ->
         ~ In (mkGlobGroup [module_name] []) (matched_patterns st) ->
         _can_implicitly_extern E module_name = true ->
         Str.partition_head "." module_name <> "*" ->
         Str.partition_head "." module_name <> "**" ->
         (forall st1, _match_patterns E st = Return tt st1 ->
                      ~ In (mkGlobGroup [module_name] []) (matched_patterns st1))
         /\ (forall st', close E st <> Return tt st')
         /\ (forall st1,
                _match_patterns E st = Return tt st1 ->
                (forall n, In n (node_names (dependency_graph st1)) ->
                           classified st1 n = true) ->
                exists p, close E st = Raise (EmptyMatchError p) st1
                          /\ archive st1 = archive st)).
Proof.
  intros implicit_rule. split; [| split].
  - intros. apply save_source_string_patterns.
  - intros. apply save_module_patterns.
  - intros st Hin Hnot Himp Hs1 Hs2.
    assert (Hnever : forall st1, _match_patterns E st = Return tt st1 ->
                       ~ In (mkGlobGroup [module_name] []) (matched_patterns st1)
                       /\ patterns st1 = patterns st).
    { intros st1 Hm. rewrite _match_patterns_loop in Hm.
      pose proof (classification_loop E (node_names (dependency_graph st)) st) as Hl.
      rewrite Hm in Hl. destruct Hl as [Hk [_ [Hg _]]].
      split; [| now apply unclassified_part_patterns].
      intros Hg1. apply Hg in Hg1.
      destruct Hg1 as [Hg1 | [n [r [_ [Hn [Hfm Hr]]]]]]; [contradiction |].
      apply first_match_accepts in Hfm. destruct Hfm as [_ Hacc].
      rewrite Hr in Hacc.
      apply exact_matcher_root in Hacc; try assumption.
      rewrite Hacc, _can_implicitly_extern_root in Hn. congruence. }
    split; [| split].
    + intros st1 Hm. now apply Hnever.
    + intros st' Hc.
      destruct (close_returns E st st' Hc) as [st1 [Hm [_ [Hall _]]]].
      destruct (Hnever st1 Hm) as [Hn Hp].
      apply Hn. apply (Hall _ act_save_intern_module). now rewrite Hp.
    + intros st1 Hm Hall.
      destruct (Hnever st1 Hm) as [Hn Hp].
      destruct (sealing_faults E st st1 Hm) as [Ha [_ He]].
      destruct (He Hall) as [p [a [_ [_ [_ Hc]]]]].
      * exists (mkGlobGroup [module_name] []), act_save_intern_module.
        split; [now rewrite Hp | exact Hn].
      * exists p. auto.
Qed.

Lemma implicit_intern_never_matched_witness :
  let st := Demo.script Demo.world 3 [call_save_module "os" true] in
  exists p st1, close Demo.world st = Raise (EmptyMatchError p) st1
                /\ In "os" (extern_modules st1).
Proof.
  intros st.
  destruct (proj2 (proj2 (implicit_intern_never_matched Demo.world 3 "os")) st)
    as [_ [_ H]].
  - vm_compute. auto.
  - vm_compute. intros [].
  - reflexivity.
  - vm_compute. discriminate.
  - vm_compute. discriminate.
  - destruct (H (Demo.state_of (_match_patterns Demo.world st))) as [p [Hc _]].
    + vm_compute. reflexivity.
    + vm_compute. intros n [<- | []]. reflexivity.
    + exists p, (Demo.state_of (_match_patterns Demo.world st)).
      split; [exact Hc |]. vm_compute. auto.
Defined.

(** ** The pickle dependency probe (C7) *)

Lemma no_space_split (s : string) : no_space s -> Str.split " " s = [s].
Proof.
  unfold no_space. induction s as [| a r IH]; simpl; [reflexivity |].
  destruct (Ascii.eqb a " "); [discriminate |].
  intros [= H]. now rewrite (IH H).
Qed.

Lemma module_symbol_split (module symbol : string) :
  no_space module -> no_space symbol ->
  Str.split " " (module ++ " " ++ symbol) = [module; symbol].
Proof.
  unfold no_space at 1. intros Hm Hs.
  induction module as [| a r IH]; simpl.
  - now rewrite (no_space_split symbol Hs).
  - simpl in Hm. destruct (Ascii.eqb a " "); [discriminate |].
    injection Hm as Hm. specialize (IH Hm). simpl in IH. now rewrite IH.
Qed.

Lemma module_symbol_head (module symbol : string) :
  no_space module ->
  Str.partition_head " " (module ++ " " ++ symbol) = module.
Proof.
  unfold no_space. induction module as [| a r IH]; simpl; [reflexivity |].
  destruct (Ascii.eqb a " "); [discriminate |].
  intros [= H]. specialize (IH H). simpl in IH. now rewrite IH.
Qed.

Lemma filter_twice (f g h : string -> bool) (l : list string) :
  (forall x, h x = g x && f x) ->
  filter f (filter g l) = filter h l.
Proof.
  intros Hh. induction l as [| x l IH]; simpl; [reflexivity |].
  rewrite (Hh x). destruct (g x); simpl; [| exact IH].
  destruct (f x); now rewrite IH.
Qed.

(** Appending the modules not seen yet, one after the other, gives the
    first occurrences of those that are new. *)
Lemma append_unseen (modules acc : list string) :
  fold_left (fun acc m => if Str.mem m acc then acc else acc ++ [m]) modules acc
  = acc ++ filter (fun y => negb (Str.mem y acc)) (first_occurrences modules).
Proof.
  revert acc. induction modules as [| m r IH]; intros acc; simpl.
  - now rewrite app_nil_r.
  - destruct (Str.mem m acc) eqn:Hm; simpl.
    + rewrite IH. f_equal. symmetry. apply filter_twice.
      intros x. destruct (String.eqb_spec m x) as [<- | Hne]; simpl.
      * now rewrite Hm.
      * reflexivity.
    + rewrite IH, <- app_assoc. simpl. f_equal. f_equal.
      symmetry. apply filter_twice.
      intros x. unfold Str.mem. rewrite existsb_app. simpl.
      rewrite orb_false_r, negb_orb.
      rewrite (String.eqb_sym x m). apply andb_comm.
Qed.

Lemma first_occurrences_In (l : list string) (x : string) :
  In x (first_occurrences l) <-> In x l.
Proof.
  induction l as [| y l IH]; simpl; [tauto |].
  rewrite filter_In, IH, negb_true_iff, String.eqb_neq.
  destruct (string_dec y x); intuition.
Qed.

Lemma first_occurrences_NoDup (l : list string) : NoDup (first_occurrences l).
Proof.
  induction l as [| y l IH]; simpl; constructor.
  - rewrite filter_In, negb_true_iff, String.eqb_neq. tauto.
  - now apply NoDup_filter.
Qed.

(** C7. For an opcode stream in which every GLOBAL argument has the
    form "<module> <qualified_symbol>", the probe of [save_pickle]
    returns the modules (the text before the first space of each GLOBAL
    argument), each once, in the order of their first occurrence; it is
    a function of the opcode stream alone. *)
Theorem pickle_probe_modules (ops : list opcode) :
  (forall arg, In arg (global_args ops) ->
     exists module symbol,
       arg = Some (module ++ " " ++ symbol)%string
       /\ no_space module /\ no_space symbol) ->
  let modules :=
    map (fun arg => match arg with
                    | Some a => Str.partition_head " " a
                    | None => ""
                    end) (global_args ops) in
  global_modules ops [] = inr (first_occurrences modules)
  /\ NoDup (first_occurrences modules)
  /\ (forall m, In m (first_occurrences modules) <-> In m modules).
Proof.
  intros Hwf modules.
  split; [| split; [apply first_occurrences_NoDup | apply first_occurrences_In]].
  assert (Hacc : forall acc,
             global_modules ops acc
             = inr (fold_left (fun acc m => if Str.mem m acc then acc else acc ++ [m])
                              modules acc)).
  { subst modules. induction ops as [| [[name arg] pos] ops IH]; intros acc;
      simpl in *; [reflexivity |].
    destruct (String.eqb name "GLOBAL"); [| now apply IH].
    destruct (Hwf arg (or_introl eq_refl)) as [m [s [-> [Hm Hs]]]].
    pose proof (module_symbol_split m s Hm Hs) as Hsp.
    pose proof (module_symbol_head m s Hm) as Hh.
    simpl in Hsp, Hh |- *. rewrite Hsp, Hh.
    apply IH. intros a Ha. apply Hwf. now right. }
  rewrite Hacc, append_unseen. simpl.
  f_equal. clear. induction (first_occurrences modules) as [| x l IH];
    simpl; [reflexivity | now rewrite IH].
Qed.

Lemma pickle_probe_modules_witness :
  global_modules [("PROTO", Some "3", 0); ("GLOBAL", Some "a Net", 2);
                  ("BINPERSID", None, 9); ("GLOBAL", Some "b Foo", 10);
                  ("GLOBAL", Some "a Other", 17); ("STOP", None, 26)] []
  = inr ["a"; "b"].
Proof.
  refine (proj1 (pickle_probe_modules _ _)).
  simpl. intros arg [<- | [<- | [<- | []]]].
  - exists "a", "Net". repeat split; reflexivity.
  - exists "b", "Foo". repeat split; reflexivity.
  - exists "a", "Other". repeat split; reflexivity.
Defined.

(** ** Scanned import pairs (C9) *)

Lemma dict_set_NoDup (k : string) (d : list string) :
  NoDup d -> NoDup (dict_set k d).
Proof.
  intros Hd. unfold dict_set. destruct (Str.mem k d) eqn:Hk; [exact Hd |].
  apply mem_false in Hk. apply NoDup_app; [exact Hd | repeat constructor; auto |].
  intros x Hx [<- | []]. contradiction.
Qed.

Lemma _get_dependencies_pairs {PyObject} (E : Env PyObject)
      (src module_name : string) (is_package : bool) :
  _get_dependencies E src module_name is_package
  = fold_left (fun dependencies pair =>
                 match pair_dependency E pair with
                 | Some d => dict_set d dependencies
                 | None => dependencies
                 end)
              (find_files_source_depends_on E src
                 (if is_package then module_name
                  else Str.rsplit1_head "." module_name))
              [].
Proof.
  unfold _get_dependencies.
  generalize (@nil string).
  induction (find_files_source_depends_on E src _) as [| [pkg trailing] l IH];
    intros acc; simpl; [reflexivity |].
  rewrite IH. f_equal.
  destruct trailing as [sub |]; simpl.
  - destruct (_module_exists E (pkg ++ String "." sub)); [reflexivity |].
    destruct (_module_exists E pkg); reflexivity.
  - destruct (_module_exists E pkg); reflexivity.
Qed.

Lemma pair_fold_In {PyObject} (E : Env PyObject)
      (pairs : list (string * option string)) :
  forall acc d,
    In d (fold_left (fun dependencies pair =>
                       match pair_dependency E pair with
                       | Some d => dict_set d dependencies
                       | None => dependencies
                       end) pairs acc)
    <-> In d acc \/ exists pair, In pair pairs /\ pair_dependency E pair = Some d.
Proof.
  induction pairs as [| pair pairs IH]; intros acc d; simpl.
  - split; [now left | intros [H | [p [[] _]]]; exact H].
  - rewrite IH. destruct (pair_dependency E pair) as [d' |] eqn:Hp.
    + rewrite dict_set_In. split.
      * intros [[-> | H] | [p [H1 H2]]]; eauto.
      * intros [H | [p [[<- | H1] H2]]]; eauto.
        left. left. congruence.
    + split.
      * intros [H | [p [H1 H2]]]; eauto.
      * intros [H | [p [[<- | H1] H2]]]; eauto. congruence.
Qed.

Lemma pair_fold_NoDup {PyObject} (E : Env PyObject)
      (pairs : list (string * option string)) :
  forall acc, NoDup acc ->
    NoDup (fold_left (fun dependencies pair =>
                        match pair_dependency E pair with
                        | Some d => dict_set d dependencies
                        | None => dependencies
                        end) pairs acc).
Proof.
  induction pairs as [| pair pairs IH]; intros acc Hacc; simpl; [exact Hacc |].
  apply IH. destruct (pair_dependency E pair); [now apply dict_set_NoDup | exact Hacc].
Qed.

(** C9, as the code has it.  A name is recorded exactly when some
    scanned pair contributes it: a pair (pkg, sub) whose pkg.sub the
    importer resolves contributes pkg.sub and not pkg; every other pair
    contributes pkg, and only when the importer resolves pkg; a pair of
    which neither resolves contributes nothing.  The result has no
    duplicates. *)
Theorem scanned_pair_dependency {PyObject} (E : Env PyObject)
        (src module_name : string) (is_package : bool) :
  let package_name :=
    if is_package then module_name else Str.rsplit1_head "." module_name in
  let dep_pairs := find_files_source_depends_on E src package_name in
  let deps := _get_dependencies E src module_name is_package in
  (forall d, In d deps <->
     exists pkg trailing,
       In (pkg, trailing) dep_pairs
       /\ ((exists sub, trailing = Some sub
                        /\ _module_exists E (pkg ++ "." ++ sub) = true
                        /\ d = (pkg ++ "." ++ sub)%string)
           \/ ((trailing = None
                \/ exists sub, trailing = Some sub
                               /\ _module_exists E (pkg ++ "." ++ sub) = false)
               /\ _module_exists E pkg = true /\ d = pkg)))
  /\ NoDup deps
  /\ (forall pkg sub, In (pkg, Some sub) dep_pairs ->
        (_module_exists E (pkg ++ "." ++ sub) = true ->
         In (pkg ++ "." ++ sub)%string deps)
        /\ (_module_exists E (pkg ++ "." ++ sub) = false ->
            _module_exists E pkg = true -> In pkg deps)).
Proof.
  intros package_name dep_pairs deps.
  assert (Hiff : forall d, In d deps <->
                   exists pair, In pair dep_pairs /\ pair_dependency E pair = Some d).
  { intros d. unfold deps. rewrite _get_dependencies_pairs, pair_fold_In.
    fold package_name. fold dep_pairs. simpl. tauto. }
  split; [| split].
  - intros d. rewrite Hiff. split.
    + intros [[pkg trailing] [Hin Hp]]. exists pkg, trailing.
      split; [exact Hin |]. unfold pair_dependency in Hp.
      destruct trailing as [sub |].
      * destruct (_module_exists E (pkg ++ "." ++ sub)) eqn:H1.
        -- left. exists sub. injection Hp as <-. auto.
        -- destruct (_module_exists E pkg) eqn:H2; [| discriminate].
           right. injection Hp as <-. split; [| auto].
           right. exists sub. auto.
      * destruct (_module_exists E pkg) eqn:H2; [| discriminate].
        right. injection Hp as <-. auto.
    + intros [pkg [trailing [Hin Hc]]]. exists (pkg, trailing).
      split; [exact Hin |]. unfold pair_dependency.
      destruct Hc as [[sub [-> [H1 ->]]] | [[-> | [sub [-> H1]]] [H2 ->]]].
      * now rewrite H1.
      * now rewrite H2.
      * now rewrite H1, H2.
  - unfold deps. rewrite _get_dependencies_pairs.
    apply pair_fold_NoDup. constructor.
  - intros pkg sub Hin. split.
    + intros H1. apply Hiff. exists (pkg, Some sub).
      split; [exact Hin |]. unfold pair_dependency. now rewrite H1.
    + intros H1 H2. apply Hiff. exists (pkg, Some sub).
      split; [exact Hin |]. unfold pair_dependency. now rewrite H1, H2.
Qed.

(** A scanned pair of which the importer resolves neither pkg.sub nor
    pkg records nothing, not pkg. *)
Lemma unresolved_pair_records_nothing :
  find_files_source_depends_on Demo.world "from pkg import sub" "m"
  = [("pkg", Some "sub")]
  /\ _module_exists Demo.world "pkg.sub" = false
  /\ _get_dependencies Demo.world "from pkg import sub" "m" false = []
  /\ ~ In "pkg" (_get_dependencies Demo.world "from pkg import sub" "m" false).
Proof.
  repeat split. intros [].
Qed.

(** ** Pickle-key nodes (C8) *)

(** The interned loop writes nothing for a node marked [is_pickle]. *)
Lemma write_intern_skips_pickle {PyObject} (E : Env PyObject)
      (module_name : string) (attrs : node_attrs) (st : PackageExporter) :
  node_lookup module_name (nodes (dependency_graph st)) = Some attrs ->
  is_pickle attrs = Some true ->
  write_intern E module_name st = Return tt st.
Proof.
  intros Hl Hp. unfold write_intern, bind, get. now rewrite Hl, Hp.
Qed.

(** C8 at [extern("**")] followed by [save_pickle("pkg", "res", obj)]:
    the intern rule of the pickle key comes after the user's rule, the
    node is externed, not interned, and its name is written to the
    manifest of extern modules. *)
Theorem pickle_node_taken_by_earlier_rule :
  exists st',
    export Demo.world 3
      [call_extern ["**"] [] true;
       call_save_pickle "pkg" "res" Demo.model false] = Return tt st'
    /\ node_lookup "<pkg.res>" (nodes (dependency_graph st'))
       = Some (mkAttrs None None (Some true))
    /\ patterns st'
       = [(mkGlobGroup ["**"] [], act_save_extern_module, true);
          (mkGlobGroup ["<pkg.res>"] [], act_save_intern_module, true)]
    /\ intern_modules st' = []
    /\ extern_modules st' = ["<pkg.res>"]
    /\ In (".data/extern_modules", ("<pkg.res>" ++ Str.nl)%string, 10)
          (archive st').
Proof.
  eexists. split; [vm_compute; reflexivity |].
  repeat split. simpl. auto.
Qed.

(** ** Determinism of the archive (C5) *)

(** Two runs of one script in worlds that differ only in where the
    storage lives: the storage record and the pickle carry the address. *)
Lemma storage_key_is_the_address :
  (forall n, import_module Demo.world n = import_module Demo.world_again n)
  /\ (forall s p, find_files_source_depends_on Demo.world s p
                  = find_files_source_depends_on Demo.world_again s p)
  /\ archive_of (export Demo.world 3
                   [call_intern ["**"] [] true;
                    call_save_pickle "pkg" "res" Demo.model true])
     = Some [("pkg/res", ("4096" ++ Str.nl ++ "a Net")%string, 10);
             ("a.py", "import b", 8); ("b.py", "import a", 8);
             (".data/extern_modules", Str.nl, 1);
             (".data/4096.storage", "abcdefgh", 8)]
  /\ archive_of (export Demo.world_again 3
                   [call_intern ["**"] [] true;
                    call_save_pickle "pkg" "res" Demo.model true])
     = Some [("pkg/res", ("8192" ++ Str.nl ++ "a Net")%string, 10);
             ("a.py", "import b", 8); ("b.py", "import a", 8);
             (".data/extern_modules", Str.nl, 1);
             (".data/8192.storage", "abcdefgh", 8)]
  /\ archive_of (export Demo.world 3
                   [call_intern ["**"] [] true;
                    call_save_pickle "pkg" "res" Demo.model true])
     <> archive_of (export Demo.world_again 3
                      [call_intern ["**"] [] true;
                       call_save_pickle "pkg" "res" Demo.model true]).
Proof.
  split; [reflexivity |]. split; [reflexivity |].
  split; [vm_compute; reflexivity |]. split; [vm_compute; reflexivity |].
  vm_compute. discriminate.
Qed.

Lemma agree_refl {A} (c : M A) : agree c c.
Proof. intros st. reflexivity. Qed.

Lemma agree_bind {A B} (c1 c2 : M A) (k1 k2 : A -> M B) :
  agree c1 c2 -> (forall a, agree (k1 a) (k2 a)) -> agree (bind c1 k1) (bind c2 k2).
Proof.
  intros Hc Hk st. unfold bind. rewrite (Hc st).
  destruct (c2 st); [apply Hk | reflexivity | reflexivity].
Qed.

Lemma agree_for_each {A} (l : list A) (b1 b2 : A -> M unit) :
  (forall x, agree (b1 x) (b2 x)) -> agree (for_each l b1) (for_each l b2).
Proof.
  intros Hb. induction l as [| x l IH]; simpl; [apply agree_refl |].
  apply agree_bind; [apply Hb | intros _; exact IH].
Qed.

Lemma agree_map_M {A B} (l : list A) (f1 f2 : A -> M B) :
  (forall x, agree (f1 x) (f2 x)) -> agree (map_M f1 l) (map_M f2 l).
Proof.
  intros Hf. induction l as [| x l IH]; simpl; [apply agree_refl |].
  apply agree_bind; [apply Hf | intros y].
  apply agree_bind; [exact IH | intros ys; apply agree_refl].
Qed.

Lemma agree_for_each_In {A} (l : list A) (b1 b2 : A -> M unit) :
  (forall x, In x l -> agree (b1 x) (b2 x)) ->
  agree (for_each l b1) (for_each l b2).
Proof.
  intros Hb. induction l as [| x l IH]; simpl; [apply agree_refl |].
  apply agree_bind; [apply Hb; now left | intros _].
  apply IH. intros y Hy. apply Hb. now right.
Qed.

Lemma agree_map_M_In {A B} (l : list A) (f1 f2 : A -> M B) :
  (forall x, In x l -> agree (f1 x) (f2 x)) ->
  agree (map_M f1 l) (map_M f2 l).
Proof.
  intros Hf. induction l as [| x l IH]; simpl; [apply agree_refl |].
  apply agree_bind; [apply Hf; now left | intros y].
  apply agree_bind; [| intros ys; apply agree_refl].
  apply IH. intros z Hz. apply Hf. now right.
Qed.

Lemma bind_get {A} (k : PackageExporter -> M A) (st : PackageExporter) :
  (st0 <- get ;; k st0) st = k st st.
Proof. reflexivity. Qed.

Lemma fold_left_ext {A B} (f g : A -> B -> A) (l : list B) (a : A) :
  (forall x y, f x y = g x y) -> fold_left f l a = fold_left g l a.
Proof.
  intros H. revert a. induction l as [| y l IH]; intros a; simpl;
    [reflexivity | now rewrite H, IH].
Qed.

Section Same_answers.

Context {PyObject : Type} (E1 E2 : Env PyObject).
Hypothesis same : same_answers E1 E2.

Lemma _import_module_agree (n : string) :
  agree (_import_module E1 n) (_import_module E2 n).
Proof. intros st. unfold _import_module. now rewrite (same_import _ _ same). Qed.

Lemma _module_exists_agree (n : string) :
  _module_exists E1 n = _module_exists E2 n.
Proof. unfold _module_exists. now rewrite (same_import _ _ same). Qed.

Lemma _get_dependencies_agree (src module_name : string) (is_package : bool) :
  _get_dependencies E1 src module_name is_package
  = _get_dependencies E2 src module_name is_package.
Proof.
  rewrite !_get_dependencies_pairs, (same_scan _ _ same).
  apply fold_left_ext. intros acc [pkg [sub |]]; unfold pair_dependency;
    now rewrite !_module_exists_agree.
Qed.

Lemma _can_implicitly_extern_agree (n : string) :
  _can_implicitly_extern E1 n = _can_implicitly_extern E2 n.
Proof. unfold _can_implicitly_extern. now rewrite (same_stdlib _ _ same). Qed.

Lemma _write_agree (filename data : string) :
  agree (_write E1 filename data) (_write E2 filename data).
Proof. intros st. unfold _write. now rewrite (same_mangled _ _ same). Qed.

Lemma _write_source_string_agree (n s : string) (p : bool) :
  agree (_write_source_string E1 n s p) (_write_source_string E2 n s p).
Proof. apply _write_agree. Qed.

Lemma _filename_agree (package resource : string) :
  agree (_filename E1 package resource) (_filename E2 package resource).
Proof. intros st. unfold _filename. now rewrite (same_normalize _ _ same). Qed.

Lemma do_match_agree (n : string) : agree (do_match E1 n) (do_match E2 n).
Proof. intros st. unfold do_match. now rewrite _can_implicitly_extern_agree. Qed.

Lemma _match_patterns_agree : agree (_match_patterns E1) (_match_patterns E2).
Proof.
  apply agree_bind; [apply agree_refl | intros st0].
  apply agree_for_each, do_match_agree.
Qed.

Lemma write_mock_agree (n : string) : agree (write_mock E1 n) (write_mock E2 n).
Proof.
  apply agree_bind; [apply _import_module_agree | intros m].
  apply _write_source_string_agree.
Qed.

Lemma write_intern_agree (n : string) :
  agree (write_intern E1 n) (write_intern E2 n).
Proof.
  apply agree_bind; [apply agree_refl | intros st0].
  destruct (node_lookup n (nodes (dependency_graph st0))) as [attrs |];
    [| apply agree_refl].
  assert (Hrest : agree
            match src attrs with
            | Some source =>
                match is_package attrs with
                | Some is_package => _write_source_string E1 n source is_package
                | None => raise (KeyError "is_package")
                end
            | None =>
                module_obj <- _import_module E1 n ;;
                source <- _get_source_of_module module_obj ;;
                _write_source_string E1 n source (has_path module_obj)
            end
            match src attrs with
            | Some source =>
                match is_package attrs with
                | Some is_package => _write_source_string E2 n source is_package
                | None => raise (KeyError "is_package")
                end
            | None =>
                module_obj <- _import_module E2 n ;;
                source <- _get_source_of_module module_obj ;;
                _write_source_string E2 n source (has_path module_obj)
            end).
  { destruct (src attrs).
    - destruct (is_package attrs);
        [apply _write_source_string_agree | apply agree_refl].
    - apply agree_bind; [apply _import_module_agree | intros m].
      apply agree_bind; [apply agree_refl | intros s].
      apply _write_source_string_agree. }
  destruct (is_pickle attrs) as [[|] |]; [apply agree_refl | exact Hrest | exact Hrest].
Qed.

(** Emission: the empty-match check and the writes of
    [_compute_patterns], for the tables of [s]. *)
Lemma emission_agree (s : PackageExporter) :
  agree
    (check_unmatched_patterns (patterns s) ;;
     (if negb (Nat.eqb (length (mock_modules s)) 0)
      then _write_source_string E1 "_mock" (mock_file E1) false
      else ret tt) ;;
     for_each (mock_modules s) (write_mock E1) ;;
     for_each (intern_modules s) (write_intern E1) ;;
     _write E1 ".data/extern_modules"
       (String.concat Str.nl (extern_modules s) ++ Str.nl)%string)
    (check_unmatched_patterns (patterns s) ;;
     (if negb (Nat.eqb (length (mock_modules s)) 0)
      then _write_source_string E2 "_mock" (mock_file E2) false
      else ret tt) ;;
     for_each (mock_modules s) (write_mock E2) ;;
     for_each (intern_modules s) (write_intern E2) ;;
     _write E2 ".data/extern_modules"
       (String.concat Str.nl (extern_modules s) ++ Str.nl)%string).
Proof.
  apply agree_bind; [apply agree_refl | intros _].
  apply agree_bind.
  { destruct (negb _); [| apply agree_refl].
    rewrite (same_mock_file _ _ same). apply _write_source_string_agree. }
  intros _. apply agree_bind; [apply agree_for_each, write_mock_agree | intros _].
  apply agree_bind; [apply agree_for_each, write_intern_agree | intros _].
  apply _write_agree.
Qed.

Lemma alike_refl (o : outcome unit) : alike E1 E2 o o.
Proof. destruct o; simpl; auto. Qed.

Lemma alike_archive (o1 o2 : outcome unit) :
  alike E1 E2 o1 o2 -> archive_of o1 = archive_of o2.
Proof.
  destruct o1, o2; simpl; try contradiction; try reflexivity.
  - now intros ->.
  - now intros [-> _].
Qed.

Lemma bind_alike (c1 c2 : M unit) (k1 k2 : unit -> M unit)
      (st : PackageExporter) :
  alike E1 E2 (c1 st) (c2 st) ->
  (forall s, alike E1 E2 (k1 tt s) (k2 tt s)) ->
  alike E1 E2 (bind c1 k1 st) (bind c2 k2 st).
Proof.
  unfold bind. intros Hc Hk.
  destruct (c1 st) as [[] s1 | e1 s1 |], (c2 st) as [[] s2 | e2 s2 |];
    simpl in *; try contradiction; auto.
  subst. apply Hk.
Qed.

(** The one place where the order of a set shows. *)
Lemma _compute_patterns_alike (st : PackageExporter) :
  alike E1 E2 (_compute_patterns E1 st) (_compute_patterns E2 st).
Proof.
  unfold _compute_patterns. apply bind_alike.
  { rewrite (_match_patterns_agree st). apply alike_refl. }
  intros s. rewrite !bind_get. cbv zeta.
  destruct (negb (Nat.eqb (length _) 0)).
  - simpl. split; [reflexivity |]. right. eexists. split; reflexivity.
  - pose proof (emission_agree s s) as H. unfold agree in H.
    rewrite H. apply alike_refl.
Qed.

Lemma close_alike (st : PackageExporter) :
  alike E1 E2 (close E1 st) (close E2 st).
Proof.
  unfold close. apply bind_alike; [apply _compute_patterns_alike |].
  intros s. apply alike_refl.
Qed.

Lemma require_module_if_not_provided_with_agree
      (save1 save2 : string -> bool -> M unit) (n : string) (d : bool) :
  (forall m b, agree (save1 m b) (save2 m b)) ->
  agree (require_module_if_not_provided_with E1 save1 n d)
        (require_module_if_not_provided_with E2 save2 n d).
Proof.
  intros Hs. apply agree_bind; [apply agree_refl | intros st0].
  rewrite _can_implicitly_extern_agree.
  destruct (_ || _); [apply agree_refl | apply Hs].
Qed.

Lemma dependencies_loop_agree (save1 save2 : string -> bool -> M unit)
      (module_name : string) (deps : list string) :
  (forall m b, agree (save1 m b) (save2 m b)) ->
  agree (for_each deps (fun dep =>
           require_module_if_not_provided_with E1 save1 dep true ;;
           graph_add_edge module_name dep))
        (for_each deps (fun dep =>
           require_module_if_not_provided_with E2 save2 dep true ;;
           graph_add_edge module_name dep)).
Proof.
  intros Hs. apply agree_for_each. intros dep.
  apply agree_bind; [| intros _; apply agree_refl].
  now apply require_module_if_not_provided_with_agree.
Qed.

Lemma _save_module_agree (depth : nat) :
  forall n d, agree (_save_module E1 depth n d) (_save_module E2 depth n d).
Proof.
  induction depth as [| depth IH]; intros n d; simpl; [apply agree_refl |].
  apply agree_bind; [apply agree_refl | intros _].
  apply agree_bind; [apply _import_module_agree | intros m].
  apply agree_bind; [apply agree_refl | intros source].
  apply agree_bind; [apply agree_refl | intros _].
  destruct d; [| apply agree_refl].
  rewrite _get_dependencies_agree.
  apply dependencies_loop_agree. exact IH.
Qed.

Lemma save_source_string_agree (depth : nat) (n s : string) (p d : bool) :
  agree (save_source_string E1 depth n s p d) (save_source_string E2 depth n s p d).
Proof.
  apply agree_bind; [apply agree_refl | intros _].
  apply agree_bind; [apply agree_refl | intros _].
  destruct d; [| apply agree_refl].
  rewrite _get_dependencies_agree.
  apply dependencies_loop_agree. apply _save_module_agree.
Qed.

Lemma save_module_agree (depth : nat) (n : string) (d : bool) :
  agree (save_module E1 depth n d) (save_module E2 depth n d).
Proof.
  apply agree_bind; [apply agree_refl | intros _]. apply _save_module_agree.
Qed.

Lemma _persistent_id_agree (obj : Storage) :
  _cdata E1 obj = _cdata E2 obj ->
  agree (_persistent_id E1 obj) (_persistent_id E2 obj).
Proof. intros Hk st. unfold _persistent_id. now rewrite Hk. Qed.

Lemma save_pickle_agree (depth : nat) (package resource : string)
      (obj : PyObject) (d : bool) :
  (forall storage, In storage (pickled_storages E1 obj) ->
                   _cdata E1 storage = _cdata E2 storage) ->
  agree (save_pickle E1 depth package resource obj d)
        (save_pickle E2 depth package resource obj d).
Proof.
  intros Hk. unfold save_pickle.
  apply agree_bind; [apply _filename_agree | intros filename].
  rewrite <- (same_storages _ _ same).
  apply agree_bind; [| intros pids].
  { apply agree_map_M_In. intros x Hx. now apply _persistent_id_agree, Hk. }
  rewrite (same_dump _ _ same), (same_genops _ _ same).
  apply agree_bind; [apply agree_refl | intros _].
  apply agree_bind; [apply agree_refl | intros _].
  apply agree_bind; [| intros _; apply _write_agree].
  destruct d; [| apply agree_refl].
  destruct (global_modules _ _); [apply agree_refl |].
  apply dependencies_loop_agree. apply _save_module_agree.
Qed.

Lemma save_binary_agree (package resource binary : string) :
  agree (save_binary E1 package resource binary)
        (save_binary E2 package resource binary).
Proof.
  apply agree_bind; [apply _filename_agree | intros f; apply _write_agree].
Qed.

Lemma perform_agree (depth : nat) (c : call PyObject) :
  same_keys E1 E2 c ->
  agree (perform E1 depth c) (perform E2 depth c).
Proof.
  intros Hk. destruct c; simpl; try apply agree_refl.
  - apply save_source_string_agree.
  - apply save_module_agree.
  - now apply save_pickle_agree.
  - apply save_binary_agree.
  - apply save_binary_agree.
Qed.

(** C5, as the code has it.  Two runs of one script of calls in two
    processes, with collaborators that answer alike and with the same
    [_cdata] key in both for every storage the calls pickle, leave the
    same records in the same order with the same contents, the storage
    records included, whatever the order of the sets of either process
    and wherever the other storages live; they end alike too, but for
    the order in which the unclassified-module error prints its set. *)
Theorem export_deterministic (depth : nat) (calls : list (call PyObject)) :
  (forall c, In c calls -> same_keys E1 E2 c) ->
  archive_of (export E1 depth calls) = archive_of (export E2 depth calls)
  /\ alike E1 E2 (export E1 depth calls) (export E2 depth calls).
Proof.
  intros Hk.
  assert (H : alike E1 E2 (export E1 depth calls) (export E2 depth calls)).
  { unfold export, with_exporter.
    rewrite (agree_for_each_In calls _ _
               (fun c Hc => perform_agree depth c (Hk c Hc)) __init__).
    destruct (for_each calls (perform E2 depth) __init__) as [u s | e s |];
      [apply close_alike | apply alike_refl | exact I]. }
  split; [now apply alike_archive | exact H].
Qed.

End Same_answers.

Lemma export_deterministic_witness :
  let calls := [call_intern ["**"] [] true;
                call_save_pickle "pkg" "res" Demo.model true] in
  archive_of (export Demo.world 3 calls)
  = archive_of (export Demo.world_reseeded 3 calls).
Proof.
  intros calls.
  refine (proj1 (export_deterministic Demo.world Demo.world_reseeded _ 3
                   calls _)).
  - constructor; intros; reflexivity.
  - intros c [<- | [<- | []]]; simpl; [exact I |].
    intros storage [<- | []]. reflexivity.
Defined.

(** Where the two processes do differ: the same script, with two
    modules left unclassified, raises the error with the names in one
    order here and in the other order there; nothing is written in
    either. *)
Lemma unmatched_error_follows_the_hash_seed :
  let calls := [call_save_source_string "m" "import a" false true] in
  (exists st, export Demo.world 3 calls
              = Raise (RuntimeError_unmatched ["a"; "b"]) st
              /\ export Demo.world_reseeded 3 calls
                 = Raise (RuntimeError_unmatched ["b"; "a"]) st)
  /\ archive_of (export Demo.world 3 calls) = Some []
  /\ archive_of (export Demo.world_reseeded 3 calls) = Some [].
Proof.
  intros calls. split; [| split; vm_compute; reflexivity].
  eexists. split; vm_compute; reflexivity.
Qed.

(** ** Dependency closure (C6) *)

Lemma update_node_names (n : string) (kw : node_attrs)
      (l : list (string * node_attrs)) (x : string) :
  In x (map fst (update_node n kw l)) <-> x = n \/ In x (map fst l).
Proof.
  induction l as [| [m a] l IH]; simpl.
  - intuition.
  - destruct (String.eqb_spec n m) as [-> | Hne]; simpl.
    + intuition.
    + rewrite IH. intuition.
Qed.

Lemma add_node_names (n : string) (kw : node_attrs) (g : DiGraph) (x : string) :
  In x (node_names (add_node n kw g)) <-> x = n \/ In x (node_names g).
Proof. apply update_node_names. Qed.

Lemma add_edge_names (u v : string) (g : DiGraph) (x : string) :
  In x (node_names (add_edge u v g)) <-> x = u \/ x = v \/ In x (node_names g).
Proof.
  unfold add_edge, node_names. simpl.
  rewrite !update_node_names. intuition.
Qed.

Lemma contains_In (g : DiGraph) (n : string) :
  contains g n = true <-> In n (node_names g).
Proof. apply mem_In. Qed.

Lemma graph_add_node_grows (n : string) (kw : node_attrs) :
  preserves graph_grows (graph_add_node n kw).
Proof. intros st x Hx. simpl. apply add_node_names. now right. Qed.

Lemma graph_add_edge_grows (u v : string) :
  preserves graph_grows (graph_add_edge u v).
Proof. intros st x Hx. simpl. apply add_edge_names. auto. Qed.

(** Fewer names are missing in a larger graph, and strictly fewer when a
    name of the universe has come in. *)
Lemma filter_length_mono {A} (p q : A -> bool) (l : list A) :
  (forall x, In x l -> q x = true -> p x = true) ->
  length (filter q l) <= length (filter p l).
Proof.
  induction l as [| y l IH]; intros H; simpl; [lia |].
  assert (IH' : length (filter q l) <= length (filter p l)).
  { apply IH. intros x Hx. apply H. now right. }
  destruct (q y) eqn:Hq.
  - rewrite (H y (or_introl eq_refl) Hq). simpl. lia.
  - destruct (p y); simpl; lia.
Qed.

Lemma filter_length_lt {A} (p q : A -> bool) (l : list A) (z : A) :
  (forall x, In x l -> q x = true -> p x = true) ->
  In z l -> p z = true -> q z = false ->
  length (filter q l) < length (filter p l).
Proof.
  induction l as [| y l IH]; intros H Hz Hp Hq; simpl; [destruct Hz |].
  assert (Hle : length (filter q l) <= length (filter p l)).
  { apply filter_length_mono. intros x Hx. apply H. now right. }
  destruct Hz as [-> | Hz].
  - rewrite Hp, Hq. simpl. lia.
  - assert (IH' : length (filter q l) < length (filter p l)).
    { apply IH; auto. intros x Hx. apply H. now right. }
    destruct (q y) eqn:Hqy.
    + rewrite (H y (or_introl eq_refl) Hqy). simpl. lia.
    + destruct (p y); simpl; lia.
Qed.

Lemma missing_le (universe : list string) (st st' : PackageExporter) :
  graph_grows st st' -> missing universe st' <= missing universe st.
Proof.
  intros Hg. unfold missing. apply filter_length_mono.
  intros x _. rewrite !negb_true_iff. intros Hx.
  destruct (contains (dependency_graph st) x) eqn:Hc; [| reflexivity].
  apply contains_In, Hg, contains_In in Hc. congruence.
Qed.

Lemma missing_lt (universe : list string) (st st' : PackageExporter) (n : string) :
  graph_grows st st' -> In n universe ->
  ~ In n (node_names (dependency_graph st)) ->
  In n (node_names (dependency_graph st')) ->
  missing universe st' < missing universe st.
Proof.
  intros Hg Hu Hn Hn'. unfold missing. apply filter_length_lt with (z := n).
  - intros x _. rewrite !negb_true_iff. intros Hx.
    destruct (contains (dependency_graph st) x) eqn:Hc; [| reflexivity].
    apply contains_In, Hg, contains_In in Hc. congruence.
  - now apply nodup_In.
  - apply negb_true_iff. destruct (contains _ n) eqn:Hc; [| reflexivity].
    apply contains_In in Hc. contradiction.
  - apply negb_false_iff. now apply contains_In.
Qed.

Lemma missing_bound (universe : list string) (st : PackageExporter) :
  missing universe st <= length universe.
Proof.
  unfold missing.
  etransitivity; [apply List.filter_length_le |].
  apply NoDup_incl_length; [apply NoDup_nodup |].
  intros x Hx. now apply nodup_In in Hx.
Qed.

Section Closure.

Context {PyObject : Type} (E : Env PyObject).

(** The body of the loops over dependencies. *)
Lemma require_step (save : string -> bool -> M unit) (dep : string) (d : bool)
      (st : PackageExporter) :
  require_module_if_not_provided_with E save dep d st
  = if contains (dependency_graph st) dep || _can_implicitly_extern E dep
    then Return tt st
    else save dep d st.
Proof.
  unfold require_module_if_not_provided_with, require_module_with, bind, get.
  destruct (_ || _); reflexivity.
Qed.

Lemma _import_module_cases (n : string) (st : PackageExporter) :
  (exists m, import_module E n = Some m /\ _import_module E n st = Return m st)
  \/ _import_module E n st = Raise (ModuleNotFoundError n) st.
Proof.
  unfold _import_module. destruct (import_module E n) as [m |]; eauto.
Qed.

Lemma _get_source_of_module_cases (m : ModuleType) (st : PackageExporter) :
  (exists source, _get_source_of_module m st = Return source st)
  \/ _get_source_of_module m st = Raise (ValueError_no_source (__name__ m)) st.
Proof.
  unfold _get_source_of_module.
  destruct (__file__ m) as [f |]; [| now right].
  destruct (negb (Str.endswith f ".py")); [now right | left; eauto].
Qed.

(** One call of [_save_module]: the node is added before the loop over
    the dependencies starts. *)
Lemma _save_module_unfold (depth : nat) (module_name : string)
      (dependencies : bool) (st : PackageExporter) :
  let st0 := set_visited (visited st ++ [module_name]) st in
  _save_module E (S depth) module_name dependencies st
  = match _import_module E module_name st0 with
    | Return module_obj _ =>
        match _get_source_of_module module_obj st0 with
        | Return source _ =>
            let st1 := set_dependency_graph
                         (add_node module_name no_attrs (dependency_graph st0)) st0 in
            if dependencies then
              for_each (_get_dependencies E source module_name (has_path module_obj))
                (fun dep =>
                   require_module_if_not_provided_with E (_save_module E depth) dep true ;;
                   graph_add_edge module_name dep) st1
            else Return tt st1
        | Raise e _ => Raise e st0
        | Diverge => Diverge
        end
    | Raise e _ => Raise e st0
    | Diverge => Diverge
    end.
Proof.
  intros st0. simpl. rewrite bind_modify. fold st0. unfold bind at 1.
  destruct (_import_module_cases module_name st0) as [[m [_ ->]] | ->];
    [| reflexivity].
  unfold bind at 1.
  destruct (_get_source_of_module_cases m st0) as [[source ->] | ->];
    [| reflexivity].
  unfold bind at 1. unfold graph_add_node at 1, modify at 1.
  destruct dependencies; reflexivity.
Qed.

Lemma _save_module_grows (depth : nat) :
  forall n d, preserves graph_grows (_save_module E depth n d).
Proof.
  induction depth as [| depth IH]; intros n d; simpl.
  - apply preserves_diverge.
  - apply preserves_bind; [apply graph_grows_trans | |].
    { intros st x Hx. exact Hx. }
    intros _. apply preserves_bind; [apply graph_grows_trans | |].
    { intros st. unfold _import_module.
      destruct (import_module E n); apply graph_grows_refl. }
    intros m. apply preserves_bind; [apply graph_grows_trans | |].
    { intros st. destruct (_get_source_of_module_cases m st) as [[s ->] | ->];
        apply graph_grows_refl. }
    intros source. apply preserves_bind;
      [apply graph_grows_trans | apply graph_add_node_grows |].
    intros _. destruct d; [| apply preserves_ret, graph_grows_refl].
    apply preserves_for_each; [apply graph_grows_refl | apply graph_grows_trans |].
    intros dep. apply preserves_bind;
      [apply graph_grows_trans | | intros _; apply graph_add_edge_grows].
    intros st. rewrite require_step.
    destruct (_ || _); [apply graph_grows_refl | apply IH].
Qed.

(** *** Termination *)

Section Finite_universe.

Variable universe : list string.
Hypothesis importable :
  forall n m, import_module E n = Some m -> In n universe.

Lemma dependencies_loop_terminates (depth : nat) (module_name : string)
      (deps : list string) :
  (forall n d st, ~ In n (node_names (dependency_graph st)) ->
                  missing universe st < depth ->
                  _save_module E depth n d st <> Diverge) ->
  forall st, missing universe st < depth ->
    for_each deps (fun dep =>
      require_module_if_not_provided_with E (_save_module E depth) dep true ;;
      graph_add_edge module_name dep) st <> Diverge.
Proof.
  intros Hsave. induction deps as [| dep deps IH]; intros st Hlt; simpl;
    [discriminate |].
  unfold bind at 1. unfold bind at 1. rewrite require_step.
  destruct (contains (dependency_graph st) dep || _can_implicitly_extern E dep)
           eqn:Hc.
  - apply IH. eapply Nat.le_lt_trans; [| exact Hlt].
    apply missing_le. apply (graph_add_edge_grows module_name dep st).
  - apply orb_false_iff in Hc. destruct Hc as [Hc _].
    assert (Hn : ~ In dep (node_names (dependency_graph st))).
    { intros H. apply contains_In in H. congruence. }
    pose proof (Hsave dep true st Hn Hlt) as Hnd.
    pose proof (_save_module_grows depth dep true st) as Hg.
    destruct (_save_module E depth dep true st) as [u st1 | e st1 |];
      [| discriminate | contradiction].
    apply IH. eapply Nat.le_lt_trans; [| exact Hlt].
    apply missing_le. eapply graph_grows_trans; [exact Hg |].
    apply (graph_add_edge_grows module_name dep st1).
Qed.

Lemma _save_module_fresh_terminates (depth : nat) :
  forall n d st, ~ In n (node_names (dependency_graph st)) ->
                 missing universe st < depth ->
                 _save_module E depth n d st <> Diverge.
Proof.
  induction depth as [| depth IH]; intros n d st Hn Hlt; [lia |].
  rewrite _save_module_unfold. cbv zeta.
  set (st0 := set_visited (visited st ++ [n]) st).
  destruct (_import_module_cases n st0) as [[m [Hm ->]] | ->]; [| discriminate].
  destruct (_get_source_of_module_cases m st0) as [[source ->] | ->];
    [| discriminate].
  destruct d; [| discriminate].
  apply dependencies_loop_terminates; [exact IH |].
  assert (missing universe
            (set_dependency_graph (add_node n no_attrs (dependency_graph st0)) st0)
          < missing universe st); [| lia].
  apply missing_lt with (n := n).
  - intros x Hx. simpl. apply add_node_names. now right.
  - eapply importable. exact Hm.
  - exact Hn.
  - simpl. apply add_node_names. now left.
Qed.

Lemma _save_module_terminates (depth : nat) (n : string) (d : bool)
      (st : PackageExporter) :
  missing universe st + 1 < depth -> _save_module E depth n d st <> Diverge.
Proof.
  intros Hlt. destruct depth as [| depth]; [lia |].
  rewrite _save_module_unfold. cbv zeta.
  set (st0 := set_visited (visited st ++ [n]) st).
  destruct (_import_module_cases n st0) as [[m [Hm ->]] | ->]; [| discriminate].
  destruct (_get_source_of_module_cases m st0) as [[source ->] | ->];
    [| discriminate].
  destruct d; [| discriminate].
  apply dependencies_loop_terminates; [apply _save_module_fresh_terminates |].
  assert (missing universe
            (set_dependency_graph (add_node n no_attrs (dependency_graph st0)) st0)
          <= missing universe st); [| lia].
  apply missing_le. intros x Hx. simpl. apply add_node_names. now right.
Qed.

End Finite_universe.

(** *** More depth changes nothing once the call ends *)

Lemma for_each_deeper {A} (l : list A) (b1 b2 : A -> M unit) :
  (forall x s, b1 x s <> Diverge -> b2 x s = b1 x s) ->
  forall st, for_each l b1 st <> Diverge -> for_each l b2 st = for_each l b1 st.
Proof.
  intros Hb. induction l as [| x l IH]; intros st Hnd; simpl in *;
    [reflexivity |].
  unfold bind in *. specialize (Hb x st).
  destruct (b1 x st) as [u s1 | e s1 |].
  - rewrite Hb by discriminate. now apply IH.
  - now rewrite Hb by discriminate.
  - contradiction.
Qed.

Lemma _save_module_deeper (depth : nat) :
  forall n d st, _save_module E depth n d st <> Diverge ->
                 _save_module E (S depth) n d st = _save_module E depth n d st.
Proof.
  induction depth as [| depth IH]; intros n d st Hnd;
    [exfalso; apply Hnd; reflexivity |].
  rewrite (_save_module_unfold (S depth)). rewrite _save_module_unfold in Hnd |- *.
  cbv zeta in *.
  destruct (_import_module E n _) as [m s0 | |]; try reflexivity.
  destruct (_get_source_of_module m _) as [source s1 | |]; try reflexivity.
  destruct d; [| reflexivity].
  apply for_each_deeper; [| exact Hnd].
  intros dep s Hs. unfold bind in *. rewrite !require_step in *.
  destruct (_ || _); [reflexivity |].
  rewrite IH; [reflexivity |].
  intros Hd. rewrite Hd in Hs. contradiction.
Qed.

Lemma _save_module_deep_enough (depth extra : nat) (n : string) (d : bool)
      (st : PackageExporter) :
  _save_module E depth n d st <> Diverge ->
  _save_module E (depth + extra) n d st = _save_module E depth n d st.
Proof.
  intros Hnd. induction extra as [| extra IH].
  - now rewrite Nat.add_0_r.
  - rewrite Nat.add_succ_r, _save_module_deeper; [exact IH |].
    now rewrite IH.
Qed.

End Closure.

(** *** Each module is visited at most once *)

Lemma visits_fresh_refl (landed : bool) (st : PackageExporter) :
  visits_fresh landed st st.
Proof.
  exists []. rewrite app_nil_r. repeat split; try constructor.
  - destruct H.
  - destruct H.
  - apply graph_grows_refl.
Qed.

Lemma visits_fresh_graph (landed : bool) (st st' : PackageExporter) :
  visited st' = visited st -> graph_grows st st' -> visits_fresh landed st st'.
Proof.
  intros Hv Hg. exists []. rewrite app_nil_r.
  split; [exact Hv |]. split; [constructor |]. split; [intros x [] | exact Hg].
Qed.

Lemma visits_fresh_trans (landed : bool) (a b c : PackageExporter) :
  visits_fresh true a b -> visits_fresh landed b c -> visits_fresh landed a c.
Proof.
  intros [n1 [Hv1 [Hd1 [Hf1 Hg1]]]] [n2 [Hv2 [Hd2 [Hf2 Hg2]]]].
  exists (n1 ++ n2). split; [| split; [| split]].
  - now rewrite Hv2, Hv1, app_assoc.
  - apply NoDup_app; try assumption.
    intros x H1 H2. destruct (Hf1 x H1) as [_ Hb]. destruct (Hf2 x H2) as [Hnb _].
    apply Hnb, Hb. reflexivity.
  - intros x Hx. apply in_app_iff in Hx. destruct Hx as [Hx | Hx].
    + destruct (Hf1 x Hx) as [Hna Hb]. split; [exact Hna |].
      intros _. apply Hg2, Hb. reflexivity.
    + destruct (Hf2 x Hx) as [Hnb Hc]. split; [| exact Hc].
      intros Ha. apply Hnb, Hg1, Ha.
  - eapply graph_grows_trans; eassumption.
Qed.

Lemma visits_fresh_enter (n : string) (st : PackageExporter) :
  ~ In n (node_names (dependency_graph st)) ->
  visits_fresh true st
    (set_dependency_graph
       (add_node n no_attrs (dependency_graph st))
       (set_visited (visited st ++ [n]) st)).
Proof.
  intros Hn. exists [n]. split; [reflexivity |].
  split; [repeat constructor; intros [] |]. split.
  - intros x [<- | []]. split; [exact Hn |].
    intros _. simpl. apply add_node_names. now left.
  - intros x Hx. simpl. apply add_node_names. now right.
Qed.

Lemma closes_fresh_for_each {A} (l : list A) (body : A -> M unit) :
  (forall x, closes_fresh (body x)) -> closes_fresh (for_each l body).
Proof.
  intros Hb. induction l as [| x l IH]; intros st; simpl.
  - apply visits_fresh_refl.
  - unfold bind. specialize (Hb x st).
    destruct (body x st) as [u s1 | e s1 |]; [| exact Hb | exact I].
    specialize (IH s1).
    destruct (for_each l body s1); try exact I;
      eapply visits_fresh_trans; eassumption.
Qed.

Section Visits.

Context {PyObject : Type} (E : Env PyObject).

Lemma dependency_step_closes_fresh (save : string -> bool -> M unit)
      (module_name dep : string) :
  (forall n d st, ~ In n (node_names (dependency_graph st)) ->
     match save n d st with
     | Return _ st' => visits_fresh true st st'
     | Raise _ st' => visits_fresh false st st'
     | Diverge => True
     end) ->
  closes_fresh (require_module_if_not_provided_with E save dep true ;;
                graph_add_edge module_name dep).
Proof.
  intros Hsave st. unfold bind. rewrite require_step.
  destruct (contains (dependency_graph st) dep || _can_implicitly_extern E dep)
           eqn:Hc.
  - apply visits_fresh_graph; [reflexivity |].
    apply (graph_add_edge_grows module_name dep st).
  - apply orb_false_iff in Hc. destruct Hc as [Hc _].
    assert (Hn : ~ In dep (node_names (dependency_graph st))).
    { intros H. apply contains_In in H. congruence. }
    specialize (Hsave dep true st Hn).
    destruct (save dep true st) as [u s1 | e s1 |]; [| exact Hsave | exact I].
    eapply visits_fresh_trans; [exact Hsave |].
    apply visits_fresh_graph; [reflexivity |].
    apply (graph_add_edge_grows module_name dep s1).
Qed.

Lemma _save_module_fresh_visits (depth : nat) :
  forall n d st, ~ In n (node_names (dependency_graph st)) ->
    match _save_module E depth n d st with
    | Return _ st' => visits_fresh true st st'
    | Raise _ st' => visits_fresh false st st'
    | Diverge => True
    end.
Proof.
  induction depth as [| depth IH]; intros n d st Hn; [exact I |].
  rewrite _save_module_unfold. cbv zeta.
  set (st0 := set_visited (visited st ++ [n]) st).
  assert (Hfail : visits_fresh false st st0).
  { exists [n]. split; [reflexivity |]. split; [repeat constructor; intros [] |].
    split; [| intros x Hx; exact Hx].
    intros x [<- | []]. split; [exact Hn | discriminate]. }
  destruct (_import_module E n st0) as [m s0 | e s0 |]; [| exact Hfail | exact I].
  destruct (_get_source_of_module m st0) as [source s1 | e s1 |];
    [| exact Hfail | exact I].
  pose proof (visits_fresh_enter n st Hn) as Henter. fold st0 in Henter.
  destruct d; [| exact Henter].
  pose proof (closes_fresh_for_each
                (_get_dependencies E source n (has_path m)) _
                (fun dep => dependency_step_closes_fresh
                              (_save_module E depth) n dep IH)
                (set_dependency_graph
                   (add_node n no_attrs (dependency_graph st0)) st0)) as Hloop.
  destruct (for_each _ _ _); try exact I;
    eapply visits_fresh_trans; eassumption.
Qed.

Lemma require_module_if_not_provided_closes_fresh (depth : nat) (n : string)
      (d : bool) :
  closes_fresh (require_module_if_not_provided E depth n d).
Proof.
  intros st. unfold require_module_if_not_provided. rewrite require_step.
  destruct (contains (dependency_graph st) n || _can_implicitly_extern E n) eqn:Hc.
  - apply visits_fresh_refl.
  - apply orb_false_iff in Hc. destruct Hc as [Hc _].
    apply _save_module_fresh_visits.
    intros H. apply contains_In in H. congruence.
Qed.

(** Also when the module saved first is a node already: its name and
    the names visited below it are pairwise distinct. *)
Lemma _save_module_visits (depth : nat) (n : string) (d : bool)
      (st : PackageExporter) :
  match _save_module E depth n d st with
  | Return _ st' | Raise _ st' =>
      exists new, visited st' = visited st ++ n :: new /\ NoDup (n :: new)
  | Diverge => True
  end.
Proof.
  destruct depth as [| depth]; [exact I |].
  rewrite _save_module_unfold. cbv zeta.
  set (st0 := set_visited (visited st ++ [n]) st).
  assert (Hfail : exists new, visited st0 = visited st ++ n :: new
                              /\ NoDup (n :: new)).
  { exists []. split; [reflexivity | repeat constructor; intros []]. }
  destruct (_import_module E n st0) as [m s0 | e s0 |]; [| exact Hfail | exact I].
  destruct (_get_source_of_module m st0) as [source s1 | e s1 |];
    [| exact Hfail | exact I].
  destruct d; [| exact Hfail].
  set (st1 := set_dependency_graph (add_node n no_attrs (dependency_graph st0)) st0).
  pose proof (closes_fresh_for_each
                (_get_dependencies E source n (has_path m)) _
                (fun dep => dependency_step_closes_fresh
                              (_save_module E depth) n dep
                              (_save_module_fresh_visits depth))
                st1) as Hloop.
  assert (Hgoal : forall landed st',
             visits_fresh landed st1 st' ->
             exists new, visited st' = visited st ++ n :: new /\ NoDup (n :: new)).
  { intros landed st' [new [Hv [Hd [Hf _]]]]. exists new. split.
    - rewrite Hv. simpl. now rewrite <- app_assoc.
    - constructor; [| exact Hd]. intros Hin. destruct (Hf n Hin) as [Hnot _].
      apply Hnot. simpl. apply add_node_names. now left. }
  destruct (for_each _ _ st1); try exact I; eapply Hgoal; exact Hloop.
Qed.

End Visits.

(** *** A whole script ends *)

Lemma terminates_ret {A} (a : A) : terminates (ret a).
Proof. intros st. discriminate. Qed.

Lemma terminates_raise {A} (e : exn) : terminates (@raise A e).
Proof. intros st. discriminate. Qed.

Lemma terminates_modify (f : PackageExporter -> PackageExporter) :
  terminates (modify f).
Proof. intros st. discriminate. Qed.

Lemma terminates_bind {A B} (c : M A) (k : A -> M B) :
  terminates c -> (forall a, terminates (k a)) -> terminates (bind c k).
Proof.
  intros Hc Hk st. unfold bind. specialize (Hc st).
  destruct (c st); [apply Hk | discriminate | contradiction].
Qed.

Lemma terminates_for_each {A} (l : list A) (body : A -> M unit) :
  (forall x, terminates (body x)) -> terminates (for_each l body).
Proof.
  intros Hb. induction l as [| x l IH]; simpl; [apply terminates_ret |].
  apply terminates_bind; [apply Hb | intros _; exact IH].
Qed.

Lemma terminates_map_M {A B} (f : A -> M B) (l : list A) :
  (forall x, terminates (f x)) -> terminates (map_M f l).
Proof.
  intros Hf. induction l as [| x l IH]; simpl; [apply terminates_ret |].
  apply terminates_bind; [apply Hf | intros y].
  apply terminates_bind; [exact IH | intros ys; apply terminates_ret].
Qed.

Section Script_ends.

Context {PyObject : Type} (E : Env PyObject).

Lemma _import_module_terminates (n : string) : terminates (_import_module E n).
Proof.
  intros st. destruct (_import_module_cases E n st) as [[m [_ ->]] | ->];
    discriminate.
Qed.

Lemma _get_source_of_module_terminates (m : ModuleType) :
  terminates (_get_source_of_module m).
Proof.
  intros st. destruct (_get_source_of_module_cases m st) as [[s ->] | ->];
    discriminate.
Qed.

Lemma _write_terminates (filename data : string) :
  terminates (_write E filename data).
Proof.
  intros st. unfold _write, bind, get, raise, modify.
  destruct (is_mangled E filename); [discriminate |].
  destruct (zip_file st); discriminate.
Qed.

Lemma _filename_terminates (package resource : string) :
  terminates (_filename E package resource).
Proof.
  intros st. unfold _filename. destruct (_normalize_path E resource); discriminate.
Qed.

Lemma do_match_terminates (n : string) : terminates (do_match E n).
Proof.
  intros st. pose proof (do_match_step E n st) as H.
  destruct (do_match E n st); [discriminate | discriminate | destruct H].
Qed.

Lemma check_unmatched_patterns_terminates (rules : list rule) :
  terminates (check_unmatched_patterns rules).
Proof.
  intros st.
  destruct (check_unmatched_patterns_spec rules st)
    as [[-> _] | [pre [p [a [post [_ [-> _]]]]]]]; discriminate.
Qed.

Lemma write_mock_terminates (n : string) : terminates (write_mock E n).
Proof.
  apply terminates_bind; [apply _import_module_terminates | intros m].
  apply _write_terminates.
Qed.

Lemma write_intern_terminates (n : string) : terminates (write_intern E n).
Proof.
  intros st. unfold write_intern. unfold bind at 1. unfold get at 1.
  destruct (node_lookup n (nodes (dependency_graph st))) as [attrs |];
    [| discriminate].
  assert (Hrest : terminates
            match src attrs with
            | Some source =>
                match is_package attrs with
                | Some is_package => _write_source_string E n source is_package
                | None => raise (KeyError "is_package")
                end
            | None =>
                module_obj <- _import_module E n ;;
                source <- _get_source_of_module module_obj ;;
                _write_source_string E n source (has_path module_obj)
            end).
  { destruct (src attrs).
    - destruct (is_package attrs); [apply _write_terminates | apply terminates_raise].
    - apply terminates_bind; [apply _import_module_terminates | intros m].
      apply terminates_bind; [apply _get_source_of_module_terminates | intros s].
      apply _write_terminates. }
  destruct (is_pickle attrs) as [[|] |]; [discriminate | apply Hrest | apply Hrest].
Qed.

Lemma close_terminates : terminates (close E).
Proof.
  apply terminates_bind.
  { apply terminates_bind.
    { apply terminates_bind; [intros st; discriminate | intros st0].
      apply terminates_for_each, do_match_terminates. }
    intros _. apply terminates_bind; [intros st; discriminate | intros st0].
    cbv zeta. destruct (negb (Nat.eqb (length _) 0)); [apply terminates_raise |].
    apply terminates_bind; [apply check_unmatched_patterns_terminates | intros _].
    apply terminates_bind.
    { destruct (negb _); [apply _write_terminates | apply terminates_ret]. }
    intros _. apply terminates_bind;
      [apply terminates_for_each, write_mock_terminates | intros _].
    apply terminates_bind;
      [apply terminates_for_each, write_intern_terminates | intros _].
    apply _write_terminates. }
  intros _. apply terminates_bind; [intros st; discriminate | intros st0].
  apply terminates_bind.
  { apply terminates_for_each. intros key st.
    unfold write_storage, bind, get, raise, modify.
    destruct (storages_get key (serialized_storages st)); [| discriminate].
    destruct (zip_file st); discriminate. }
  intros _ st. unfold _finalize_zip, bind, get, raise, modify.
  destruct (zip_file st); discriminate.
Qed.

Variable universe : list string.
Hypothesis importable : forall n m, import_module E n = Some m -> In n universe.
Variable depth : nat.
Hypothesis deep : length universe + 2 <= depth.

Lemma _save_module_ends (n : string) (d : bool) :
  terminates (_save_module E depth n d).
Proof.
  intros st. apply (_save_module_terminates E universe importable).
  pose proof (missing_bound universe st). lia.
Qed.

Lemma dependencies_loop_ends (module_name : string) (deps : list string) :
  terminates (for_each deps (fun dep =>
                require_module_if_not_provided E depth dep true ;;
                graph_add_edge module_name dep)).
Proof.
  intros st.
  apply (dependencies_loop_terminates E universe).
  - intros n d s _ _. apply _save_module_ends.
  - pose proof (missing_bound universe st). lia.
Qed.

Lemma require_module_if_not_provided_ends (n : string) (d : bool) :
  terminates (require_module_if_not_provided E depth n d).
Proof.
  intros st. unfold require_module_if_not_provided. rewrite require_step.
  destruct (_ || _); [discriminate | apply _save_module_ends].
Qed.

Lemma perform_ends (c : call PyObject) : terminates (perform E depth c).
Proof.
  destruct c; simpl; try (intros st; discriminate).
  - apply terminates_bind; [apply terminates_modify | intros _].
    apply terminates_bind; [apply terminates_modify | intros _].
    destruct dependencies; [apply dependencies_loop_ends | apply terminates_ret].
  - apply terminates_bind; [apply terminates_modify | intros _].
    apply _save_module_ends.
  - apply terminates_bind; [apply _filename_terminates | intros f].
    apply terminates_bind.
    { apply terminates_map_M. intros s st. discriminate. }
    intros pids. apply terminates_bind; [apply terminates_modify | intros _].
    apply terminates_bind; [apply terminates_modify | intros _].
    apply terminates_bind; [| intros _; apply _write_terminates].
    destruct dependencies; [| apply terminates_ret].
    destruct (global_modules _ _);
      [apply terminates_raise | apply dependencies_loop_ends].
  - apply terminates_bind; [apply _filename_terminates | intros f].
    apply _write_terminates.
  - apply terminates_bind; [apply _filename_terminates | intros f].
    apply _write_terminates.
Qed.

Lemma export_ends (calls : list (call PyObject)) :
  export E depth calls <> Diverge.
Proof.
  unfold export, with_exporter.
  pose proof (terminates_for_each calls _ perform_ends __init__) as H.
  destruct (for_each calls (perform E depth) __init__) as [u st | e st |];
    [apply close_terminates | | contradiction].
  unfold _finalize_zip, bind, get, raise, modify.
  destruct (zip_file st); discriminate.
Qed.

End Script_ends.

(** C6.  Let the importer resolve only the names of a finite universe
    and let the model follow the recursion to a depth of two more than
    its size.  Then every call of the dependency closure, every saving
    call and every whole script returns or raises, also when modules
    import each other, and a greater depth gives the same result;
    [require_module_if_not_provided] returns at once for a name that is
    a graph node or implicitly externable; [_save_module] either raises
    before it looks at any dependency or runs its loop over the
    dependencies in a state whose graph has the module's node; and the
    names [_save_module] is entered with in one closure are pairwise
    distinct. *)
Theorem dependency_closure_terminates {PyObject} (E : Env PyObject)
        (universe : list string) (depth : nat) :
  (forall n m, import_module E n = Some m -> In n universe) ->
  length universe + 2 <= depth ->
  (forall n d, terminates (_save_module E depth n d))
  /\ (forall n d, terminates (require_module_if_not_provided E depth n d))
  /\ (forall c, terminates (perform E depth c))
  /\ (forall calls, export E depth calls <> Diverge)
  /\ (forall n d st extra,
         _save_module E (depth + extra) n d st = _save_module E depth n d st)
  /\ (forall k n d st,
         contains (dependency_graph st) n || _can_implicitly_extern E n = true ->
         require_module_if_not_provided E k n d st = Return tt st)
  /\ (forall k n st,
         (exists e, _save_module E (S k) n true st
                    = Raise e (set_visited (visited st ++ [n]) st))
         \/ exists m source st1,
             In n (node_names (dependency_graph st1))
             /\ _save_module E (S k) n true st
                = for_each (_get_dependencies E source n (has_path m))
                    (fun dep => require_module_if_not_provided E k dep true ;;
                                graph_add_edge n dep) st1)
  /\ (forall k n d, closes_fresh (require_module_if_not_provided E k n d))
  /\ (forall k n d st,
         match _save_module E k n d st with
         | Return _ st' | Raise _ st' =>
             exists new, visited st' = visited st ++ n :: new /\ NoDup (n :: new)
         | Diverge => True
         end).
Proof.
  intros Himp Hdeep.
  split; [intros n d; now apply (_save_module_ends E universe) |].
  split; [intros n d; now apply (require_module_if_not_provided_ends E universe) |].
  split; [intros c; now apply (perform_ends E universe) |].
  split; [intros calls; now apply (export_ends E universe) |].
  split.
  { intros n d st extra. apply _save_module_deep_enough.
    now apply (_save_module_ends E universe). }
  split.
  { intros k n d st Hc. unfold require_module_if_not_provided.
    now rewrite require_step, Hc. }
  split.
  { intros k n st. rewrite _save_module_unfold. cbv zeta.
    set (st0 := set_visited (visited st ++ [n]) st).
    destruct (_import_module_cases E n st0) as [[m [_ ->]] | ->];
      [| left; eauto].
    destruct (_get_source_of_module_cases m st0) as [[source ->] | ->];
      [| left; eauto].
    right. exists m, source.
    exists (set_dependency_graph (add_node n no_attrs (dependency_graph st0)) st0).
    split; [| reflexivity]. simpl. apply add_node_names. now left. }
  split.
  { intros k n d. apply require_module_if_not_provided_closes_fresh. }
  intros k n d st. apply _save_module_visits.
Qed.

Lemma dependency_closure_terminates_witness :
  _save_module Demo.world 5 "a" true __init__ <> Diverge
  /\ node_names (dependency_graph
                   (Demo.state_of (_save_module Demo.world 5 "a" true __init__)))
     = ["a"; "b"]
  /\ visited (Demo.state_of (_save_module Demo.world 5 "a" true __init__))
     = ["a"; "b"].
Proof.
  split; [| split; reflexivity].
  refine (proj1 (dependency_closure_terminates Demo.world ["a"; "b"; "os"] 5 _ _)
                "a" true __init__).
  - intros n m. simpl.
    destruct (String.eqb_spec n "a") as [-> | _]; [simpl; auto |].
    destruct (String.eqb_spec n "b") as [-> | _]; [simpl; auto |].
    destruct (String.eqb_spec n "os") as [-> | _]; [simpl; auto |].
    discriminate.
  - simpl. lia.
Defined.

(** * Further properties of the exporter *)

(** ** Every method is a sequence of primitive changes *)

Section Steps.

Context {PyObject : Type} (E : Env PyObject).

Lemma steps_refl (st : PackageExporter) : steps E st st.
Proof. apply rt_refl. Qed.

Lemma steps_trans (a b c : PackageExporter) :
  steps E a b -> steps E b c -> steps E a c.
Proof. apply rt_trans. Qed.

Lemma steps_one (a b : PackageExporter) : step E a b -> steps E a b.
Proof. apply rt_step. Qed.

Lemma modify_steps (f : PackageExporter -> PackageExporter) :
  (forall st, step E st (f st)) -> preserves (steps E) (modify f).
Proof. intros H st. apply steps_one, H. Qed.

Lemma steps_bind {A B} (c : M A) (k : A -> M B) :
  preserves (steps E) c -> (forall a, preserves (steps E) (k a)) ->
  preserves (steps E) (bind c k).
Proof. apply preserves_bind, steps_trans. Qed.

Lemma steps_for_each {A} (l : list A) (body : A -> M unit) :
  (forall x, preserves (steps E) (body x)) ->
  preserves (steps E) (for_each l body).
Proof. apply preserves_for_each; [apply steps_refl | apply steps_trans]. Qed.

Lemma steps_ret {A} (a : A) : preserves (steps E) (ret a).
Proof. apply preserves_ret, steps_refl. Qed.

Lemma steps_raise {A} (e : exn) : preserves (steps E) (@raise A e).
Proof. apply preserves_raise, steps_refl. Qed.

Lemma _import_module_steps (n : string) :
  preserves (steps E) (_import_module E n).
Proof.
  intros st. destruct (_import_module_cases E n st) as [[m [_ ->]] | ->];
    apply steps_refl.
Qed.

Lemma _get_source_of_module_steps (m : ModuleType) :
  preserves (steps E) (_get_source_of_module m).
Proof.
  intros st. destruct (_get_source_of_module_cases m st) as [[s ->] | ->];
    apply steps_refl.
Qed.

Lemma _write_steps (filename data : string) :
  preserves (steps E) (_write E filename data).
Proof.
  intros st. unfold _write, bind, get, raise, modify.
  destruct (is_mangled E filename) eqn:Hm; [apply steps_refl |].
  destruct (zip_file st) eqn:Hz; simpl; [| apply steps_refl].
  apply steps_one. now constructor.
Qed.

Lemma _filename_steps (package resource : string) :
  preserves (steps E) (_filename E package resource).
Proof.
  intros st. unfold _filename.
  destruct (_normalize_path E resource); apply steps_refl.
Qed.

Lemma call_action_steps (a : action) (n : string) :
  preserves (steps E) (call_action a n).
Proof.
  destruct a; simpl; try (apply modify_steps; intros st; constructor).
  apply steps_raise.
Qed.

Lemma match_first_steps (n : string) (st0 : PackageExporter) (rules : list rule) :
  (forall r, In r rules -> In r (patterns st0)) ->
  forall st, patterns st = patterns st0 ->
    match match_first rules n st with
    | Return _ st' | Raise _ st' => steps E st st'
    | Diverge => True
    end.
Proof.
  induction rules as [| [[p a] ae] rules IH]; intros Hin st Hp; simpl.
  - apply steps_refl.
  - destruct (matches p n); [| apply IH; auto; intros r Hr; apply Hin; now right].
    rewrite fire_rule.
    assert (Hrule : In (p, a, ae) (patterns st)).
    { rewrite Hp. apply Hin. now left. }
    destruct a.
    + apply steps_trans
        with (set_intern_modules (dict_set n (intern_modules st)) st);
        [apply steps_one, step_intern |].
      apply steps_one.
      exact (step_matched E (set_intern_modules (dict_set n (intern_modules st)) st)
               p _ ae Hrule).
    + apply steps_trans
        with (set_mock_modules (dict_set n (mock_modules st)) st);
        [apply steps_one, step_mock |].
      apply steps_one.
      exact (step_matched E (set_mock_modules (dict_set n (mock_modules st)) st)
               p _ ae Hrule).
    + apply steps_trans
        with (set_extern_modules (dict_set n (extern_modules st)) st);
        [apply steps_one, step_extern |].
      apply steps_one.
      exact (step_matched E (set_extern_modules (dict_set n (extern_modules st)) st)
               p _ ae Hrule).
    + apply steps_refl.
Qed.

Lemma do_match_steps (n : string) : preserves (steps E) (do_match E n).
Proof.
  intros st. unfold do_match.
  destruct (_can_implicitly_extern E _).
  - apply steps_one. constructor.
  - unfold bind, get. apply (match_first_steps n st); auto.
Qed.

Lemma check_unmatched_patterns_steps (rules : list rule) :
  preserves (steps E) (check_unmatched_patterns rules).
Proof.
  intros st.
  destruct (check_unmatched_patterns_spec rules st)
    as [[-> _] | [pre [p [a [post [_ [-> _]]]]]]]; apply steps_refl.
Qed.

Lemma write_mock_steps (n : string) : preserves (steps E) (write_mock E n).
Proof.
  apply steps_bind; [apply _import_module_steps | intros m; apply _write_steps].
Qed.

Lemma write_intern_steps (n : string) : preserves (steps E) (write_intern E n).
Proof.
  intros st. unfold write_intern. unfold bind at 1. unfold get at 1.
  destruct (node_lookup n (nodes (dependency_graph st))) as [attrs |];
    [| apply steps_refl].
  assert (Hrest : preserves (steps E)
            match src attrs with
            | Some source =>
                match is_package attrs with
                | Some is_package => _write_source_string E n source is_package
                | None => raise (KeyError "is_package")
                end
            | None =>
                module_obj <- _import_module E n ;;
                source <- _get_source_of_module module_obj ;;
                _write_source_string E n source (has_path module_obj)
            end).
  { destruct (src attrs).
    - destruct (is_package attrs); [apply _write_steps | apply steps_raise].
    - apply steps_bind; [apply _import_module_steps | intros m].
      apply steps_bind; [apply _get_source_of_module_steps | intros s].
      apply _write_steps. }
  destruct (is_pickle attrs) as [[|] |];
    [apply steps_refl | apply Hrest | apply Hrest].
Qed.

Lemma _match_patterns_steps : preserves (steps E) (_match_patterns E).
Proof.
  apply steps_bind; [apply preserves_get, steps_refl | intros st0].
  apply steps_for_each, do_match_steps.
Qed.

Lemma _compute_patterns_steps : preserves (steps E) (_compute_patterns E).
Proof.
  apply steps_bind; [apply _match_patterns_steps | intros _].
  apply steps_bind; [apply preserves_get, steps_refl | intros st0]. cbv zeta.
  destruct (negb (Nat.eqb (length _) 0)); [apply steps_raise |].
  apply steps_bind; [apply check_unmatched_patterns_steps | intros _].
  apply steps_bind.
  { destruct (negb _); [apply _write_steps | apply steps_ret]. }
  intros _. apply steps_bind; [apply steps_for_each, write_mock_steps | intros _].
  apply steps_bind; [apply steps_for_each, write_intern_steps | intros _].
  apply _write_steps.
Qed.

Lemma storage_record_cpu (key : string) (storage : Storage) :
  storage_record key (if negb (String.eqb (device_type storage) "cpu")
                      then cpu storage else storage)
  = storage_record key storage.
Proof. destruct (negb _); reflexivity. Qed.

Lemma write_storage_unfold (key : string) (st : PackageExporter) :
  write_storage key st
  = match storages_get key (serialized_storages st) with
    | None => Raise (KeyError key) st
    | Some storage =>
        if zip_file st
        then Return tt (set_archive (archive st ++ [storage_record key storage]) st)
        else Raise (AttributeError "zip_file") st
    end.
Proof.
  unfold write_storage, bind, get, raise, modify.
  destruct (storages_get key (serialized_storages st)) as [s |]; [| reflexivity].
  destruct (zip_file st); simpl; [| reflexivity].
  pose proof (storage_record_cpu key s) as H. unfold storage_record in H.
  injection H as H1 H2. unfold storage_record. now rewrite H1, H2.
Qed.

Lemma write_storage_steps (key : string) : preserves (steps E) (write_storage key).
Proof.
  intros st. rewrite write_storage_unfold.
  destruct (storages_get key (serialized_storages st)) as [s |] eqn:Hs;
    [| apply steps_refl].
  destruct (zip_file st) eqn:Hz; [| apply steps_refl].
  apply steps_one. now constructor.
Qed.

Lemma _finalize_zip_steps : preserves (steps E) _finalize_zip.
Proof.
  intros st. unfold _finalize_zip, bind, get, raise, modify.
  destruct (zip_file st) eqn:Hz; simpl; [| apply steps_refl].
  apply steps_one. now constructor.
Qed.

Lemma close_steps : preserves (steps E) (close E).
Proof.
  apply steps_bind; [apply _compute_patterns_steps | intros _].
  apply steps_bind; [apply preserves_get, steps_refl | intros st0].
  apply steps_bind; [apply steps_for_each, write_storage_steps | intros _].
  apply _finalize_zip_steps.
Qed.

Lemma dependencies_loop_steps (save : string -> bool -> M unit)
      (module_name : string) (deps : list string) :
  (forall n b, preserves (steps E) (save n b)) ->
  preserves (steps E)
    (for_each deps (fun dep =>
       require_module_if_not_provided_with E save dep true ;;
       graph_add_edge module_name dep)).
Proof.
  intros Hs. apply steps_for_each. intros dep. apply steps_bind.
  - intros st. rewrite require_step. destruct (_ || _); [apply steps_refl | apply Hs].
  - intros _. apply modify_steps. intros st. constructor.
Qed.

Lemma _save_module_steps (depth : nat) :
  forall n d, preserves (steps E) (_save_module E depth n d).
Proof.
  induction depth as [| depth IH]; intros n d; simpl.
  - apply preserves_diverge.
  - apply steps_bind; [apply modify_steps; intros st; constructor | intros _].
    apply steps_bind; [apply _import_module_steps | intros m].
    apply steps_bind; [apply _get_source_of_module_steps | intros s].
    apply steps_bind; [apply modify_steps; intros st; constructor | intros _].
    destruct d; [| apply steps_ret].
    apply dependencies_loop_steps. exact IH.
Qed.

Lemma _persistent_id_steps (obj : Storage) :
  preserves (steps E) (_persistent_id E obj).
Proof.
  apply steps_bind; [apply modify_steps; intros st; constructor | intros _].
  apply steps_ret.
Qed.

Lemma append_rule_steps (g : GlobGroup) (a : action) (ae : bool) :
  (a = act_reject_denied_module -> ae = true) ->
  preserves (steps E) (append_rule (g, a, ae)).
Proof. intros H. apply modify_steps. intros st. now constructor. Qed.

Lemma perform_steps (depth : nat) (c : call PyObject) :
  preserves (steps E) (perform E depth c).
Proof.
  destruct c; simpl.
  - apply steps_bind; [apply modify_steps; intros st; constructor | intros _].
    apply steps_bind; [apply modify_steps; intros st; constructor | intros _].
    destruct dependencies; [| apply steps_ret].
    apply dependencies_loop_steps, _save_module_steps.
  - apply steps_bind; [apply modify_steps; intros st; constructor | intros _].
    apply _save_module_steps.
  - apply steps_bind; [apply _filename_steps | intros f].
    apply steps_bind.
    { apply preserves_map_M; [apply steps_refl | apply steps_trans |].
      apply _persistent_id_steps. }
    intros pids. apply steps_bind; [apply append_rule_steps; discriminate | intros _].
    apply steps_bind; [apply modify_steps; intros st; constructor | intros _].
    apply steps_bind; [| intros _; apply _write_steps].
    destruct dependencies; [| apply steps_ret].
    destruct (global_modules _ _); [apply steps_raise |].
    apply dependencies_loop_steps, _save_module_steps.
  - apply steps_bind; [apply _filename_steps | intros f; apply _write_steps].
  - apply steps_bind; [apply _filename_steps | intros f; apply _write_steps].
  - apply append_rule_steps. discriminate.
  - apply append_rule_steps. discriminate.
  - apply append_rule_steps. discriminate.
  - apply append_rule_steps. reflexivity.
  - apply modify_steps. intros st. constructor.
  - apply modify_steps. intros st. constructor.
  - apply modify_steps. intros st. constructor.
Qed.

Lemma script_steps (depth : nat) (calls : list (call PyObject)) :
  preserves (steps E) (for_each calls (perform E depth)).
Proof. apply steps_for_each, perform_steps. Qed.

Lemma with_exporter_steps (body : M unit) :
  preserves (steps E) body -> preserves (steps E) (with_exporter E body).
Proof.
  intros Hb st. unfold with_exporter. specialize (Hb st).
  destruct (body st) as [u s1 | e s1 |]; [| | exact I].
  - pose proof (close_steps s1) as Hc.
    destruct (close E s1); try exact I; eapply steps_trans; eassumption.
  - pose proof (_finalize_zip_steps s1) as Hf.
    destruct (_finalize_zip s1); try exact I; eapply steps_trans; eassumption.
Qed.

(** A relation that every primitive change respects holds between the
    start and the end of every call. *)
Lemma steps_respect (R : PackageExporter -> PackageExporter -> Prop) :
  (forall st, R st st) ->
  (forall a b c, R a b -> R b c -> R a c) ->
  (forall a b, step E a b -> R a b) ->
  forall a b, steps E a b -> R a b.
Proof.
  intros Hrefl Htrans Hstep a b H.
  induction H; [now apply Hstep | apply Hrefl | eapply Htrans; eassumption].
Qed.

Lemma steps_invariant (P : PackageExporter -> Prop) :
  (forall a b, step E a b -> P a -> P b) ->
  forall a b, steps E a b -> P a -> P b.
Proof.
  intros Hstep. apply (steps_respect (fun a b => P a -> P b)); auto.
Qed.

End Steps.

(** ** The archive is only ever appended to *)

Lemma step_archive {PyObject} (E : Env PyObject) (a b : PackageExporter) :
  step E a b ->
  (exists added, archive b = archive a ++ added
                 /\ Forall (admissible_record E) added
                 /\ (zip_file a = false -> added = []))
  /\ (zip_file a = false -> zip_file b = false).
Proof.
  intros H. destruct H; simpl;
    try (split; [exists []; rewrite app_nil_r;
                 split; [reflexivity | split; [constructor | reflexivity]]
                | auto]).
  - split; [| intros; congruence]. eexists. split; [reflexivity |].
    split; [| intros; congruence]. constructor; [now left | constructor].
  - split; [| intros; congruence]. eexists. split; [reflexivity |].
    split; [| intros; congruence].
    constructor; [right; now exists key | constructor].
Qed.

Lemma steps_archive {PyObject} (E : Env PyObject) (a b : PackageExporter) :
  steps E a b ->
  (exists added, archive b = archive a ++ added
                 /\ Forall (admissible_record E) added
                 /\ (zip_file a = false -> added = []))
  /\ (zip_file a = false -> zip_file b = false).
Proof.
  apply (steps_respect E (fun a b =>
    (exists added, archive b = archive a ++ added
                   /\ Forall (admissible_record E) added
                   /\ (zip_file a = false -> added = []))
    /\ (zip_file a = false -> zip_file b = false))).
  - intros st. split; [| auto]. exists []. rewrite app_nil_r. auto.
  - intros x y z [[l1 [H1 [F1 Z1]]] C1] [[l2 [H2 [F2 Z2]]] C2].
    split; [| auto]. exists (l1 ++ l2). split; [| split].
    + now rewrite H2, H1, app_assoc.
    + apply Forall_app. auto.
    + intros Hz. rewrite (Z1 Hz), (Z2 (C1 Hz)). reflexivity.
  - apply step_archive.
Qed.

(** X1. What a call, or sealing, finds in the archive stays there, in
    its place: the archive afterwards is the archive before followed by
    the records the call wrote. *)
Theorem archive_append_only {PyObject} (E : Env PyObject) (depth : nat)
        (st : PackageExporter) :
  (forall c, ends_in (perform E depth c st)
               (fun st' => exists added, archive st' = archive st ++ added))
  /\ (forall calls, ends_in (for_each calls (perform E depth) st)
               (fun st' => exists added, archive st' = archive st ++ added))
  /\ ends_in (close E st)
       (fun st' => exists added, archive st' = archive st ++ added).
Proof.
  assert (H : forall (c : M unit), preserves (steps E) c ->
                ends_in (c st)
                  (fun st' => exists added, archive st' = archive st ++ added)).
  { intros c Hc. specialize (Hc st). unfold ends_in.
    destruct (c st); try exact I;
      destruct (steps_archive E _ _ Hc) as [[l [Hl _]] _]; eauto. }
  split; [| split].
  - intros c. apply H, perform_steps.
  - intros calls. apply H, script_steps.
  - apply H, close_steps.
Qed.

(** ** A closed exporter *)

Lemma _write_closed {PyObject} (E : Env PyObject) (filename data : string)
      (st : PackageExporter) :
  zip_file st = false ->
  _write E filename data st
  = Raise (if is_mangled E filename then RuntimeError_mangled filename
           else AttributeError "zip_file") st.
Proof.
  intros Hz. unfold _write, bind, get, raise.
  destruct (is_mangled E filename); [reflexivity | now rewrite Hz].
Qed.

Lemma bind_Return {A B} (c : M A) (k : A -> M B) (st st' : PackageExporter)
      (b : B) :
  bind c k st = Return b st' ->
  exists a s, c st = Return a s /\ k a s = Return b st'.
Proof.
  unfold bind. destruct (c st) as [a s | e s |]; try discriminate. eauto.
Qed.

(** X2. Once [zip_file] is deleted, by [close] or by [__exit__], no
    call writes a record any more and the attribute stays deleted;
    [save_binary], [save_text], [save_pickle] and [close] do not return:
    they raise. *)
Theorem closed_exporter_writes_nothing {PyObject} (E : Env PyObject)
        (depth : nat) (st : PackageExporter) :
  zip_file st = false ->
  (forall c, ends_in (perform E depth c st)
               (fun st' => archive st' = archive st /\ zip_file st' = false))
  /\ ends_in (close E st)
       (fun st' => archive st' = archive st /\ zip_file st' = false)
  /\ (forall package resource binary u st',
         save_binary E package resource binary st <> Return u st'
         /\ save_text E package resource binary st <> Return u st')
  /\ (forall package resource obj dependencies u st',
         save_pickle E depth package resource obj dependencies st <> Return u st')
  /\ (forall u st', close E st <> Return u st').
Proof.
  intros Hz.
  assert (H : forall (c : M unit), preserves (steps E) c ->
                ends_in (c st)
                  (fun st' => archive st' = archive st /\ zip_file st' = false)).
  { intros c Hc. specialize (Hc st). unfold ends_in.
    destruct (c st); try exact I;
      destruct (steps_archive E _ _ Hc) as [[l [Hl [_ Hn]]] Hc'];
      rewrite Hl, (Hn Hz), app_nil_r; auto. }
  assert (Hbin : forall package resource binary u st',
             save_binary E package resource binary st <> Return u st').
  { intros package resource binary u st' Hr. unfold save_binary in Hr.
    apply bind_Return in Hr. destruct Hr as [f [s [Hf Hw]]].
    assert (Hs : zip_file s = false).
    { pose proof (_filename_steps E package resource st) as Hst.
      rewrite Hf in Hst. now apply (steps_archive E st s). }
    rewrite (_write_closed E f binary s Hs) in Hw. discriminate. }
  split; [intros c; apply H, perform_steps |].
  split; [apply H, close_steps |].
  split; [intros; split; apply Hbin |].
  split.
  - intros package resource obj dependencies u st' Hr. unfold save_pickle in Hr.
    apply bind_Return in Hr. destruct Hr as [f [s1 [H1 Hr]]].
    apply bind_Return in Hr. destruct Hr as [pids [s2 [H2 Hr]]].
    apply bind_Return in Hr. destruct Hr as [u3 [s3 [H3 Hr]]].
    apply bind_Return in Hr. destruct Hr as [u4 [s4 [H4 Hr]]].
    apply bind_Return in Hr. destruct Hr as [u5 [s5 [H5 Hw]]].
    assert (Hpre : preserves (steps E)
              (_filename E package resource ;;
               map_M (_persistent_id E) (pickled_storages E obj) ;;
               intern [("<" ++ package ++ "." ++ resource ++ ">")%string] [] true ;;
               graph_add_node ("<" ++ package ++ "." ++ resource ++ ">")%string
                 (mkAttrs None None (Some true)) ;;
               (if dependencies
                then match global_modules
                             (genops E (pickle_dump E obj pids)) [] with
                     | inl e => raise e
                     | inr all_dependencies =>
                         for_each all_dependencies (fun module_name =>
                           require_module_if_not_provided E depth module_name true ;;
                           graph_add_edge
                             ("<" ++ package ++ "." ++ resource ++ ">")%string
                             module_name)
                     end
                else ret tt))).
    { apply steps_bind; [apply _filename_steps | intros _].
      apply steps_bind.
      { apply preserves_map_M; [apply steps_refl | apply steps_trans |].
        apply _persistent_id_steps. }
      intros _. apply steps_bind; [apply append_rule_steps; discriminate | intros _].
      apply steps_bind; [apply modify_steps; intros s; constructor | intros _].
      destruct dependencies; [| apply steps_ret].
      destruct (global_modules _ _); [apply steps_raise |].
      apply dependencies_loop_steps, _save_module_steps. }
    assert (Hs5 : zip_file s5 = false).
    { specialize (Hpre st). unfold bind in Hpre at 1. rewrite H1 in Hpre.
      unfold bind in Hpre at 1. rewrite H2 in Hpre.
      unfold bind in Hpre at 1. rewrite H3 in Hpre.
      unfold bind in Hpre at 1. rewrite H4 in Hpre.
      rewrite H5 in Hpre. now apply (steps_archive E st s5). }
    rewrite (_write_closed E f _ s5 Hs5) in Hw. discriminate.
  - intros u st' Hr. unfold close in Hr.
    apply bind_Return in Hr. destruct Hr as [u1 [s1 [H1 _]]].
    unfold _compute_patterns in H1.
    apply bind_Return in H1. destruct H1 as [u2 [s2 [H2 H1]]].
    apply bind_Return in H1. destruct H1 as [s2' [s2'' [Hg H1]]].
    injection Hg as <- <-. cbv zeta in H1.
    destruct (negb (Nat.eqb (length _) 0)); [discriminate |].
    apply bind_Return in H1. destruct H1 as [u3 [s3 [H3 H1]]].
    apply bind_Return in H1. destruct H1 as [u4 [s4 [H4 H1]]].
    apply bind_Return in H1. destruct H1 as [u5 [s5 [H5 H1]]].
    apply bind_Return in H1. destruct H1 as [u6 [s6 [H6 Hw]]].
    assert (Hs6 : zip_file s6 = false).
    { assert (S2 : steps E st s2)
        by (pose proof (_match_patterns_steps E st) as X; now rewrite H2 in X).
      assert (S3 : steps E s2 s3)
        by (pose proof (check_unmatched_patterns_steps E (patterns s2) s2) as X;
            now rewrite H3 in X).
      assert (S4 : steps E s3 s4).
      { destruct (negb _) in H4.
        - unfold _write_source_string in H4.
          match type of H4 with
          | _write E ?f ?d _ = _ => pose proof (_write_steps E f d s3) as X
          end.
          now rewrite H4 in X.
        - unfold ret in H4. injection H4 as _ <-. apply steps_refl. }
      assert (S5 : steps E s4 s5)
        by (pose proof (steps_for_each E (mock_modules s2) _ (write_mock_steps E) s4) as X;
            now rewrite H5 in X).
      assert (S6 : steps E s5 s6)
        by (pose proof (steps_for_each E (intern_modules s2) _ (write_intern_steps E) s5) as X;
            now rewrite H6 in X).
      apply (steps_archive E st s6); [| exact Hz].
      repeat (eapply steps_trans; [eassumption |]). apply steps_refl. }
    rewrite (_write_closed E _ _ s6 Hs6) in Hw. discriminate.
Qed.

Lemma closed_exporter_writes_nothing_witness :
  let st := Demo.state_of (export Demo.world 3 []) in
  ends_in (perform Demo.world 3 (call_save_binary "pkg" "res" "bytes") st)
    (fun st' => archive st' = archive st /\ zip_file st' = false).
Proof.
  intros st.
  refine (proj1 (closed_exporter_writes_nothing Demo.world 3 st _) _).
  reflexivity.
Defined.

(** ** Mangled names *)

(** X3. [_write] refuses a mangled filename and writes nothing; so in
    the archive of any script, sealed or not, every record has a name
    that is not mangled, apart from the storage records, which
    [close] writes without that check. *)
Theorem no_mangled_source_record {PyObject} (E : Env PyObject) :
  (forall filename data st,
      is_mangled E filename = true ->
      _write E filename data st = Raise (RuntimeError_mangled filename) st)
  /\ (forall depth calls,
         ends_in (export E depth calls)
           (fun st => Forall (admissible_record E) (archive st)))
  /\ (forall depth calls st,
         Forall (admissible_record E) (archive st) ->
         ends_in (for_each calls (perform E depth) st)
           (fun st' => Forall (admissible_record E) (archive st'))).
Proof.
  assert (H : forall (c : M unit) st,
             preserves (steps E) c ->
             Forall (admissible_record E) (archive st) ->
             ends_in (c st) (fun st' => Forall (admissible_record E) (archive st'))).
  { intros c st Hc Hst. specialize (Hc st). unfold ends_in.
    destruct (c st); try exact I;
      destruct (steps_archive E _ _ Hc) as [[l [Hl [Hf _]]] _];
      rewrite Hl; apply Forall_app; auto. }
  split; [| split].
  - intros filename data st Hm. unfold _write. now rewrite Hm.
  - intros depth calls. apply H; [| constructor].
    apply with_exporter_steps, script_steps.
  - intros depth calls st Hst. apply H; [apply script_steps | exact Hst].
Qed.

(** ** Unique ids *)

Lemma of_int_inj (z1 z2 : Z) : Str.of_int z1 = Str.of_int z2 -> z1 = z2.
Proof.
  unfold Str.of_int. intros H.
  assert (Hn : forall z, Z.to_int z <> Decimal.Pos Decimal.Nil
                         /\ Z.to_int z <> Decimal.Neg Decimal.Nil).
  { intros [| p | p]; simpl; split; try discriminate;
      intros [= Hp]; exact (Unsigned.to_uint_nonnil p Hp). }
  apply to_int_inj.
  assert (Hs : Some (Z.to_int z1) = Some (Z.to_int z2)).
  { rewrite <- (NilZero.isi (Z.to_int z1)), <- (NilZero.isi (Z.to_int z2));
      try apply Hn. now rewrite H. }
  now injection Hs.
Qed.

Lemma steps_unique_id {PyObject} (E : Env PyObject) (a b : PackageExporter) :
  steps E a b -> _unique_id a <= _unique_id b.
Proof.
  apply (steps_respect E (fun a b => _unique_id a <= _unique_id b)).
  - intros st. lia.
  - intros x y z. lia.
  - intros x y H. destruct H; simpl; lia.
Qed.

(** X4. An id handed out by [get_unique_id] is not handed out again:
    whatever calls are made on the exporter in between, sealing
    included, a later [get_unique_id] returns another string. *)
Theorem get_unique_id_never_repeats {PyObject} (E : Env PyObject)
        (st st1 st2 st3 : PackageExporter) (id1 id2 : string) :
  get_unique_id st = Return id1 st1 ->
  steps E st1 st2 ->
  get_unique_id st2 = Return id2 st3 ->
  id1 <> id2
  /\ id1 = Str.of_int (Z.of_nat (_unique_id st))
  /\ _unique_id st1 = S (_unique_id st).
Proof.
  unfold get_unique_id, bind, get, modify, ret. simpl.
  intros [= <- <-] Hs [= <- <-]. simpl in Hs.
  split; [| auto]. intros Heq. apply of_int_inj in Heq.
  apply steps_unique_id in Hs. simpl in Hs. lia.
Qed.

Lemma get_unique_id_never_repeats_witness :
  let st1 := set_unique_id 1 __init__ in
  let st2 := Demo.state_of
               (for_each [call_save_source_string "a" "import b" false true;
                          call_intern ["**"] [] true]
                         (perform Demo.world 3) st1) in
  get_unique_id __init__ = Return "0" st1
  /\ get_unique_id st2 = Return "1" (set_unique_id 2 st2)
  /\ "0" <> "1".
Proof.
  intros st1 st2. split; [reflexivity |]. split; [reflexivity |].
  refine (proj1 (get_unique_id_never_repeats Demo.world __init__ st1 st2
                   (set_unique_id 2 st2) "0" "1" _ _ _)).
  - reflexivity.
  - exact (script_steps Demo.world 3
             [call_save_source_string "a" "import b" false true;
              call_intern ["**"] [] true] st1).
  - reflexivity.
Defined.

(** ** The pattern table only grows *)

Lemma table_extends_refl (rules : list rule) : table_extends rules rules.
Proof. exists [], []. rewrite app_nil_r. split; [reflexivity | constructor]. Qed.

Lemma table_extends_trans (a b c : list rule) :
  table_extends a b -> table_extends b c -> table_extends a c.
Proof.
  intros [f1 [b1 [-> F1]]] [f2 [b2 [-> F2]]].
  exists (f2 ++ f1), (b1 ++ b2). split.
  - now rewrite <- !app_assoc.
  - apply Forall_app. auto.
Qed.

Lemma steps_table {PyObject} (E : Env PyObject) (a b : PackageExporter) :
  steps E a b -> table_extends (patterns a) (patterns b).
Proof.
  apply (steps_respect E (fun a b => table_extends (patterns a) (patterns b))).
  - intros st. apply table_extends_refl.
  - intros x y z. apply table_extends_trans.
  - intros x y H. destruct H; simpl; try apply table_extends_refl.
    + exists [implicit_rule module_name], []. rewrite app_nil_r.
      split; [reflexivity |]. repeat constructor. now exists module_name.
    + exists []. eexists. split; [reflexivity | constructor].
Qed.

(** X5. No rule ever leaves the pattern table or changes place relative
    to another: after a call, a script or sealing the table is the old
    one with rules in front, each of them the implicit intern rule
    (GlobGroup(name), intern, allow_empty = False) of a saved name, and
    rules behind. *)
Theorem pattern_table_only_grows {PyObject} (E : Env PyObject) (depth : nat)
        (st : PackageExporter) :
  (forall c, ends_in (perform E depth c st)
               (fun st' => table_extends (patterns st) (patterns st')))
  /\ (forall calls, ends_in (for_each calls (perform E depth) st)
               (fun st' => table_extends (patterns st) (patterns st')))
  /\ ends_in (close E st) (fun st' => patterns st' = patterns st).
Proof.
  assert (H : forall (c : M unit), preserves (steps E) c ->
                ends_in (c st)
                  (fun st' => table_extends (patterns st) (patterns st'))).
  { intros c Hc. specialize (Hc st). unfold ends_in.
    destruct (c st); try exact I; now apply (steps_table E). }
  split; [intros c; apply H, perform_steps |].
  split; [intros calls; apply H, script_steps |].
  unfold ends_in.
  destruct (_compute_patterns_phases E) as [emit [Hemit Hcp]].
  assert (Hp : preserves (keeps patterns) (close E)).
  { apply preserves_bind; [apply keeps_trans | |].
    - intros s. rewrite Hcp.
      pose proof (classification_loop E (node_names (dependency_graph s)) s) as Hl.
      rewrite <- _match_patterns_loop in Hl.
      destruct (_match_patterns E s) as [u s1 | e s1 |]; [| | exact I].
      + destruct Hl as [Hk _]. apply unclassified_part_patterns in Hk. cbv zeta.
        destruct (negb _); [exact Hk |].
        destruct (check_unmatched_patterns_spec (patterns s1) s1)
          as [[-> _] | [pre [p [a [post [_ [-> _]]]]]]]; [| exact Hk].
        pose proof (Hemit s1 s1) as He.
        destruct (emit s1 s1) as [u2 s2 | e2 s2 |]; try exact I;
          unfold keeps, policy_part in He; inversion He;
          unfold keeps; congruence.
      + destruct Hl as [Hk _]. now apply unclassified_part_patterns in Hk.
    - intros _. apply preserves_bind;
        [apply keeps_trans | apply preserves_get, keeps_refl | intros s0].
      apply preserves_bind; [apply keeps_trans | |].
      + apply preserves_for_each; [apply keeps_refl | apply keeps_trans |].
        intros key s. rewrite write_storage_unfold.
        destruct (storages_get key (serialized_storages s)); [| reflexivity].
        destruct (zip_file s); reflexivity.
      + intros _ s. unfold _finalize_zip, bind, get, raise, modify.
        destruct (zip_file s); reflexivity. }
  specialize (Hp st). destruct (close E st); try exact I; exact Hp.
Qed.

(** ** Saved modules take precedence *)

Lemma for_each_app {A} (l1 l2 : list A) (body : A -> M unit)
      (st : PackageExporter) :
  for_each (l1 ++ l2) body st
  = (for_each l1 body ;; for_each l2 body) st.
Proof.
  revert st. induction l1 as [| x l1 IH]; intros st; simpl; [reflexivity |].
  unfold bind. destruct (body x st) as [u s | e s |];
    [rewrite IH; reflexivity | reflexivity | reflexivity].
Qed.

Lemma fullmatch_self (l : list string) :
  Glob.fullmatch (map Glob.parse_component l) l = true.
Proof.
  induction l as [| x l IH]; simpl; [reflexivity |].
  destruct (Glob.parse_component x) eqn:Hx.
  - exact IH.
  - apply orb_true_iff. right.
    destruct l as [| y l']; [reflexivity |].
    simpl. simpl in IH. now rewrite IH.
  - unfold Glob.parse_component in Hx.
    destruct (String.eqb x "**"); [discriminate |].
    destruct (String.eqb x "*"); [discriminate |].
    injection Hx as <-. now rewrite String.eqb_refl, IH.
Qed.

(** The matcher built from a name accepts that name. *)
Lemma implicit_rule_accepts (module_name : string) :
  matches (fst (fst (implicit_rule module_name))) module_name = true.
Proof.
  unfold matches. simpl. unfold Glob.glob_matches, Glob.compile.
  now rewrite fullmatch_self.
Qed.

Lemma implicit_front_interns (front rest : list rule) (module_name : string) :
  Forall (fun r => exists n, r = implicit_rule n) front ->
  exists r, first_match (front ++ implicit_rule module_name :: rest) module_name
            = Some r
            /\ snd (fst r) = act_save_intern_module.
Proof.
  induction 1 as [| r front [n ->] _ IH]; simpl.
  - pose proof (implicit_rule_accepts module_name) as Ha. simpl in Ha.
    rewrite Ha. eauto.
  - destruct (matches _ module_name); [eauto | exact IH].
Qed.

Lemma steps_graph_grows {PyObject} (E : Env PyObject) (a b : PackageExporter) :
  steps E a b -> graph_grows a b.
Proof.
  apply (steps_respect E graph_grows);
    [apply graph_grows_refl | apply graph_grows_trans |].
  intros x y H. destruct H; try (intros z Hz; exact Hz).
  - intros z Hz. simpl. apply add_node_names. now right.
  - intros z Hz. simpl. apply add_edge_names. auto.
Qed.

Lemma _save_module_lands {PyObject} (E : Env PyObject) (depth : nat)
      (n : string) (d : bool) (st st' : PackageExporter) (u : unit) :
  _save_module E depth n d st = Return u st' ->
  In n (node_names (dependency_graph st')).
Proof.
  destruct depth as [| depth]; [discriminate |].
  rewrite _save_module_unfold. cbv zeta.
  destruct (_import_module E n _) as [m s0 | |]; try discriminate.
  destruct (_get_source_of_module m _) as [source s1 | |]; try discriminate.
  set (st1 := set_dependency_graph _ _).
  assert (H1 : In n (node_names (dependency_graph st1))).
  { simpl. apply add_node_names. now left. }
  destruct d.
  - intros Hr.
    pose proof (dependencies_loop_steps E (_save_module E depth) n
                  (_get_dependencies E source n (has_path m))
                  (_save_module_steps E depth) st1) as Hs.
    rewrite Hr in Hs. now apply (steps_graph_grows E st1 st').
  - intros [= _ <-]. exact H1.
Qed.

Lemma save_source_string_lands {PyObject} (E : Env PyObject) (depth : nat)
      (n src : string) (p d : bool) (st st' : PackageExporter) (u : unit) :
  save_source_string E depth n src p d st = Return u st' ->
  In n (node_names (dependency_graph st')).
Proof.
  unfold save_source_string. intros H.
  apply bind_Return in H. destruct H as [u1 [s1 [_ H]]].
  apply bind_Return in H. destruct H as [u2 [s2 [Hn H]]].
  unfold graph_add_node, modify in Hn. injection Hn as _ <-.
  assert (Hs : steps E (set_dependency_graph
                          (add_node n (mkAttrs (Some src) (Some p) None)
                                    (dependency_graph s1)) s1) st').
  { destruct d.
    - pose proof (dependencies_loop_steps E (_save_module E depth) n
                    (_get_dependencies E src n p)
                    (_save_module_steps E depth)
                    (set_dependency_graph
                       (add_node n (mkAttrs (Some src) (Some p) None)
                                 (dependency_graph s1)) s1)) as X.
      unfold require_module_if_not_provided in H. now rewrite H in X.
    - injection H as _ <-. apply steps_refl. }
  apply (steps_graph_grows E _ _ Hs). simpl. apply add_node_names. now left.
Qed.

(** X6. A module saved with [save_source_string] or [save_module] is
    interned, whatever rules the user declared before or declares after:
    unless its name is implicitly externable, the first rule of the table
    that accepts it is an implicit intern rule, and when sealing
    completes the name is in the interned table. *)
Theorem saved_module_is_interned {PyObject} (E : Env PyObject) (depth : nat)
        (before after : list (call PyObject)) (c : call PyObject)
        (module_name : string) (st0 st : PackageExporter) :
  (exists src is_package dependencies,
      c = call_save_source_string module_name src is_package dependencies)
  \/ (exists dependencies, c = call_save_module module_name dependencies) ->
  for_each (before ++ c :: after) (perform E depth) st0 = Return tt st ->
  _can_implicitly_extern E module_name = false ->
  In module_name (node_names (dependency_graph st))
  /\ decided_action E (patterns st) module_name = Some act_save_intern_module
  /\ (forall st', close E st = Return tt st' ->
                  In module_name (intern_modules st')).
Proof.
  intros Hc Hrun Himp.
  rewrite for_each_app in Hrun. apply bind_Return in Hrun.
  destruct Hrun as [u1 [s1 [_ Hrun]]]. simpl in Hrun.
  apply bind_Return in Hrun. destruct Hrun as [u2 [s2 [Hcall Hrest]]].
  assert (Hs : steps E s2 st).
  { pose proof (script_steps E depth after s2) as X. now rewrite Hrest in X. }
  assert (Hafter : patterns s2 = implicit_rule module_name :: patterns s1
                   /\ In module_name (node_names (dependency_graph s2))).
  { destruct Hc as [[src [p [d ->]]] | [d ->]]; simpl in Hcall.
    - pose proof (save_source_string_patterns E depth module_name src p d s1) as Hp.
      rewrite Hcall in Hp. split; [exact Hp |].
      now apply (save_source_string_lands E depth module_name src p d s1 s2 u2).
    - pose proof (save_module_patterns E depth module_name d s1) as Hp.
      rewrite Hcall in Hp. split; [exact Hp |].
      unfold save_module in Hcall. apply bind_Return in Hcall.
      destruct Hcall as [u3 [s3 [_ Hsave]]].
      now apply (_save_module_lands E depth module_name d s3 s2 u2). }
  destruct Hafter as [Hp2 Hn2].
  assert (Hnode : In module_name (node_names (dependency_graph st)))
    by now apply (steps_graph_grows E s2 st).
  assert (Hdec : decided_action E (patterns st) module_name
                 = Some act_save_intern_module).
  { destruct (steps_table E s2 st Hs) as [front [back [Hp Hf]]].
    rewrite Hp2 in Hp. simpl in Hp.
    destruct (implicit_front_interns front (patterns s1 ++ back) module_name Hf)
      as [r [Hr Ha]].
    unfold decided_action.
    rewrite _can_implicitly_extern_root, Himp, Hp. simpl.
    now rewrite Hr, <- Ha. }
  split; [exact Hnode |]. split; [exact Hdec |].
  intros st' Hclose.
  destruct (close_returns E st st' Hclose) as [s3 [Hm [_ [_ Hk]]]].
  unfold keeps, policy_part in Hk. inversion Hk as [[Hi He Hmo Hg Hp Hma]].
  rewrite Hi. rewrite _match_patterns_loop in Hm.
  pose proof (classification_loop E (node_names (dependency_graph st)) st) as Hl.
  rewrite Hm in Hl. destruct Hl as [_ [Ht _]].
  apply (Ht act_save_intern_module module_name); [discriminate |].
  right. now split.
Qed.

Lemma saved_module_is_interned_witness :
  let st := Demo.script Demo.world 3
              [call_mock ["**"] [] true;
               call_save_source_string "a" "x = 1" false false;
               call_extern ["a"] [] true] in
  decided_action Demo.world (patterns st) "a" = Some act_save_intern_module
  /\ intern_modules (Demo.state_of (close Demo.world st)) = ["a"].
Proof.
  intros st. split; [| reflexivity].
  refine (proj1 (proj2 (saved_module_is_interned Demo.world 3
                          [call_mock ["**"] [] true]
                          [call_extern ["a"] [] true]
                          (call_save_source_string "a" "x = 1" false false)
                          "a" __init__ st _ _ _))).
  - left. exists "x = 1", false, false. reflexivity.
  - reflexivity.
  - reflexivity.
Defined.

(** ** Denied and unclassified nodes *)

Lemma close_raises_with_classification {PyObject} (E : Env PyObject)
      (st st1 : PackageExporter) (e : exn) :
  _match_patterns E st = Raise e st1 ->
  _compute_patterns E st = Raise e st1 /\ close E st = Raise e st1.
Proof.
  intros Hm.
  assert (Hc : _compute_patterns E st = Raise e st1).
  { unfold _compute_patterns. unfold bind at 1. now rewrite Hm. }
  split; [exact Hc |]. unfold close. unfold bind at 1. now rewrite Hc.
Qed.

(** X7. Sealing classifies the nodes in the order they came into the
    graph and stops at the first one whose deciding rule is a deny rule:
    it raises DeniedModuleError for that node, with nothing written and
    [zip_file] still there. *)
Theorem denied_node_aborts_sealing {PyObject} (E : Env PyObject)
        (st : PackageExporter) (pre post : list string) (n : string) :
  node_names (dependency_graph st) = pre ++ n :: post ->
  (forall m, In m pre ->
     decided_action E (patterns st) m <> Some act_reject_denied_module) ->
  decided_action E (patterns st) n = Some act_reject_denied_module ->
  exists st1,
    _match_patterns E st = Raise (DeniedModuleError n) st1
    /\ close E st = Raise (DeniedModuleError n) st1
    /\ archive st1 = archive st
    /\ zip_file st1 = zip_file st
    /\ dependency_graph st1 = dependency_graph st.
Proof.
  intros Hnodes Hpre Hn.
  assert (Hm : exists st1, _match_patterns E st = Raise (DeniedModuleError n) st1
                           /\ keeps unclassified_part st st1).
  { rewrite _match_patterns_loop, Hnodes, for_each_app. unfold bind.
    pose proof (classification_loop E pre st) as Hl.
    destruct (for_each pre (do_match E) st) as [u s1 | e s1 |];
      [| | destruct Hl].
    - destruct Hl as [Hk _]. simpl. unfold bind.
      pose proof (do_match_step E n s1) as Hs.
      rewrite (unclassified_part_patterns _ _ Hk) in Hs.
      destruct (do_match E n s1) as [u' s2 | e s2 |]; [| | destruct Hs].
      + destruct Hs as [_ [_ [_ Hd]]]. contradiction.
      + destruct Hs as [Hk' [-> _]]. exists s2. split; [reflexivity |].
        eapply keeps_trans; eassumption.
    - destruct Hl as [_ [m [Hin [_ Hd]]]]. exfalso. exact (Hpre m Hin Hd). }
  destruct Hm as [st1 [Hm Hk]]. exists st1.
  split; [exact Hm |].
  split; [apply (close_raises_with_classification E st st1 _ Hm) |].
  unfold keeps, unclassified_part in Hk. inversion Hk. auto.
Qed.

Lemma denied_node_aborts_sealing_witness :
  let st := Demo.script Demo.world 3
              [call_deny ["b"] [] ; call_intern ["**"] [] true;
               call_save_source_string "a" "import b" false true] in
  exists st1, close Demo.world st = Raise (DeniedModuleError "b") st1
              /\ archive st1 = [].
Proof.
  intros st.
  destruct (denied_node_aborts_sealing Demo.world st ["a"] [] "b")
    as [st1 [_ [Hc [Ha _]]]].
  - reflexivity.
  - intros m [<- | []]. vm_compute. discriminate.
  - reflexivity.
  - exists st1. split; [exact Hc | exact Ha].
Defined.

(** X8. With the three tables empty as sealing starts and no node
    denied, the set that the unclassified-module error prints holds
    exactly the graph nodes that are not implicitly externable and that
    no rule of the table accepts; the error shows them in the order in
    which the running process iterates over that set. *)
Theorem unclassified_nodes_are_reported {PyObject} (E : Env PyObject)
        (st st1 : PackageExporter) :
  intern_modules st = [] -> extern_modules st = [] -> mock_modules st = [] ->
  _match_patterns E st = Return tt st1 ->
  (exists n, In n (node_names (dependency_graph st))
             /\ decided_action E (patterns st) n = None) ->
  let unmatched :=
    filter (fun n => match decided_action E (patterns st) n with
                     | None => true
                     | Some _ => false
                     end)
           (node_names (dependency_graph st)) in
  close E st = Raise (RuntimeError_unmatched
                        (set_iteration_order E unmatched)) st1
  /\ (forall n, In n unmatched <->
                In n (node_names (dependency_graph st))
                /\ decided_action E (patterns st) n = None)
  /\ archive st1 = archive st.
Proof.
  intros Hi He Hmo Hm [n0 [Hn0 Hd0]] unmatched.
  assert (Hmem : forall n, In n unmatched <->
                   In n (node_names (dependency_graph st))
                   /\ decided_action E (patterns st) n = None).
  { intros n. unfold unmatched. rewrite filter_In.
    destruct (decided_action E (patterns st) n); intuition congruence. }
  destruct (_compute_patterns_phases E) as [emit [Hemit Hcp]].
  pose proof (classification_loop E (node_names (dependency_graph st)) st) as Hl.
  rewrite <- _match_patterns_loop, Hm in Hl.
  destruct Hl as [Hk [Ht [_ Hd]]].
  assert (Hg : dependency_graph st1 = dependency_graph st
               /\ archive st1 = archive st).
  { unfold keeps, unclassified_part in Hk. inversion Hk. auto. }
  destruct Hg as [Hg Ha].
  assert (Hsame : filter (fun n => negb (classified st1 n))
                         (node_names (dependency_graph st1)) = unmatched).
  { rewrite Hg. unfold unmatched. apply filter_ext_in. intros n Hn.
    specialize (Hd n Hn).
    destruct (decided_action E (patterns st) n) as [a |] eqn:Hdec.
    - apply negb_false_iff. unfold classified. rewrite !orb_true_iff, !mem_In.
      destruct a; [| | | contradiction].
      + left. left. apply (Ht act_save_intern_module); [discriminate | auto].
      + right. apply (Ht act_save_mock_module); [discriminate | auto].
      + left. right. apply (Ht act_save_extern_module); [discriminate | auto].
    - apply negb_true_iff. unfold classified.
      rewrite !orb_false_iff, !mem_false. repeat split; intros Hin.
      + apply (Ht act_save_intern_module) in Hin; [| discriminate].
        simpl in Hin. rewrite Hi in Hin. destruct Hin as [[] | [_ H]]. congruence.
      + apply (Ht act_save_extern_module) in Hin; [| discriminate].
        simpl in Hin. rewrite He in Hin. destruct Hin as [[] | [_ H]]. congruence.
      + apply (Ht act_save_mock_module) in Hin; [| discriminate].
        simpl in Hin. rewrite Hmo in Hin. destruct Hin as [[] | [_ H]]. congruence. }
  assert (Hcp' := Hcp st). rewrite Hm in Hcp'. cbv zeta in Hcp'.
  rewrite Hsame in Hcp'.
  split; [| split; [exact Hmem | exact Ha]].
  assert (Hne : In n0 unmatched) by (apply Hmem; auto).
  destruct unmatched as [| x l]; [destruct Hne |]. simpl in Hcp'.
  unfold close. unfold bind at 1. now rewrite Hcp'.
Qed.

Lemma unclassified_nodes_are_reported_witness :
  let st := Demo.script Demo.world_reseeded 3
              [call_save_source_string "m" "import a" false true] in
  exists st1,
    close Demo.world_reseeded st = Raise (RuntimeError_unmatched ["b"; "a"]) st1.
Proof.
  intros st.
  exists (Demo.state_of (_match_patterns Demo.world_reseeded st)).
  refine (proj1 (unclassified_nodes_are_reported Demo.world_reseeded st _
                   eq_refl eq_refl eq_refl eq_refl _)).
  exists "a". split; [simpl; auto | reflexivity].
Defined.

(** ** The dependency closure records what it scanned *)

Section Closure_records.

Context {PyObject : Type} (E : Env PyObject).

Lemma steps_edges_grow (a b : PackageExporter) : steps E a b -> edges_grow a b.
Proof.
  apply (steps_respect E edges_grow).
  - intros st e He. exact He.
  - intros x y z Hxy Hyz e He. apply Hyz, Hxy, He.
  - intros x y H. destruct H; try (intros e He; exact He).
    intros e He. simpl.
    destruct (existsb _ _); [exact He | apply in_or_app; now left].
Qed.

Lemma add_edge_In (u v : string) (g : DiGraph) :
  In (u, v) (edges (add_edge u v g)).
Proof.
  unfold add_edge. simpl.
  destruct (existsb (edge_eqb (u, v)) (edges g)) eqn:Hx.
  - apply existsb_exists in Hx. destruct Hx as [[a b] [Hin He]].
    unfold edge_eqb in He. simpl in He. apply andb_true_iff in He.
    destruct He as [H1 H2]. apply String.eqb_eq in H1, H2. now subst.
  - apply in_or_app. right. now left.
Qed.

Lemma recorded_steps (a b : PackageExporter) (m : string) :
  steps E a b -> recorded E a m -> recorded E b m.
Proof.
  intros Hs [obj [source [Hi [Hsrc Hc]]]]. exists obj, source.
  split; [exact Hi |]. split; [exact Hsrc |].
  intros d Hd. destruct (Hc d Hd) as [He Hn]. split.
  - now apply (steps_edges_grow a b Hs).
  - now apply (steps_graph_grows E a b Hs).
Qed.

Lemma closure_recorded_quiet (st st' : PackageExporter) :
  visited st' = visited st -> closure_recorded E st st'.
Proof.
  intros Hv. exists []. split; [now rewrite app_nil_r | intros m []].
Qed.

Lemma closure_recorded_trans (a b c : PackageExporter) :
  closure_recorded E a b -> steps E b c -> closure_recorded E b c ->
  closure_recorded E a c.
Proof.
  intros [new0 [Hv0 Hr0]] Hs [new1 [Hv1 Hr1]].
  exists (new0 ++ new1). split.
  - now rewrite Hv1, Hv0, app_assoc.
  - intros m Hm. apply in_app_or in Hm. destruct Hm as [Hm | Hm].
    + apply (recorded_steps b c m Hs), Hr0, Hm.
    + now apply Hr1.
Qed.

Lemma _get_source_of_module_anywhere (m : ModuleType) (source : string)
      (st st' : PackageExporter) :
  _get_source_of_module m st = Return source st' ->
  forall s, _get_source_of_module m s = Return source s.
Proof.
  unfold _get_source_of_module.
  destruct (__file__ m) as [f |]; [| discriminate].
  destruct (negb (Str.endswith f ".py")); [discriminate |].
  unfold ret. intros [= <- _] s. reflexivity.
Qed.

(** The loop over the dependencies of [root]. *)
Lemma closure_loop (depth : nat) (root : string) :
  (forall n st st', _save_module E depth n true st = Return tt st' ->
                    closure_recorded E st st') ->
  forall deps st st',
    for_each deps (fun dep =>
      require_module_if_not_provided_with E (_save_module E depth) dep true ;;
      graph_add_edge root dep) st = Return tt st' ->
    closure_recorded E st st' /\ successors_cover st' root deps.
Proof.
  intros IH. induction deps as [| d deps IHd]; intros st st' H.
  - injection H as <-. split; [now apply closure_recorded_quiet | intros d []].
  - simpl in H. apply bind_Return in H. destruct H as [u [s1 [Hbody Hrest]]].
    apply bind_Return in Hbody. destruct Hbody as [u0 [s0 [Hreq Hedge]]].
    unfold graph_add_edge, modify in Hedge. injection Hedge as _ <-.
    assert (Hs0 : closure_recorded E st s0).
    { rewrite require_step in Hreq.
      destruct (contains (dependency_graph st) d || _can_implicitly_extern E d).
      - injection Hreq as _ <-. now apply closure_recorded_quiet.
      - destruct u0. exact (IH d st s0 Hreq). }
    set (s1 := set_dependency_graph (add_edge root d (dependency_graph s0)) s0)
      in *.
    assert (Hstep : steps E s0 s1) by (apply steps_one, step_add_edge).
    assert (Hloop : steps E s1 st').
    { pose proof (dependencies_loop_steps E (_save_module E depth) root deps
                    (_save_module_steps E depth) s1) as X.
      now rewrite Hrest in X. }
    destruct (IHd s1 st' Hrest) as [Hr1 Hc1].
    split.
    + apply (closure_recorded_trans st s0 st' Hs0).
      * eapply steps_trans; eassumption.
      * destruct Hr1 as [new1 [Hv1 Hm1]]. exists new1. split; assumption.
    + intros x [<- | Hx]; [| now apply Hc1]. split.
      * apply (steps_edges_grow s1 st' Hloop). apply add_edge_In.
      * apply (steps_graph_grows E s1 st' Hloop). simpl.
        apply add_edge_names. auto.
Qed.

Lemma _save_module_records (depth : nat) :
  forall n st st',
    _save_module E depth n true st = Return tt st' ->
    exists new,
      visited st' = visited st ++ n :: new
      /\ forall m, In m (n :: new) -> recorded E st' m.
Proof.
  induction depth as [| depth IH]; intros n st st' H; [discriminate |].
  rewrite _save_module_unfold in H. cbv zeta in H.
  set (st0 := set_visited (visited st ++ [n]) st) in *.
  destruct (_import_module_cases E n st0) as [[obj [Hi Hr]] | Hr];
    rewrite Hr in H; [| discriminate].
  destruct (_get_source_of_module obj st0) as [source s |  |] eqn:Hsrc;
    try discriminate.
  apply closure_loop in H.
  - destruct H as [[new [Hv Hrec]] Hcover]. exists new. split.
    + rewrite Hv. simpl. now rewrite <- app_assoc.
    + intros m [<- | Hm]; [| now apply Hrec].
      exists obj, source. split; [exact Hi |]. split; [| exact Hcover].
      now apply (_get_source_of_module_anywhere obj source st0 s).
  - intros x a b Hx. destruct (IH x a b Hx) as [new [Hv Hrec]].
    exists (x :: new). split; assumption.
Qed.

End Closure_records.

(** X9. When [save_module] returns, the module and every module the
    closure went into below it are resolved by the importer, have a
    readable source, and each name [_get_dependencies] finds in that
    source is a node of the graph with an edge from the module. *)
Theorem save_module_records_closure {PyObject} (E : Env PyObject)
        (depth : nat) (module_name : string) (st st' : PackageExporter) :
  save_module E depth module_name true st = Return tt st' ->
  exists new,
    visited st' = visited st ++ module_name :: new
    /\ forall m, In m (module_name :: new) -> recorded E st' m.
Proof.
  unfold save_module. intros H. apply bind_Return in H.
  destruct H as [u [s1 [Hi H]]].
  unfold _implicit_intern, modify in Hi. injection Hi as _ <-.
  apply (_save_module_records E) in H. exact H.
Qed.

Lemma save_module_records_closure_witness :
  let st' := Demo.state_of (save_module Demo.world 3 "a" true __init__) in
  exists new,
    visited st' = "a" :: new
    /\ forall m, In m ("a" :: new) -> recorded Demo.world st' m.
Proof.
  intros st'.
  exact (save_module_records_closure Demo.world 3 "a" __init__ st' eq_refl).
Defined.

(** X10. When [save_source_string] returns with dependencies scanned,
    each name [_get_dependencies] finds in the given source is a node of
    the graph with an edge from the saved module, and every module the
    closure went into is recorded in the same way from its own source. *)
Theorem save_source_string_records_dependencies {PyObject} (E : Env PyObject)
        (depth : nat) (module_name src : string) (is_package : bool)
        (st st' : PackageExporter) :
  save_source_string E depth module_name src is_package true st
  = Return tt st' ->
  successors_cover st' module_name
    (_get_dependencies E src module_name is_package)
  /\ closure_recorded E st st'.
Proof.
  unfold save_source_string. intros H. apply bind_Return in H.
  destruct H as [u [s1 [Hi H]]].
  unfold _implicit_intern, modify in Hi. injection Hi as _ <-.
  apply bind_Return in H. destruct H as [u2 [s2 [Hn H]]].
  unfold graph_add_node, modify in Hn. injection Hn as _ <-.
  apply (closure_loop E depth module_name) in H.
  - destruct H as [[new [Hv Hrec]] Hcover]. split; [exact Hcover |].
    exists new. split; assumption.
  - intros x a b Hx. destruct (_save_module_records E depth x a b Hx)
      as [new [Hv Hrec]].
    exists (x :: new). split; assumption.
Qed.

Lemma save_source_string_records_dependencies_witness :
  let st' := Demo.state_of
               (save_source_string Demo.world 3 "m" "import b" false true
                                   __init__) in
  In ("m", "b") (edges (dependency_graph st'))
  /\ visited st' = ["b"; "a"].
Proof.
  intros st'. split; [| reflexivity].
  refine (proj1 (proj1 (save_source_string_records_dependencies
                          Demo.world 3 "m" "import b" false __init__ st'
                          eq_refl) "b" _)).
  now left.
Defined.

(** ** The layout of a sealed archive *)

Lemma insert_sorted_Permutation (x : string) (l : list string) :
  Permutation (Str.insert_sorted x l) (x :: l).
Proof.
  induction l as [| a l IH]; simpl; [reflexivity |].
  destruct (String.leb x a); [reflexivity |].
  etransitivity; [apply perm_skip, IH | apply perm_swap].
Qed.

Lemma sorted_Permutation (l : list string) : Permutation (Str.sorted l) l.
Proof.
  induction l as [| a l IH]; simpl; [constructor |].
  etransitivity; [apply insert_sorted_Permutation | now apply perm_skip].
Qed.

Lemma insert_sorted_Sorted (x : string) (l : list string) :
  Sorted (fun a b => String.leb a b = true) l ->
  Sorted (fun a b => String.leb a b = true) (Str.insert_sorted x l).
Proof.
  induction 1 as [| a l Hs IH Hhd]; simpl; [repeat constructor |].
  destruct (String.leb x a) eqn:Hx.
  - constructor; [now constructor | now constructor].
  - assert (Hax : String.leb a x = true).
    { destruct (String.leb_total a x) as [H | H]; [exact H | congruence]. }
    constructor; [exact IH |].
    destruct l as [| b l']; simpl; [now constructor |].
    destruct (String.leb x b); constructor; [exact Hax |].
    now inversion Hhd.
Qed.

Lemma sorted_Sorted (l : list string) :
  Sorted (fun a b => String.leb a b = true) (Str.sorted l).
Proof.
  induction l as [| a l IH]; simpl; [constructor |].
  now apply insert_sorted_Sorted.
Qed.



Section Layout.

Context {PyObject : Type} (E : Env PyObject).

Lemma writes_refl (st : PackageExporter) : writes E st st.
Proof.
  exists []. split; [| constructor].
  destruct st; unfold set_archive; simpl. now rewrite app_nil_r.
Qed.

Lemma writes_trans (a b c : PackageExporter) :
  writes E a b -> writes E b c -> writes E a c.
Proof.
  intros [x [-> Hx]] [y [-> Hy]]. exists (x ++ y). split.
  - destruct a; unfold set_archive; simpl. now rewrite app_assoc.
  - now apply Forall_app.
Qed.

Lemma _write_writes (filename data : string) :
  preserves (writes E) (_write E filename data).
Proof.
  intros st. unfold _write, bind, get, raise, modify.
  destruct (is_mangled E filename) eqn:Hm; [apply writes_refl |].
  destruct (zip_file st); simpl; [| apply writes_refl].
  exists [(filename, data, String.length data)].
  split; [reflexivity | repeat constructor; exact Hm].
Qed.

Lemma _import_module_writes (n : string) :
  preserves (writes E) (_import_module E n).
Proof.
  intros st. destruct (_import_module_cases E n st) as [[m [_ ->]] | ->];
    apply writes_refl.
Qed.

Lemma _get_source_of_module_writes (m : ModuleType) :
  preserves (writes E) (_get_source_of_module m).
Proof.
  intros st. destruct (_get_source_of_module_cases m st) as [[s ->] | ->];
    apply writes_refl.
Qed.

Lemma write_mock_writes (n : string) : preserves (writes E) (write_mock E n).
Proof.
  unfold write_mock.
  apply preserves_bind; [apply writes_trans | apply _import_module_writes |].
  intros m. apply _write_writes.
Qed.

Lemma write_intern_writes (n : string) : preserves (writes E) (write_intern E n).
Proof.
  unfold write_intern.
  apply preserves_bind; [apply writes_trans | apply preserves_get, writes_refl |].
  intros st0.
  destruct (node_lookup n (nodes (dependency_graph st0))) as [attrs |];
    [| apply preserves_raise, writes_refl].
  assert (Hrest : preserves (writes E)
            match src attrs with
            | Some source =>
                match is_package attrs with
                | Some is_package => _write_source_string E n source is_package
                | None => raise (KeyError "is_package")
                end
            | None =>
                module_obj <- _import_module E n ;;
                source <- _get_source_of_module module_obj ;;
                _write_source_string E n source (has_path module_obj)
            end).
  { destruct (src attrs).
    - destruct (is_package attrs);
        [apply _write_writes | apply preserves_raise, writes_refl].
    - apply preserves_bind;
        [apply writes_trans | apply _import_module_writes | intros m].
      apply preserves_bind;
        [apply writes_trans | apply _get_source_of_module_writes | intros s].
      apply _write_writes. }
  destruct (is_pickle attrs) as [[|] |];
    [apply preserves_ret, writes_refl | apply Hrest | apply Hrest].
Qed.

(** The loop of [close] over the sorted keys. *)
Lemma storages_loop (keys : list string) :
  forall a b,
    for_each keys write_storage a = Return tt b ->
    b = set_archive
          (archive a
           ++ flat_map (fun key =>
                          match storages_get key (serialized_storages a) with
                          | Some storage => [storage_record key storage]
                          | None => []
                          end) keys) a.
Proof.
  induction keys as [| k keys IH]; intros a b H.
  - injection H as <-. destruct a; unfold set_archive; simpl.
    now rewrite app_nil_r.
  - simpl in H. apply bind_Return in H. destruct H as [u [s [Hw Hr]]].
    rewrite write_storage_unfold in Hw.
    destruct (storages_get k (serialized_storages a)) as [v |] eqn:Hg;
      [| discriminate].
    destruct (zip_file a); [| discriminate]. injection Hw as _ <-.
    apply IH in Hr. rewrite Hr. simpl. rewrite Hg.
    destruct a; unfold set_archive; simpl. now rewrite <- app_assoc.
Qed.

Lemma set_archive_nil (a : PackageExporter) :
  a = set_archive (archive a ++ []) a.
Proof. destruct a; unfold set_archive; simpl. now rewrite app_nil_r. Qed.

Lemma set_archive_twice (a : PackageExporter) (x y : list zip_record) :
  set_archive (archive (set_archive (archive a ++ x) a) ++ y)
              (set_archive (archive a ++ x) a)
  = set_archive (archive a ++ x ++ y) a.
Proof. destruct a; unfold set_archive; simpl. now rewrite <- app_assoc. Qed.

Lemma _write_returns (filename data : string) (a b : PackageExporter)
      (u : unit) :
  _write E filename data a = Return u b ->
  is_mangled E filename = false
  /\ b = set_archive (archive a ++ [(filename, data, String.length data)]) a.
Proof.
  unfold _write, bind, get, raise, modify.
  destruct (is_mangled E filename); [discriminate |].
  destruct (negb (zip_file a)); [discriminate |]. intros [= <-]. auto.
Qed.

Lemma write_mock_returns (n : string) (a b : PackageExporter) (u : unit) :
  write_mock E n a = Return u b ->
  exists r,
    mock_source E n r
    /\ is_mangled E (fst (fst r)) = false
    /\ b = set_archive (archive a ++ [r]) a.
Proof.
  unfold write_mock. intros H. apply bind_Return in H.
  destruct H as [obj [s [Hi Hw]]].
  destruct (_import_module_cases E n a) as [[m [Him Hr]] | Hr];
    rewrite Hr in Hi; [| discriminate].
  injection Hi as <- <-.
  unfold _write_source_string in Hw. apply _write_returns in Hw.
  destruct Hw as [Hm ->].
  exists (source_record n _MOCK_IMPL (has_path m)).
  split; [exists m; split; [exact Him | reflexivity] |].
  split; [exact Hm | reflexivity].
Qed.

(** The loop of [_compute_patterns] over the mocked modules. *)
Lemma mock_loop (l : list string) :
  forall a b,
    for_each l (write_mock E) a = Return tt b ->
    exists rs,
      Forall2 (mock_source E) l rs
      /\ Forall (fun r : zip_record => is_mangled E (fst (fst r)) = false) rs
      /\ b = set_archive (archive a ++ rs) a.
Proof.
  induction l as [| n l IH]; intros a b H.
  - injection H as <-. exists []. split; [constructor |].
    split; [constructor | apply set_archive_nil].
  - simpl in H. apply bind_Return in H. destruct H as [u [s [Hw Hr]]].
    apply write_mock_returns in Hw. destruct Hw as [r [Hsrc [Hm ->]]].
    apply IH in Hr. destruct Hr as [rs [Hf [Hn ->]]].
    exists (r :: rs). split; [now constructor |]. split; [now constructor |].
    apply set_archive_twice.
Qed.

Lemma write_intern_returns (n : string) (a b : PackageExporter) (u : unit) :
  write_intern E n a = Return u b ->
  exists part,
    intern_source E (dependency_graph a) n part
    /\ Forall (fun r : zip_record => is_mangled E (fst (fst r)) = false) part
    /\ b = set_archive (archive a ++ part) a.
Proof.
  unfold write_intern. rewrite bind_get.
  destruct (node_lookup n (nodes (dependency_graph a))) as [attrs |] eqn:Hl;
    [| discriminate].
  assert (Hrest :
            match src attrs with
            | Some source =>
                match is_package attrs with
                | Some is_package => _write_source_string E n source is_package
                | None => raise (KeyError "is_package")
                end
            | None =>
                module_obj <- _import_module E n ;;
                source <- _get_source_of_module module_obj ;;
                _write_source_string E n source (has_path module_obj)
            end a = Return u b ->
            exists part,
              match src attrs with
              | Some source =>
                  exists p, is_package attrs = Some p
                            /\ part = [source_record n source p]
              | None =>
                  exists module_obj source,
                    import_module E n = Some module_obj
                    /\ (forall s, _get_source_of_module module_obj s
                                  = Return source s)
                    /\ part = [source_record n source (has_path module_obj)]
              end
              /\ Forall (fun r : zip_record => is_mangled E (fst (fst r)) = false)
                        part
              /\ b = set_archive (archive a ++ part) a).
  { destruct (src attrs) as [source |].
    - destruct (is_package attrs) as [p |]; [| discriminate].
      intros Hw. unfold _write_source_string in Hw. apply _write_returns in Hw.
      destruct Hw as [Hm ->].
      exists [source_record n source p].
      split; [exists p; split; reflexivity |].
      split; [repeat constructor; exact Hm | reflexivity].
    - intros H. apply bind_Return in H. destruct H as [obj [s [Hi H]]].
      destruct (_import_module_cases E n a) as [[m [Him Hr]] | Hr];
        rewrite Hr in Hi; [| discriminate].
      injection Hi as <- <-.
      apply bind_Return in H. destruct H as [source [s' [Hs Hw]]].
      pose proof (_get_source_of_module_anywhere m source a s' Hs) as Hany.
      rewrite (Hany a) in Hs. injection Hs as <-.
      unfold _write_source_string in Hw. apply _write_returns in Hw.
      destruct Hw as [Hm ->].
      exists [source_record n source (has_path m)].
      split; [exists m, source; repeat split; assumption |].
      split; [repeat constructor; exact Hm | reflexivity]. }
  unfold intern_source.
  destruct (is_pickle attrs) as [[|] |] eqn:Hp.
  - intros H. assert (Hab : b = a) by (unfold ret in H; congruence). subst b.
    exists []. split; [| split; [apply Forall_nil | apply set_archive_nil]].
    exists attrs. split; [exact Hl |]. now rewrite Hp.
  - intros H. destruct (Hrest H) as [part [Hs [Hm Hb]]].
    exists part. split; [| split; assumption].
    exists attrs. split; [exact Hl |]. now rewrite Hp.
  - intros H. destruct (Hrest H) as [part [Hs [Hm Hb]]].
    exists part. split; [| split; assumption].
    exists attrs. split; [exact Hl |]. now rewrite Hp.
Qed.

(** The loop of [_compute_patterns] over the interned modules. *)
Lemma intern_loop (l : list string) :
  forall a b,
    for_each l (write_intern E) a = Return tt b ->
    exists parts,
      Forall2 (intern_source E (dependency_graph a)) l parts
      /\ Forall (fun r : zip_record => is_mangled E (fst (fst r)) = false)
                (concat parts)
      /\ b = set_archive (archive a ++ concat parts) a.
Proof.
  induction l as [| n l IH]; intros a b H.
  - injection H as <-. exists []. split; [constructor |].
    split; [constructor | apply set_archive_nil].
  - simpl in H. apply bind_Return in H. destruct H as [u [s [Hw Hr]]].
    apply write_intern_returns in Hw. destruct Hw as [part [Hsrc [Hm ->]]].
    apply IH in Hr. destruct Hr as [parts [Hf [Hn ->]]].
    exists (part :: parts). split; [now constructor |].
    split; [simpl; now apply Forall_app |].
    simpl. apply set_archive_twice.
Qed.

(** Sealing that returns: the exporter as classification left it; behind
    its archive the record of [_mock] if a module is mocked, the records
    of the mocked and of the interned modules, the manifest and the
    storage records; [zip_file] deleted. *)
Lemma close_emits (st st' : PackageExporter) :
  close E st = Return tt st' ->
  exists s1 mocks interns,
    _match_patterns E st = Return tt s1
    /\ Forall2 (mock_source E) (mock_modules s1) mocks
    /\ Forall2 (intern_source E (dependency_graph s1)) (intern_modules s1)
               interns
    /\ Forall (fun r : zip_record => is_mangled E (fst (fst r)) = false)
              (mock_stub E (mock_modules s1) ++ mocks ++ concat interns)
    /\ st' = set_zip_file false
               (set_archive
                  (archive s1
                   ++ (mock_stub E (mock_modules s1) ++ mocks ++ concat interns)
                   ++ manifest_record (extern_modules s1)
                   :: storage_records (serialized_storages s1)) s1).
Proof.
  unfold close. intros H. apply bind_Return in H.
  destruct H as [u [sA [Hcp Hrest]]].
  unfold _compute_patterns in Hcp. apply bind_Return in Hcp.
  destruct Hcp as [[] [s1 [Hm Hcp]]].
  rewrite bind_get in Hcp. cbv zeta in Hcp.
  destruct (negb (Nat.eqb (length _) 0)); [discriminate |].
  apply bind_Return in Hcp. destruct Hcp as [u2 [s2 [Hchk Hcp]]].
  destruct (check_unmatched_patterns_spec (patterns s1) s1)
    as [[Hr _] | [pre [p [a [post [_ [Hr _]]]]]]];
    rewrite Hr in Hchk; [| discriminate].
  injection Hchk as _ <-.
  apply bind_Return in Hcp. destruct Hcp as [u3 [s3 [Hmf Hcp]]].
  apply bind_Return in Hcp. destruct Hcp as [[] [s4 [Hmk Hcp]]].
  apply bind_Return in Hcp. destruct Hcp as [[] [s5 [Hin Hw]]].
  assert (H3 : Forall (fun r : zip_record => is_mangled E (fst (fst r)) = false)
                      (mock_stub E (mock_modules s1))
               /\ s3 = set_archive
                         (archive s1 ++ mock_stub E (mock_modules s1)) s1).
  { unfold mock_stub.
    destruct (negb (Nat.eqb (length (mock_modules s1)) 0)).
    - unfold _write_source_string in Hmf. apply _write_returns in Hmf.
      destruct Hmf as [Hmg ->]. split; [repeat constructor; exact Hmg |].
      reflexivity.
    - injection Hmf as _ <-. split; [constructor | apply set_archive_nil]. }
  destruct H3 as [Hstub ->].
  apply mock_loop in Hmk. destruct Hmk as [mocks [Hmocks [Hmn ->]]].
  rewrite set_archive_twice in Hin.
  apply intern_loop in Hin. destruct Hin as [interns [Hinterns [Hinn ->]]].
  rewrite set_archive_twice in Hw.
  exists s1, mocks, interns. split; [exact Hm |]. split; [exact Hmocks |].
  split; [exact Hinterns |].
  split; [apply Forall_app; split; [exact Hstub |]; now apply Forall_app |].
  apply _write_returns in Hw. destruct Hw as [_ ->].
  rewrite bind_get in Hrest.
  apply bind_Return in Hrest. destruct Hrest as [[] [sB [Hloop Hfin]]].
  apply storages_loop in Hloop. subst sB.
  unfold _finalize_zip, bind, get, raise, modify in Hfin.
  destruct (negb (zip_file _)); [discriminate |]. injection Hfin as <-.
  unfold storage_records, manifest_record.
  destruct s1; unfold set_zip_file, set_archive; simpl.
  now rewrite <- !app_assoc.
Qed.

(** The same, the source records taken together. *)
Lemma close_layout (st st' : PackageExporter) :
  close E st = Return tt st' ->
  exists s1 sources,
    _match_patterns E st = Return tt s1
    /\ Forall (fun r : zip_record => is_mangled E (fst (fst r)) = false) sources
    /\ st' = set_zip_file false
               (set_archive
                  (archive s1 ++ sources
                   ++ manifest_record (extern_modules s1)
                   :: storage_records (serialized_storages s1)) s1).
Proof.
  intros H.
  destruct (close_emits st st' H) as [s1 [mocks [interns [Hm [_ [_ [Hs ->]]]]]]].
  exists s1, (mock_stub E (mock_modules s1) ++ mocks ++ concat interns).
  split; [exact Hm |]. split; [exact Hs | reflexivity].
Qed.



End Layout.

(** X11. A sealed archive is the archive as it was, then: the record
    of the module [_mock] if a module is mocked; one record per mocked
    module, in the order of the mocked table, holding [_MOCK_IMPL]; the
    records of the interned modules, in the order of the interned
    table, with the source given to [save_source_string] or the source
    of the module the importer finds, and none for the node of a
    pickle; the record [.data/extern_modules] with the extern table one
    name per line; one record [.data/<key>.storage] per storage, the
    keys in ascending order as strings.  None of the source records is
    under a mangled name, [zip_file] is deleted and the storage table is
    left as it was. *)
Theorem sealed_archive_layout {PyObject} (E : Env PyObject)
        (st st' : PackageExporter) :
  close E st = Return tt st' ->
  exists mocks interns,
    archive st' = archive st
                  ++ (mock_stub E (mock_modules st') ++ mocks ++ concat interns)
                  ++ manifest_record (extern_modules st')
                  :: storage_records (serialized_storages st)
    /\ Forall2 (mock_source E) (mock_modules st') mocks
    /\ Forall2 (intern_source E (dependency_graph st')) (intern_modules st')
               interns
    /\ Forall (fun r : zip_record => is_mangled E (fst (fst r)) = false)
              (mock_stub E (mock_modules st') ++ mocks ++ concat interns)
    /\ zip_file st' = false
    /\ serialized_storages st' = serialized_storages st
    /\ Sorted (fun a b => String.leb a b = true)
              (Str.sorted (map fst (serialized_storages st)))
    /\ Permutation (Str.sorted (map fst (serialized_storages st)))
                   (map fst (serialized_storages st)).
Proof.
  intros H.
  destruct (close_emits E st st' H)
    as [s1 [mocks [interns [Hm [Hmocks [Hinterns [Hs ->]]]]]]].
  pose proof (classification_loop E (node_names (dependency_graph st)) st) as Hl.
  rewrite <- _match_patterns_loop, Hm in Hl. destruct Hl as [Hk _].
  unfold keeps, unclassified_part in Hk. inversion Hk as [[Hz Ha Hst Hg Hp]].
  exists mocks, interns. simpl. rewrite Ha, Hst.
  repeat split; try assumption; try reflexivity.
  - apply sorted_Sorted.
  - apply sorted_Permutation.
Qed.

Lemma sealed_archive_layout_witness :
  let st := Demo.script Demo.world 3
              [call_mock ["b"] [] true;
               call_intern ["**"] [] true;
               call_save_pickle "res" "model.pkl" Demo.model true;
               call_save_source_string "m" "import os" false true] in
  let st' := Demo.state_of (close Demo.world st) in
  exists mocks interns,
    archive st' = archive st
                  ++ (mock_stub Demo.world ["b"] ++ mocks ++ concat interns)
                  ++ manifest_record []
                  :: storage_records [("4096", Demo.tensor)]
    /\ Forall2 (mock_source Demo.world) ["b"] mocks
    /\ Forall2 (intern_source Demo.world (dependency_graph st'))
               ["<res.model.pkl>"; "a"; "m"] interns.
Proof.
  intros st st'.
  assert (Hc : close Demo.world st = Return tt st') by (vm_compute; reflexivity).
  destruct (sealed_archive_layout Demo.world st st' Hc)
    as [mocks [interns [H [Hm [Hi _]]]]].
  exists mocks, interns. split; [exact H |]. split; [exact Hm | exact Hi].
Defined.



(** ** The order of the dependencies *)

(** X13. [_get_dependencies] lists the names the scanned pairs
    contribute in the order in which the scanner yields them, each name
    at the place of its first occurrence. *)
Theorem dependencies_in_scan_order {PyObject} (E : Env PyObject)
        (src module_name : string) (is_package : bool) :
  _get_dependencies E src module_name is_package
  = first_occurrences
      (flat_map (fun pair => match pair_dependency E pair with
                             | Some d => [d]
                             | None => []
                             end)
         (find_files_source_depends_on E src
            (if is_package then module_name
             else Str.rsplit1_head "." module_name))).
Proof.
  rewrite _get_dependencies_pairs.
  set (pairs := find_files_source_depends_on E src _).
  assert (H : forall acc,
             fold_left (fun dependencies pair =>
                          match pair_dependency E pair with
                          | Some d => dict_set d dependencies
                          | None => dependencies
                          end) pairs acc
             = fold_left (fun acc m => if Str.mem m acc then acc else acc ++ [m])
                 (flat_map (fun pair => match pair_dependency E pair with
                                        | Some d => [d]
                                        | None => []
                                        end) pairs) acc).
  { induction pairs as [| pair pairs IH]; intros acc; simpl; [reflexivity |].
    rewrite fold_left_app, IH.
    destruct (pair_dependency E pair); reflexivity. }
  rewrite H, append_unseen. simpl.
  induction (first_occurrences _) as [| x l IH]; simpl; [reflexivity |].
  now rewrite IH.
Qed.

(** ** Leaving the [with] block *)

Section Zip_file.

Context {PyObject : Type} (E : Env PyObject).

Lemma writes_zip_file (a b : PackageExporter) :
  writes E a b -> keeps zip_file a b.
Proof. intros [x [-> _]]. reflexivity. Qed.

Lemma _write_keeps_zip_file (filename data : string) :
  preserves (keeps zip_file) (_write E filename data).
Proof.
  apply (preserves_weaken (writes E) (keeps zip_file));
    [apply writes_zip_file | apply _write_writes].
Qed.

Lemma perform_keeps_zip_file (depth : nat) (c : call PyObject) :
  preserves (keeps zip_file) (perform E depth c).
Proof.
  assert (Hloop : forall root deps,
             preserves (keeps zip_file)
               (for_each deps (fun dep =>
                  require_module_if_not_provided E depth dep true ;;
                  graph_add_edge root dep))).
  { intros root deps. apply (dependencies_loop_keeps E zip_file); [reflexivity |].
    apply _save_module_keeps; reflexivity. }
  destruct c; simpl.
  - unfold save_source_string.
    apply preserves_bind; [apply keeps_trans | intros st; reflexivity | intros _].
    apply preserves_bind; [apply keeps_trans | intros st; reflexivity | intros _].
    destruct dependencies; [apply Hloop | apply preserves_ret, keeps_refl].
  - unfold save_module.
    apply preserves_bind; [apply keeps_trans | intros st; reflexivity | intros _].
    apply _save_module_keeps; reflexivity.
  - unfold save_pickle.
    apply preserves_bind; [apply keeps_trans | apply _filename_keeps | intros f].
    apply preserves_bind; [apply keeps_trans | | intros pids].
    { apply preserves_map_M;
        [apply keeps_refl | apply keeps_trans | intros x st; reflexivity]. }
    apply preserves_bind; [apply keeps_trans | intros st; reflexivity | intros _].
    apply preserves_bind; [apply keeps_trans | intros st; reflexivity | intros _].
    apply preserves_bind;
      [apply keeps_trans | | intros _; apply _write_keeps_zip_file].
    destruct dependencies; [| apply preserves_ret, keeps_refl].
    destruct (global_modules _ _); [apply preserves_raise, keeps_refl |].
    apply Hloop.
  - unfold save_text, save_binary.
    apply preserves_bind; [apply keeps_trans | apply _filename_keeps |].
    intros f. apply _write_keeps_zip_file.
  - unfold save_binary.
    apply preserves_bind; [apply keeps_trans | apply _filename_keeps |].
    intros f. apply _write_keeps_zip_file.
  - intros st. reflexivity.
  - intros st. reflexivity.
  - intros st. reflexivity.
  - intros st. reflexivity.
  - intros st. reflexivity.
  - intros st. reflexivity.
  - intros st. reflexivity.
Qed.

Lemma _compute_patterns_keeps_zip_file :
  preserves (keeps zip_file) (_compute_patterns E).
Proof.
  unfold _compute_patterns.
  apply preserves_bind; [apply keeps_trans | | intros _].
  { intros st.
    pose proof (classification_loop E (node_names (dependency_graph st)) st) as Hl.
    rewrite <- _match_patterns_loop in Hl.
    destruct (_match_patterns E st); [| | exact I]; destruct Hl as [Hk _];
      unfold keeps, unclassified_part in *; now inversion Hk. }
  apply preserves_bind; [apply keeps_trans | apply preserves_get, keeps_refl |].
  intros s1. cbv zeta.
  destruct (negb (Nat.eqb (length _) 0)); [apply preserves_raise, keeps_refl |].
  apply preserves_bind; [apply keeps_trans | | intros _].
  { intros s. destruct (check_unmatched_patterns_spec (patterns s1) s)
      as [[-> _] | [pre [p [a [post [_ [-> _]]]]]]]; reflexivity. }
  apply preserves_bind; [apply keeps_trans | | intros _].
  { destruct (negb _);
      [apply _write_keeps_zip_file | apply preserves_ret, keeps_refl]. }
  apply preserves_bind; [apply keeps_trans | | intros _].
  { apply preserves_for_each; [apply keeps_refl | apply keeps_trans | intros n].
    apply (preserves_weaken (writes E) (keeps zip_file));
      [apply writes_zip_file | apply write_mock_writes]. }
  apply preserves_bind; [apply keeps_trans | | intros _].
  { apply preserves_for_each; [apply keeps_refl | apply keeps_trans | intros n].
    apply (preserves_weaken (writes E) (keeps zip_file));
      [apply writes_zip_file | apply write_intern_writes]. }
  apply _write_keeps_zip_file.
Qed.

(** Sealing that raises leaves [zip_file] as it found it. *)
Lemma close_raise_keeps_zip_file (st st' : PackageExporter) (e : exn) :
  close E st = Raise e st' -> zip_file st' = zip_file st.
Proof.
  unfold close. unfold bind at 1.
  pose proof (_compute_patterns_keeps_zip_file st) as H1.
  destruct (_compute_patterns E st) as [u sA | e1 sA |];
    [| intros [= _ <-]; exact H1 | discriminate].
  unfold bind at 1, get at 1. unfold bind at 1.
  assert (H2 : preserves (keeps zip_file)
                 (for_each (Str.sorted (map fst (serialized_storages sA)))
                           write_storage)).
  { apply preserves_for_each; [apply keeps_refl | apply keeps_trans |].
    intros k s. rewrite write_storage_unfold.
    destruct (storages_get _ _); [destruct (zip_file s) |]; reflexivity. }
  specialize (H2 sA). unfold keeps in *.
  destruct (for_each _ _ sA) as [u2 sB | e2 sB |];
    [| intros [= _ <-]; congruence | discriminate].
  unfold _finalize_zip, bind, get, raise, modify.
  destruct (zip_file sB) eqn:Hz; simpl; [discriminate |].
  intros [= _ <-]. congruence.
Qed.

End Zip_file.

(** X14. Leaving the [with] block of an open exporter.  After an error
    in the body the error goes on to the caller and the zip is finalized
    without sealing: the exporter is as the body left it, [zip_file]
    deleted.  An error in sealing goes on to the caller too, and then
    the zip is not finalized.  Sealing that returns leaves [zip_file]
    deleted. *)
Theorem exit_finalizes_after_body_error {PyObject} (E : Env PyObject)
        (depth : nat) (calls : list (call PyObject)) (st : PackageExporter) :
  zip_file st = true ->
  let body := for_each calls (perform E depth) in
  (forall e s1, body st = Raise e s1 ->
     with_exporter E body st = Raise e (set_zip_file false s1))
  /\ (forall s1 e s2, body st = Return tt s1 -> close E s1 = Raise e s2 ->
        with_exporter E body st = Raise e s2 /\ zip_file s2 = true)
  /\ (forall s1 s2, body st = Return tt s1 -> close E s1 = Return tt s2 ->
        with_exporter E body st = Return tt s2 /\ zip_file s2 = false).
Proof.
  intros Hz body.
  assert (Hbody : preserves (keeps zip_file) body).
  { apply preserves_for_each; [apply keeps_refl | apply keeps_trans |].
    apply perform_keeps_zip_file. }
  specialize (Hbody st). unfold keeps in Hbody.
  split; [| split].
  - intros e s1 Hb. rewrite Hb in Hbody. unfold with_exporter. rewrite Hb.
    unfold _finalize_zip, bind, get, raise, modify.
    rewrite Hbody, Hz. reflexivity.
  - intros s1 e s2 Hb Hc. rewrite Hb in Hbody. unfold with_exporter.
    rewrite Hb. split; [exact Hc |].
    rewrite (close_raise_keeps_zip_file E s1 s2 e Hc). congruence.
  - intros s1 s2 Hb Hc. unfold with_exporter. rewrite Hb.
    split; [exact Hc |].
    destruct (close_layout E s1 s2 Hc) as [sm [sources [_ [_ ->]]]].
    reflexivity.
Qed.

Lemma exit_finalizes_after_body_error_witness :
  let calls := [call_save_text "pkg" "notes.txt" "hello";
                call_save_module "nowhere" true] in
  export Demo.world 3 calls
  = Raise (ModuleNotFoundError "nowhere")
          (set_zip_file false (Demo.script Demo.world 3 calls)).
Proof.
  intros calls.
  refine (proj1 (exit_finalizes_after_body_error Demo.world 3 calls __init__ _)
                (ModuleNotFoundError "nowhere") _ _).
  - reflexivity.
  - reflexivity.
Defined.

(** ** A module is required once *)

(** X15. Once [require_module_if_not_provided] has returned for a name,
    requiring the name again does nothing, whatever was called on the
    exporter in between. *)
Theorem required_module_is_not_saved_again {PyObject} (E : Env PyObject)
        (depth depth' : nat) (module_name : string) (d d' : bool)
        (st s1 s2 : PackageExporter) :
  require_module_if_not_provided E depth module_name d st = Return tt s1 ->
  steps E s1 s2 ->
  require_module_if_not_provided E depth' module_name d' s2 = Return tt s2.
Proof.
  unfold require_module_if_not_provided. rewrite !require_step.
  intros H Hs.
  assert (Hc : contains (dependency_graph s2) module_name
               || _can_implicitly_extern E module_name = true).
  { destruct (contains (dependency_graph st) module_name
              || _can_implicitly_extern E module_name) eqn:Hc.
    - injection H as <-. apply orb_true_iff in Hc. apply orb_true_iff.
      destruct Hc as [Hc | Hc]; [left | now right].
      apply contains_In. apply (steps_graph_grows E st s2 Hs).
      now apply contains_In.
    - apply orb_true_iff. left. apply contains_In.
      apply (steps_graph_grows E s1 s2 Hs).
      now apply (_save_module_lands E depth module_name d st s1 tt). }
  now rewrite Hc.
Qed.

Lemma required_module_is_not_saved_again_witness :
  let s1 := Demo.state_of
              (require_module_if_not_provided Demo.world 3 "a" true __init__) in
  visited s1 = ["a"; "b"]
  /\ require_module_if_not_provided Demo.world 1 "a" false s1 = Return tt s1.
Proof.
  intros s1. split; [reflexivity |].
  exact (required_module_is_not_saved_again Demo.world 3 1 "a" true false
           __init__ s1 s1 eq_refl (rt_refl _ _ _)).
Defined.
